(** * PointCloudDataset: a shallow embedding of
      [aliad/data/point_cloud_dataset.py]

    The loader reads per-sample records of per-jet columns, pads the
    list-valued columns to a fixed width, stacks columns and jets into
    one tensor per feature group, concatenates the samples, and derives
    labels and class-balanced weights.

    Conventions of the embedding:
    - Python [int] is [Z]; lengths and axis sizes are [nat].
    - Python [float] is the field [Qc] of canonical rationals, so that
      [1 / n] is exact; rounding of IEEE doubles is not modelled.
    - A Python [dict] that the code iterates over is an association
      list in insertion order ([pydict]); a dict that is only looked up
      is a [gmap].
    - An exception is a value of [exn]; a computation that may raise
      has type [result A]; a method that also mutates [self] has type
      [M A], a state-and-exception monad in which the state reached so
      far survives a raise, as attribute assignments do in Python.
    - [logging] calls ([self.stdout.info]) have no effect on the data
      and are left out. *)

From stdpp Require Import gmap strings list fin_maps pretty.
From Stdlib Require Import QArith Qcanon.

Open Scope Z_scope.

(** ** Exceptions *)

(** One constructor per [raise] site of the module and per library
    failure the module can run into.  The arguments are the values the
    source interpolates into the message. *)
Inductive exn : Type :=
| LabelInMultipleClasses (label : string)
    (* ValueError, set_class_labels l.51 *)
| SampleNotInDataset (sample : string)
    (* RuntimeError, _load_sample_data l.86 *)
| NoInputFile (sample : string)
    (* ValueError, _load_sample_data l.93 *)
| BadFilenames
    (* ValueError, _load_sample_data l.97 *)
| NoClassValue (sample : string)
    (* RuntimeError, load l.114 *)
| TooManyRequested (sample : string) (requested available : Z)
    (* RuntimeError, load l.123-124 *)
| InconsistentFeatureSizes
    (* RuntimeError, load l.176 *)
| InconsistentFeatureLabelSizes
    (* RuntimeError, load l.178 *)
| AssertionError
    (* assert, load l.181 *)
| UnboundLocalError (name : string)
    (* a local variable read before its first assignment *)
| AttributeError (name : string)
    (* attribute lookup on an object that has no such attribute *)
| FieldNotFound (key : string)
    (* awkward: [array[key]] on an array without the field [key] *)
| FileNotFoundError (filename : string)
    (* ak.from_parquet on a path that does not exist *)
| NumpyValueError
    (* np.stack / np.concatenate / np.full on unsuitable arguments *)
| ToNumpyError
    (* ak.to_numpy on a column that is neither flat nor a list *)
| IndexError
    (* fancy indexing with an index out of range *)
| TypeError.
    (* len(None) and the like *)

#[global] Instance exn_eq_dec : EqDecision exn.
Proof. solve_decision. Defined.

(** The strings the message of an exception is built from. *)
Definition exn_mentions (e : exn) : list string :=
  match e with
  | LabelInMultipleClasses l => [l]
  | SampleNotInDataset s => [s]
  | NoInputFile s => [s]
  | NoClassValue s => [s]
  | TooManyRequested s r a => [s; pretty r; pretty a]
  | UnboundLocalError n => [n]
  | AttributeError n => [n]
  | FieldNotFound k => [k]
  | FileNotFoundError f => [f]
  | _ => []
  end.

(** Whether the exception is one of the two "inconsistent sample size"
    errors of [load]. *)
Definition is_inconsistent_sample_size (e : exn) : bool :=
  match e with
  | InconsistentFeatureSizes | InconsistentFeatureLabelSizes => true
  | _ => false
  end.

Inductive result (A : Type) : Type :=
| Ok (a : A)
| Raise (e : exn).
Arguments Ok {A} a.
Arguments Raise {A} e.

#[global] Instance result_ret : MRet result := @Ok.
#[global] Instance result_bind : MBind result :=
  λ A B f r, match r with Ok a => f a | Raise e => Raise e end.

Definition is_ok {A} (r : result A) : bool :=
  match r with Ok _ => true | Raise _ => false end.

(** A [for] loop whose body may raise: the accumulator is threaded
    through the elements in order and the first raise ends the loop. *)
Fixpoint for_each {A B} (f : A → B → result A) (a : A) (l : list B)
  : result A :=
  match l with
  | [] => Ok a
  | b :: l' => a' ← f a b; for_each f a' l'
  end.

(** ** Python dictionaries in insertion order *)

Definition pydict (K V : Type) : Type := list (K * V).

Section pydict.
Context {K V : Type} `{EqDecision K}.

Fixpoint dict_get (k : K) (d : pydict K V) : option V :=
  match d with
  | [] => None
  | (k', v) :: d' => if decide (k = k') then Some v else dict_get k d'
  end.

Definition dict_in (k : K) (d : pydict K V) : bool :=
  bool_decide (is_Some (dict_get k d)).

(** [d[k] = v]: an existing key keeps its position, a new key goes
    to the end. *)
Fixpoint dict_set (k : K) (v : V) (d : pydict K V) : pydict K V :=
  match d with
  | [] => [(k, v)]
  | (k', v') :: d' =>
      if decide (k = k') then (k, v) :: d' else (k', v') :: dict_set k v d'
  end.

Definition dict_keys (d : pydict K V) : list K := d.*1.
End pydict.

(** ** numpy arrays *)

(** An array with at least one axis is the list of its sub-arrays
    along axis 0 ([rows]) together with the sizes of the remaining
    axes ([inner]), which numpy keeps even when axis 0 is empty.  A
    sub-array is a scalar or a list of sub-arrays. *)
#[warnings="-register-all"]
Inductive nd (A : Type) : Type :=
| Sc (a : A)
| Ar (xs : list (nd A)).
Arguments Sc {A} a.
Arguments Ar {A} xs.

Record ndarray (A : Type) : Type := NDArray {
  rows : list (nd A);
  inner : list nat
}.
Arguments NDArray {A} rows inner.
Arguments rows {A} _.
Arguments inner {A} _.

Definition shape {A} (a : ndarray A) : list nat := length (rows a) :: inner a.

(** [a.shape[0]] *)
Definition axis0 {A} (a : ndarray A) : nat := length (rows a).

Definition children {A} (x : nd A) : list (nd A) :=
  match x with Ar xs => xs | Sc _ => [] end.

(** [x[i]] on a sub-array. *)
Definition nd_get {A} (x : nd A) (i : nat) : option (nd A) := children x !! i.

Definition nd_item {A} (x : nd A) : option A :=
  match x with Sc a => Some a | Ar _ => None end.


(** A one-dimensional array. *)
Definition array1 {A} (xs : list A) : ndarray A := NDArray (Sc <$> xs) [].

(** [transpose n xss] has [n] rows; row [i] collects the [i]-th
    element of every list of [xss]. *)
Definition transpose {X} (n : nat) (xss : list (list X)) : list (list X) :=
  (λ i, omap (λ xs : list X, xs !! i) xss) <$> seq 0 n.

(** Joining sub-arrays of shape [d] along a new last axis. *)
Fixpoint stack_last {A} (d : list nat) (xs : list (nd A)) : nd A :=
  match d with
  | [] => Ar xs
  | w :: d' => Ar (stack_last d' <$> transpose w (children <$> xs))
  end.

Definition all_shapes_eq {A} (a : ndarray A) (arrs : list (ndarray A)) : bool :=
  forallb (λ b, bool_decide (shape b = shape a)) arrs.

(** [np.stack(arrs, -1)]: at least one array, all of one shape. *)
Definition np_stack_last {A} (arrs : list (ndarray A)) : result (ndarray A) :=
  match arrs with
  | [] => Raise NumpyValueError
  | a :: _ =>
      if all_shapes_eq a arrs then
        Ok (NDArray (stack_last (inner a) <$> transpose (axis0 a) (rows <$> arrs))
                    (inner a ++ [length arrs]))
      else Raise NumpyValueError
  end.

(** [np.stack(arrs, axis=1)] *)
Definition np_stack_axis1 {A} (arrs : list (ndarray A)) : result (ndarray A) :=
  match arrs with
  | [] => Raise NumpyValueError
  | a :: _ =>
      if all_shapes_eq a arrs then
        Ok (NDArray (Ar <$> transpose (axis0 a) (rows <$> arrs))
                    (length arrs :: inner a))
      else Raise NumpyValueError
  end.

(** [np.concatenate(arrs)] along axis 0: at least one array, all with
    the same remaining axes. *)
Definition np_concatenate {A} (arrs : list (ndarray A)) : result (ndarray A) :=
  match arrs with
  | [] => Raise NumpyValueError
  | a :: _ =>
      if forallb (λ b, bool_decide (inner b = inner a)) arrs then
        Ok (NDArray (concat (rows <$> arrs)) (inner a))
      else Raise NumpyValueError
  end.

(** [np.concatenate] of one-dimensional arrays, kept as lists. *)
Definition np_concatenate1 {A} (arrs : list (list A)) : result (list A) :=
  match arrs with
  | [] => Raise NumpyValueError
  | _ => Ok (concat arrs)
  end.

(** [np.full(n, v)] *)
Definition np_full {A} (n : Z) (v : A) : result (list A) :=
  if decide (n < 0) then Raise NumpyValueError else Ok (replicate (Z.to_nat n) v).

(** [a[index]] with an integer index array, along axis 0. *)
Definition gather {X} (l : list X) (index : list nat) : result (list X) :=
  match mapM (λ i, l !! i) index with
  | Some l' => Ok l'
  | None => Raise IndexError
  end.

Definition take_rows {A} (a : ndarray A) (index : list nat) : result (ndarray A) :=
  r ← gather (rows a) index; Ok (NDArray r (inner a)).

(** [np.expand_dims(a, axis=-1)] of a one-dimensional array. *)
Definition np_expand_dims_last {A} (xs : list A) : ndarray A :=
  NDArray ((λ v, Ar [Sc v]) <$> xs) [1%nat].

(** ** awkward arrays *)

(** What [ak.from_parquet] returns: a flat column (a number per
    event), a list-valued column (a variable-length list of numbers
    per event), or a record array of named fields.  A record array
    carries its own length, as awkward's record arrays do. *)
#[warnings="-register-all"]
Inductive akarray : Type :=
| AkNumpy (xs : list Qc)
| AkList (xss : list (list Qc))
| AkRecord (len : nat) (fields : list (string * akarray)).

(** [len(array)] *)
Definition ak_len (a : akarray) : Z :=
  match a with
  | AkNumpy xs => Z.of_nat (length xs)
  | AkList xss => Z.of_nat (length xss)
  | AkRecord n _ => Z.of_nat n
  end.

(** [ak.fields(array)] *)
Definition ak_fields (a : akarray) : list string :=
  match a with
  | AkRecord _ fs => fs.*1
  | _ => []
  end.

(** [array[key]] with a string key. *)
Definition ak_getitem (a : akarray) (key : string) : result akarray :=
  match a with
  | AkRecord _ fs =>
      match dict_get key fs with
      | Some x => Ok x
      | None => Raise (FieldNotFound key)
      end
  | _ => Raise (FieldNotFound key)
  end.

(** [l[:n]] with Python's treatment of a negative bound; [None] keeps
    the whole list. *)
Definition slice_to {A} (n : option Z) (l : list A) : list A :=
  match n with
  | None => l
  | Some n =>
      if decide (0 ≤ n) then take (Z.to_nat n) l
      else take (length l - Z.to_nat (- n)) l
  end.

(** [ak.pad_none(array, w, clip=True)] on one event: the first [w]
    elements, then [None] up to width [w]. *)
Definition ak_pad_none (w : nat) (ev : list Qc) : list (option Qc) :=
  take w (Some <$> ev) ++ replicate (w - length ev) None.

(** [ak.fill_none(array, v)] on one event. *)
Definition ak_fill_none (v : Qc) (ev : list (option Qc)) : list Qc :=
  default v <$> ev.

(** Whether an entry is [None]. *)
Definition is_missing (o : option Qc) : bool :=
  match o with None => true | Some _ => false end.

(** The mask numpy keeps for one event of a masked array: true
    exactly at the [None] entries (numpy's convention: a true entry is
    a masked, that is invalid, one). *)
Definition ma_mask (ev : list (option Qc)) : list bool := is_missing <$> ev.

(** The [.mask] attribute of a numpy masked array: a boolean array of
    the shape of the data, or [nomask], a zero-dimensional [False],
    when the array was built without a mask. *)
Inductive ma_mask_value : Type :=
| MaskArray (a : ndarray bool)
| NoMask.

(** [ak.to_numpy(padded).mask] for events padded to width [w].
    [ak.to_numpy] hands numpy a mask only when some entry is [None];
    when none is, it builds the masked array from the data alone and
    [.mask] is [nomask]. *)
Definition to_numpy_mask (w : nat) (padded : list (list (option Qc)))
  : ma_mask_value :=
  if existsb (existsb is_missing) padded
  then MaskArray (NDArray ((λ ev, Ar (Sc <$> ma_mask ev)) <$> padded) [w])
  else NoMask.

(** [np.stack(masks, axis=1)] on [.mask] values: a zero-dimensional
    [nomask] has no axis 1 and not the shape of an array, so the stack
    needs every value to be an array. *)
Definition np_stack_masks (masks : list ma_mask_value) : result (ndarray bool) :=
  match mapM (λ v, match v with MaskArray a => Some a | NoMask => None end)
             masks with
  | Some arrs => np_stack_axis1 arrs
  | None => Raise NumpyValueError
  end.

(** ** The class *)

Inductive tensor : Type :=
| Float (a : ndarray Qc)
| Bool (a : ndarray bool).


Record PointCloudDataset : Type := {
  class_labels : pydict Z (list string);
  label_map : pydict string Z;
  feature_dict : pydict string (list string);
  sample_sizes : gmap string Z;
  num_jets : nat;
  pad_size : nat;
  shuffle : bool;
  seed : Z;
  _features : option (pydict string tensor);
  _labels : option (ndarray Z);
  _weights : option (ndarray Qc);
  cache_arrays : option akarray;
  cache_sample_arrays : option akarray
}.

(** The [filenames] argument of [__init__] and [load]: a string, a
    dictionary from sample name to path, or anything else. *)
Inductive filenames_arg : Type :=
| FStr (path : string)
| FDict (paths : gmap string string)
| FOther.

(** The world outside the object: the parquet files on disk and the
    permutation [np.random.shuffle] produces for a seed and a length. *)
Record environment : Type := {
  disk : gmap string akarray;
  np_random_shuffle : Z → nat → list nat
}.

Definition DEFAULT_FEATURE_DICT : pydict string (list string) :=
  [ ("part_coords", ["part_delta_eta"; "part_delta_phi"]);
    ("part_features",
      ["part_pt"; "part_delta_eta"; "part_delta_phi"; "part_delta_R"]);
    ("jet_features",
      ["jet_pt"; "jet_eta"; "jet_phi"; "jet_m"; "N"; "tau12"; "tau23"]) ].

(** *** State-and-exception monad over [self] *)

Definition M (A : Type) : Type :=
  PointCloudDataset → PointCloudDataset * result A.

#[global] Instance M_ret : MRet M := λ A a self, (self, Ok a).
#[global] Instance M_bind : MBind M :=
  λ A B f m self,
    match m self with
    | (self', Ok a) => f a self'
    | (self', Raise e) => (self', Raise e)
    end.

Definition lift {A} (r : result A) : M A := λ self, (self, r).
Definition raise {A} (e : exn) : M A := λ self, (self, Raise e).
Definition get_self : M PointCloudDataset := λ self, (self, Ok self).

(** A [for] loop whose body is a method call. *)
Fixpoint for_eachM {A B} (f : A → B → M A) (a : A) (l : list B) : M A :=
  match l with
  | [] => mret a
  | b :: l' => a' ← f a b; for_eachM f a' l'
  end.

(** [self] with the two cache attributes replaced. *)
Definition with_cache (arrays sample_arrays : option akarray)
    (self : PointCloudDataset) : PointCloudDataset :=
  {| class_labels := class_labels self; label_map := label_map self;
     feature_dict := feature_dict self; sample_sizes := sample_sizes self;
     num_jets := num_jets self; pad_size := pad_size self;
     shuffle := shuffle self; seed := seed self;
     _features := _features self; _labels := _labels self;
     _weights := _weights self;
     cache_arrays := arrays;
     cache_sample_arrays := sample_arrays |}.

(** [self.cache_arrays = v] *)
Definition set_cache_arrays (v : option akarray) : M unit := λ self,
  (with_cache v (cache_sample_arrays self) self, Ok ()).

(** [self.cache_sample_arrays = v] *)
Definition set_cache_sample_arrays (v : option akarray) : M unit := λ self,
  (with_cache (cache_arrays self) v self, Ok ()).

(** [self._features = f; self._labels = l; self._weights = w] *)
Definition publish (f : pydict string tensor) (l : ndarray Z) (w : ndarray Qc)
  : M unit := λ self,
  ({| class_labels := class_labels self; label_map := label_map self;
      feature_dict := feature_dict self; sample_sizes := sample_sizes self;
      num_jets := num_jets self; pad_size := pad_size self;
      shuffle := shuffle self; seed := seed self;
      _features := Some f; _labels := Some l; _weights := Some w;
      cache_arrays := cache_arrays self;
      cache_sample_arrays := cache_sample_arrays self |}, Ok ()).

(** What [load] publishes. *)
Definition published (self : PointCloudDataset)
  : option (pydict string tensor) * option (ndarray Z) * option (ndarray Qc) :=
  (_features self, _labels self, _weights self).

(** *** set_class_labels (l.45-54) *)

Definition add_labels (class_value : Z) (label_map : pydict string Z)
    (label : string) : result (pydict string Z) :=
  if dict_in label label_map then Raise (LabelInMultipleClasses label)
  else Ok (dict_set label class_value label_map).

Definition build_label_map (class_labels : pydict Z (list string))
  : result (pydict string Z) :=
  for_each (λ label_map '(class_value, labels),
              for_each (add_labels class_value) label_map labels)
           [] class_labels.

(** *** Static helpers (l.56-77) *)

Definition is_ragged (array : akarray) : bool :=
  match array with AkList _ => true | _ => false end.

(** [get_padded_array] on a list-valued column, [clip] left at its
    default [True] as at every call in the module. *)
Definition get_padded_array (array : list (list Qc)) (pad_size : nat)
    (pad_val : Qc) (sample_size : option Z) : ndarray Qc :=
  NDArray ((λ ev, Ar (Sc <$> ak_fill_none pad_val (ak_pad_none pad_size ev)))
             <$> slice_to sample_size array)
          [pad_size].

(** [get_array] on a flat column. *)
Definition get_array (array : list Qc) (sample_size : option Z) : ndarray Qc :=
  array1 (slice_to sample_size array).

(** [get_mask_array] on a list-valued column, [clip] left at its
    default [True]. *)
Definition get_mask_array (array : list (list Qc)) (pad_size : nat)
    (sample_size : option Z) : ma_mask_value :=
  to_numpy_mask pad_size (ak_pad_none pad_size <$> slice_to sample_size array).

(** *** _load_sample_data (l.79-97) and clear_cache (l.99-101) *)

Definition _load_file (env : environment) (filename : string) : result akarray :=
  match disk env !! filename with
  | Some a => Ok a
  | None => Raise (FileNotFoundError filename)
  end.

Definition _load_sample_data (env : environment) (filenames : filenames_arg)
    (sample : string) : M unit :=
  match filenames with
  | FStr path =>
      self ← get_self;
      match cache_arrays self with
      | Some cached =>
          if bool_decide (sample ∈ ak_fields cached) then mret ()
          else raise (SampleNotInDataset sample)
      | None =>
          file ← lift (_load_file env path);
          set_cache_arrays (Some file);;
          sub ← lift (ak_getitem file sample);
          set_cache_sample_arrays (Some sub)
      end
  | FDict paths =>
      match paths !! sample with
      | None => raise (NoInputFile sample)
      | Some path =>
          file ← lift (_load_file env path);
          set_cache_arrays (Some file);;
          set_cache_sample_arrays (Some file)
      end
  | FOther => raise BadFilenames
  end.

Definition clear_cache : M unit :=
  set_cache_arrays None;; set_cache_sample_arrays None.

(** *** load (l.103-205) *)

(** The local variables of [load] that live across the sample loop. *)
Record locals : Type := Locals {
  features : pydict string (list (ndarray Qc));
  labels : list (list Z);
  masks : list (ndarray bool);
  class_sizes : pydict Z Z
}.

(** l.119-125: the number of events to take from a sample. *)
Definition resolve_sample_size (self : PointCloudDataset) (sample : string)
    (sample_arrays : akarray) : result Z :=
  let sample_size := ak_len sample_arrays in
  match sample_sizes self !! sample with
  | Some sample_size_ =>
      if decide (sample_size > sample_size_) then
        Raise (TooManyRequested sample sample_size_ sample_size)
      else Ok sample_size_
  | None => Ok sample_size
  end.

(** l.144-156: one column of one jet.  The state is
    [(feature_arrays, mask_array)].  A column that is a record is
    neither padded nor a numeric array; the embedding stops there. *)
Definition load_column (self : PointCloudDataset) (sample_arrays : akarray)
    (jet_key : string) (sample_size : Z)
    (st : list (ndarray Qc) * option ma_mask_value) (column : string)
  : result (list (ndarray Qc) * option ma_mask_value) :=
  let '(feature_arrays, mask_array) := st in
  jet ← ak_getitem sample_arrays jet_key;
  arrays ← ak_getitem jet column;
  if is_ragged arrays then
    match arrays with
    | AkList xss =>
        let mask_array :=
          match mask_array with
          | None => Some (get_mask_array xss (pad_size self) (Some sample_size))
          | Some m => Some m
          end in
        Ok (feature_arrays
              ++ [get_padded_array xss (pad_size self) 0%Qc (Some sample_size)],
            mask_array)
    | _ => Raise TypeError
    end
  else
    match arrays with
    | AkNumpy xs =>
        Ok (feature_arrays ++ [get_array xs (Some sample_size)], mask_array)
    | _ => Raise ToNumpyError
    end.

(** l.139-161: one jet of one feature type.  The state is
    [(jet_feature_arrays, jet_mask_arrays)]. *)
Definition load_jet (self : PointCloudDataset) (sample_arrays : akarray)
    (columns : list string) (sample_size : Z)
    (st : list (ndarray Qc) * list ma_mask_value) (i : nat)
  : result (list (ndarray Qc) * list ma_mask_value) :=
  let '(jet_feature_arrays, jet_mask_arrays) := st in
  let jet_key := "j" +:+ pretty i in
  '(feature_arrays, mask_array) ←
    for_each (load_column self sample_arrays jet_key sample_size)
             ([], None) columns;
  feature_arrays ← np_stack_last feature_arrays;
  let jet_mask_arrays :=
    match mask_array with
    | Some m => jet_mask_arrays ++ [m]
    | None => jet_mask_arrays
    end in
  Ok (jet_feature_arrays ++ [feature_arrays], jet_mask_arrays).

(** [features[feature_type].append(x)] *)
Definition dict_append {V} (k : string) (x : V) (d : pydict string (list V))
  : pydict string (list V) :=
  dict_set k (default [] (dict_get k d) ++ [x]) d.

(** l.132-166: one feature type of one sample.  The state is
    [(features, mask_arrays)]. *)
Definition load_feature_type (self : PointCloudDataset) (sample_arrays : akarray)
    (sample_size : Z)
    (st : pydict string (list (ndarray Qc)) * option (ndarray bool))
    (entry : string * list string)
  : result (pydict string (list (ndarray Qc)) * option (ndarray bool)) :=
  let '(features, mask_arrays) := st in
  let '(feature_type, columns) := entry in
  let features :=
    if dict_in feature_type features then features
    else dict_set feature_type [] features in
  '(jet_feature_arrays, jet_mask_arrays) ←
    for_each (load_jet self sample_arrays columns sample_size)
             ([], []) (seq 1 (num_jets self));
  jet_feature_arrays ← np_stack_axis1 jet_feature_arrays;
  let features := dict_append feature_type jet_feature_arrays features in
  match jet_mask_arrays with
  | [] => Ok (features, mask_arrays)
  | _ => m ← np_stack_masks jet_mask_arrays; Ok (features, Some m)
  end.

(** l.117-168: the body of the sample loop once the sample's record
    is at hand. *)
Definition prepare_sample (self : PointCloudDataset) (sample : string)
    (class_val : Z) (sample_arrays : akarray) (loc : locals) : result locals :=
  sample_size ← resolve_sample_size self sample sample_arrays;
  label ← np_full sample_size class_val;
  let labels := labels loc ++ [label] in
  let class_sizes :=
    dict_set class_val
      (default 0 (dict_get class_val (class_sizes loc)) + sample_size)
      (class_sizes loc) in
  '(features, mask_arrays) ←
    for_each (load_feature_type self sample_arrays sample_size)
             (features loc, None) (feature_dict self);
  let masks :=
    match mask_arrays with
    | Some m => masks loc ++ [m]
    | None => masks loc
    end in
  Ok (Locals features labels masks class_sizes).

(** l.112-168: one round of the sample loop. *)
Definition process_sample (env : environment) (filenames : filenames_arg)
    (loc : locals) (sample : string) : M locals :=
  self ← get_self;
  match dict_get sample (label_map self) with
  | None => raise (NoClassValue sample)
  | Some class_val =>
      _load_sample_data env filenames sample;;
      self ← get_self;
      match cache_sample_arrays self with
      | None => raise TypeError
      | Some sample_arrays =>
          lift (prepare_sample self sample class_val sample_arrays loc)
      end
  end.

(** l.170-173: every feature type's list of per-sample tensors is
    joined along the event axis; [sizes] collects the event counts. *)
Definition concatenate_features (features : pydict string (list (ndarray Qc)))
  : result (pydict string (ndarray Qc) * list nat) :=
  for_each (λ '(out, sizes) '(feature_type, arrs),
              a ← np_concatenate arrs;
              Ok (out ++ [(feature_type, a)], sizes ++ [axis0 a]))
           ([], []) features.

(** An [int] used as a [float]. *)
Definition of_int (z : Z) : Qc := Q2Qc (inject_Z z).

(** l.196-199: [np.ones], then one division per class. *)
Definition divide_where (labels : list Z) (class_val size : Z)
    (weights : list Qc) : list Qc :=
  zip_with (λ l w, if decide (l = class_val) then (w / of_int size)%Qc else w)
           labels weights.

Definition class_weights (labels : list Z) (class_sizes : pydict Z Z)
  : list Qc :=
  foldl (λ weights '(class_val, size), divide_where labels class_val size weights)
        (replicate (length labels) 1%Qc) class_sizes.

(** l.184-193: the shuffle branch.  [weights] is a local variable of
    [load] (it is assigned at l.196), so reading it at l.191 before
    that assignment raises. *)
Definition shuffle_events (env : environment) (self : PointCloudDataset)
    (size0 : nat) (features : pydict string (ndarray Qc)) (labels : list Z)
    (masks : option (ndarray bool))
  : result (pydict string (ndarray Qc) * list Z * option (ndarray bool)) :=
  let index := np_random_shuffle env (seed self) size0 in
  features ←
    for_each (λ out '(feature_type, a),
                a' ← take_rows a index; Ok (out ++ [(feature_type, a')]))
             [] features;
  labels ← gather labels index;
  weights ← (Raise (UnboundLocalError "weights") : result (list Qc));
  weights ← gather weights index;
  masks ←
    match masks with
    | Some m => m' ← take_rows m index; Ok (Some m')
    | None => Ok None
    end;
  Ok (features, labels, masks).

(** l.169-201: everything between the sample loop and the
    assignments to [self]. *)
Definition combine (env : environment) (self : PointCloudDataset)
    (loc : locals)
  : result (pydict string tensor * ndarray Z * ndarray Qc) :=
  '(features, sizes) ← concatenate_features (features loc);
  labels ← np_concatenate1 (labels loc);
  if negb (bool_decide (size (list_to_set sizes : gset nat) = 1%nat)) then
    Raise InconsistentFeatureSizes
  else
  match sizes with
  | [] => Raise IndexError
  | size0 :: _ =>
      if negb (bool_decide (size0 = length labels)) then
        Raise InconsistentFeatureLabelSizes
      else
      masks ←
        match masks loc with
        | [] => Ok None
        | _ =>
            m ← np_concatenate (masks loc);
            if bool_decide (axis0 m = size0) then Ok (Some m)
            else Raise AssertionError
        end;
      '(features, labels, masks) ←
        (if shuffle self
         then shuffle_events env self size0 features labels masks
         else Ok (features, labels, masks));
      let features : pydict string tensor := prod_map id Float <$> features in
      let features :=
        match masks with
        | Some m => dict_set "part_masks" (Bool m) features
        | None => features
        end in
      let weights := class_weights labels (class_sizes loc) in
      Ok (features, np_expand_dims_last labels, np_expand_dims_last weights)
  end.

Definition load (env : environment) (filenames : filenames_arg)
    (samples : option (list string)) : M unit :=
  clear_cache;;
  self ← get_self;
  let samples := default (dict_keys (label_map self)) samples in
  loc ← for_eachM (process_sample env filenames) (Locals [] [] [] []) samples;
  self ← get_self;
  '(features, labels, weights) ← lift (combine env self loc);
  publish features labels weights;;
  clear_cache.

(** *** __init__ (l.20-40) *)

(** l.31-39: the attributes [__init__] assigns before it calls
    [load].  [combine_dict] copies its argument; [None] stands for the
    empty dictionary. *)
Definition init_attributes (label_map : pydict string Z)
    (feature_dict : pydict string (list string))
    (class_labels : pydict Z (list string))
    (sample_sizes : option (gmap string Z))
    (num_jets pad_size : nat) (shuffle : bool) (seed : Z)
  : PointCloudDataset :=
  {| class_labels := class_labels; label_map := label_map;
     feature_dict := feature_dict;
     sample_sizes := default ∅ sample_sizes;
     num_jets := num_jets; pad_size := pad_size;
     shuffle := shuffle; seed := seed;
     _features := Some []; _labels := None; _weights := None;
     cache_arrays := None; cache_sample_arrays := None |}.

Definition __init__ (env : environment) (filenames : filenames_arg)
    (feature_dict : pydict string (list string))
    (class_labels : pydict Z (list string))
    (samples : option (list string))
    (sample_sizes : option (gmap string Z))
    (num_jets pad_size : nat) (shuffle : bool) (seed : Z)
  : result PointCloudDataset :=
  label_map ← build_label_map class_labels;
  let self :=
    init_attributes label_map feature_dict class_labels sample_sizes
                    num_jets pad_size shuffle seed in
  match load env filenames samples self with
  | (self', Ok _) => Ok self'
  | (_, Raise e) => Raise e
  end.

(** *** The sample loop without the cache

    The definitions of this part are not in the source: they say
    which record each round of the sample loop works on, so that the
    loop can be compared with them. *)

(** The record a round of the sample loop prepares for [sample], when
    [load] was called with the sample list [samples]:
    - with a dictionary of paths, the file of [sample];
    - with the path of one combined file, the sub-record of the FIRST
      sample of the list, whichever sample the round is for. *)
Definition record_used (env : environment) (filenames : filenames_arg)
    (samples : list string) (sample : string) : result akarray :=
  match filenames with
  | FStr path =>
      file ← _load_file env path;
      first ← ak_getitem file (default sample (head samples));
      if bool_decide (sample ∈ ak_fields file) then Ok first
      else Raise (SampleNotInDataset sample)
  | FDict paths =>
      match paths !! sample with
      | None => Raise (NoInputFile sample)
      | Some path => _load_file env path
      end
  | FOther => Raise BadFilenames
  end.

Definition process_record (env : environment) (filenames : filenames_arg)
    (samples : list string) (self : PointCloudDataset)
    (loc : locals) (sample : string) : result locals :=
  match dict_get sample (label_map self) with
  | None => Raise (NoClassValue sample)
  | Some class_val =>
      sample_arrays ← record_used env filenames samples sample;
      prepare_sample self sample class_val sample_arrays loc
  end.

(** What [load] computes, as a function of the configuration and the
    files. *)
Definition load_result (env : environment) (filenames : filenames_arg)
    (samples : option (list string)) (self : PointCloudDataset)
  : result (pydict string tensor * ndarray Z * ndarray Qc) :=
  let samples := default (dict_keys (label_map self)) samples in
  loc ← for_each (process_record env filenames samples self)
                 (Locals [] [] [] []) samples;
  combine env self loc.

(** The sample loop as it behaves on one combined file: every round
    prepares [first], the sub-record of the first sample, and looks at
    the combined file only for the names of its fields. *)
Definition process_from_first (self : PointCloudDataset) (fields : list string)
    (first : akarray) (loc : locals) (sample : string) : result locals :=
  match dict_get sample (label_map self) with
  | None => Raise (NoClassValue sample)
  | Some class_val =>
      if bool_decide (sample ∈ fields)
      then prepare_sample self sample class_val first loc
      else Raise (SampleNotInDataset sample)
  end.

(** The same configuration with another value of [shuffle]. *)
Definition with_shuffle (b : bool) (self : PointCloudDataset)
  : PointCloudDataset :=
  {| class_labels := class_labels self; label_map := label_map self;
     feature_dict := feature_dict self; sample_sizes := sample_sizes self;
     num_jets := num_jets self; pad_size := pad_size self;
     shuffle := b; seed := seed self;
     _features := _features self; _labels := _labels self;
     _weights := _weights self;
     cache_arrays := cache_arrays self;
     cache_sample_arrays := cache_sample_arrays self |}.

(** [np.random.shuffle] leaves a list of valid indices. *)
Definition shuffle_in_range (env : environment) : Prop :=
  ∀ seed n, Forall (λ i, (i < n)%nat) (np_random_shuffle env seed n).

(** A column that is present in a jet record and is flat or
    list-valued. *)
Definition column_loads(jet : akarray) (column : string) : bool :=
  match ak_getitem jet column with
  | Ok (AkNumpy _) | Ok (AkList _) => true
  | _ => false
  end.




(** Whether [column] of jet [i] of a sample record is list-valued. *)
Definition column_is_ragged (sample_arrays : akarray) (i : nat)
    (column : string) : bool :=
  match (jet ← ak_getitem sample_arrays ("j" +:+ pretty i);
         ak_getitem jet column) with
  | Ok (AkList _) => true
  | _ => false
  end.

(** Whether some configured feature group has a list-valued column in
    some jet of a sample record. *)
Definition has_ragged_column (self : PointCloudDataset)
    (sample_arrays : akarray) : bool :=
  existsb (λ '(_, columns),
             existsb (λ i, existsb (column_is_ragged sample_arrays i) columns)
                     (seq 1 (num_jets self)))
          (feature_dict self).

(** *** The loops of [load], one result at a time

    The three inner loops of [load] append to lists and overwrite a
    mask variable.  The definitions below give what one round
    contributes; the properties part shows that the loops of the
    source are folds over these contributions. *)

(** l.146-155: the array of one column, and its mask when the column
    is list-valued. *)
Definition column_arrays (self : PointCloudDataset) (sample_arrays : akarray)
    (jet_key : string) (sample_size : Z) (column : string)
  : result (ndarray Qc * option ma_mask_value) :=
  jet ← ak_getitem sample_arrays jet_key;
  arrays ← ak_getitem jet column;
  match arrays with
  | AkList xss =>
      Ok (get_padded_array xss (pad_size self) 0%Qc (Some sample_size),
          Some (get_mask_array xss (pad_size self) (Some sample_size)))
  | AkNumpy xs => Ok (get_array xs (Some sample_size), None)
  | AkRecord _ _ => Raise ToNumpyError
  end.

(** [a] unless it is [None]. *)
Definition first_some {A} (a b : option A) : option A :=
  match a with Some _ => a | None => b end.

(** l.140-158: the stacked columns of one jet, and the mask of its
    first list-valued column. *)
Definition jet_arrays (self : PointCloudDataset) (sample_arrays : akarray)
    (columns : list string) (sample_size : Z) (i : nat)
  : result (ndarray Qc * option ma_mask_value) :=
  '(feature_arrays, mask_array) ←
    for_each (load_column self sample_arrays ("j" +:+ pretty i) sample_size)
             ([], None) columns;
  feature_arrays ← np_stack_last feature_arrays;
  Ok (feature_arrays, mask_array).

(** l.137-166: the tensor of one feature type, and the stacked masks
    of its jets when there are any. *)
Definition group_arrays (self : PointCloudDataset) (sample_arrays : akarray)
    (sample_size : Z) (columns : list string)
  : result (ndarray Qc * option (ndarray bool)) :=
  '(jet_feature_arrays, jet_mask_arrays) ←
    for_each (load_jet self sample_arrays columns sample_size)
             ([], []) (seq 1 (num_jets self));
  jet_feature_arrays ← np_stack_axis1 jet_feature_arrays;
  match jet_mask_arrays with
  | [] => Ok (jet_feature_arrays, None)
  | _ => m ← np_stack_masks jet_mask_arrays; Ok (jet_feature_arrays, Some m)
  end.

(** *** Bookkeeping across samples

    What the sample loop has gathered after some samples, seen sample
    by sample: a [view] lists, for every sample processed, the tensors
    of its feature types in the order of [feature_dict], and its mask
    if it has one. *)

(** [features[g].append(t)] for every pair [(g, t)], creating the
    entry of [g] first if need be (l.134-135, l.164). *)
Definition append_all (d : pydict string (list (ndarray Qc)))
    (gts : list (string * ndarray Qc)) : pydict string (list (ndarray Qc)) :=
  foldl (λ d gt, dict_append gt.1 gt.2
                   (if dict_in gt.1 d then d else dict_set gt.1 [] d))
        d gts.


(** The feature dictionary of [load] for a view: one entry per key,
    holding the tensors of that feature type, sample by sample. *)
Definition table (keys : list string)
    (view : list (list (ndarray Qc) * option (ndarray bool)))
  : pydict string (list (ndarray Qc)) :=
  match view with
  | [] => []
  | _ => zip keys (transpose (length keys) view.*1)
  end.



(** *** Accessors (l.42-43, l.207-227) *)

Definition __len__ (self : PointCloudDataset) : result nat :=
  match _labels self with
  | Some l => Ok (axis0 l)
  | None => Raise (AttributeError "shape")
  end.

Definition X (self : PointCloudDataset) : option (pydict string tensor) :=
  _features self.

Definition y (self : PointCloudDataset) : option (ndarray Z) := _labels self.

Definition weight (self : PointCloudDataset) : option (ndarray Qc) :=
  _weights self.

(** The value of an attribute, as far as [masks] looks at it. *)
Inductive pyvalue : Type :=
| VDict (d : pydict string tensor)
| VNone
| VOther.

(** The names bound on an instance by the assignments to [self.<name>]
    in the class body, and the names the class body defines. *)
Definition instance_attributes : list string :=
  [ "class_labels"; "label_map"; "feature_dict"; "sample_sizes"; "num_jets";
    "pad_size"; "shuffle"; "seed"; "_features"; "_labels"; "_weights";
    "cache_arrays"; "cache_sample_arrays"; "_masks" ].

Definition class_attributes : list string :=
  [ "DEFAULT_FEATURE_DICT"; "__init__"; "__len__"; "set_class_labels";
    "is_ragged"; "get_padded_array"; "get_array"; "get_mask_array";
    "_load_sample_data"; "clear_cache"; "load"; "X"; "y"; "weight"; "masks";
    "clear" ].

Section attribute_lookup.
(** Attributes inherited from the base class [AbstractObject], which
    belongs to another package. *)
Variable base_getattr : string → option pyvalue.

(** [self.<name>]: the instance and the class first, then the base
    class; neither class defines [__getattr__]. *)
Definition getattr (self : PointCloudDataset) (name : string)
  : result pyvalue :=
  if decide (name = "_features") then
    Ok (match _features self with Some d => VDict d | None => VNone end)
  else if decide (name = "X") then
    Ok (match X self with Some d => VDict d | None => VNone end)
  else if bool_decide (name ∈ instance_attributes ++ class_attributes) then
    Ok VOther
  else
    match base_getattr name with
    | Some v => Ok v
    | None => Raise (AttributeError name)
    end.

(** The [masks] property (l.219-221):
    [return self.features.get('part_masks', None)]. *)
Definition masks_property (self : PointCloudDataset) : result (option tensor) :=
  features ← getattr self "features";
  match features with
  | VDict d => Ok (dict_get "part_masks" d)
  | _ => Raise (AttributeError "get")
  end.
End attribute_lookup.

(** [clear] (l.223-227); the fresh attribute [_masks] is not part of
    the record. *)
Definition clear (self : PointCloudDataset) : PointCloudDataset :=
  {| class_labels := class_labels self; label_map := label_map self;
     feature_dict := feature_dict self; sample_sizes := sample_sizes self;
     num_jets := num_jets self; pad_size := pad_size self;
     shuffle := shuffle self; seed := seed self;
     _features := None; _labels := None; _weights := None;
     cache_arrays := cache_arrays self;
     cache_sample_arrays := cache_sample_arrays self |}.

(** *** Further notions the properties are stated with

    None of these is in the source. *)

(** The pairs [(label, class value)] in the order in which the two
    loops of [set_class_labels] (l.48-52) visit them. *)
Definition label_pairs (class_labels : pydict Z (list string))
  : list (string * Z) :=
  class_labels ≫= λ '(class_value, labels),
    (λ label, (label, class_value)) <$> labels.

(** The attributes [__init__] sets from its arguments and no method
    assigns afterwards. *)
Definition configuration (self : PointCloudDataset) :=
  (class_labels self, label_map self, feature_dict self, sample_sizes self,
   num_jets self, pad_size self, shuffle self, seed self).

(** [self] with the three published attributes replaced. *)
Definition with_published
    (p : option (pydict string tensor) * option (ndarray Z)
         * option (ndarray Qc))
    (self : PointCloudDataset) : PointCloudDataset :=
  {| class_labels := class_labels self; label_map := label_map self;
     feature_dict := feature_dict self; sample_sizes := sample_sizes self;
     num_jets := num_jets self; pad_size := pad_size self;
     shuffle := shuffle self; seed := seed self;
     _features := p.1.1; _labels := p.1.2; _weights := p.2;
     cache_arrays := cache_arrays self;
     cache_sample_arrays := cache_sample_arrays self |}.

(** What one round of the sample loop works out for a sample: the
    number of labels it makes (l.119-127), the class value of the
    sample, and for every feature type its tensor and its mask
    (l.132-166). *)
Record round : Type := Round {
  round_size : nat;
  round_class : Z;
  round_groups : list (ndarray Qc * option (ndarray bool))
}.

(** The round of [sample] when [load] was called with the sample list
    [samples]: what the body of the sample loop works out, in the
    order in which it does, before anything is added to the local
    variables of [load].  It raises what the round raises. *)
Definition sample_round (env : environment) (filenames : filenames_arg)
    (samples : list string) (self : PointCloudDataset) (sample : string)
  : result round :=
  match dict_get sample (label_map self) with
  | None => Raise (NoClassValue sample)
  | Some class_val =>
      sample_arrays ← record_used env filenames samples sample;
      sample_size ← resolve_sample_size self sample sample_arrays;
      label ← np_full sample_size class_val;
      groups ← mapM (λ entry : string * list string,
                       group_arrays self sample_arrays sample_size entry.2)
                    (feature_dict self);
      Ok (Round (length label) class_val groups)
  end.

(** The labels a round appends (l.127). *)
Definition round_labels (r : round) : list Z :=
  replicate (round_size r) (round_class r).

(** The mask a round is left with (l.130, l.165-168): that of the last
    feature type that has one. *)
Definition round_mask (r : round) : option (ndarray bool) :=
  foldl (λ ma mo, first_some mo ma) None (round_groups r).*2.

(** The local variables of [load] after one more round. *)
Definition add_round (self : PointCloudDataset) (loc : locals) (r : round)
  : locals :=
  Locals (append_all (features loc)
            (zip (dict_keys (feature_dict self)) (round_groups r).*1))
         (labels loc ++ [round_labels r])
         (match round_mask r with
          | Some m => masks loc ++ [m]
          | None => masks loc
          end)
         (dict_set (round_class r)
            (default 0 (dict_get (round_class r) (class_sizes loc))
             + Z.of_nat (round_size r))
            (class_sizes loc)).

(** The tensors and the mask of a round, as [loop_inv] views them. *)
Definition round_view (r : round) : list (ndarray Qc) * option (ndarray bool) :=
  ((round_groups r).*1, round_mask r).

(** The tensor of the feature type in place [p] of [feature_dict],
    round by round. *)
Definition round_tensors (p : nat) (rounds : list round) : list (ndarray Qc) :=
  omap (λ r, fst <$> round_groups r !! p) rounds.

(** The sub-arrays of a record array. *)
Definition ak_contents (a : akarray) : list akarray :=
  match a with
  | AkRecord _ fs => fs.*2
  | _ => []
  end.

(** Whether every column of every jet record of a sample record has
    as many events as the sample record, as the fields of a record
    array read from a file have. *)
Definition columns_aligned (sample_arrays : akarray) : bool :=
  forallb (λ jet,
             forallb (λ column,
                        bool_decide (ak_len column = ak_len sample_arrays))
                     (ak_contents jet))
          (ak_contents sample_arrays).

(** [a[i, k]] on an array with two axes, and [a[i, j, k, c]] on an
    array with four. *)
Definition at2 {A} (a : ndarray A) (i k : nat) : option A :=
  x ← rows a !! i; y ← nd_get x k; nd_item y.

Definition at4 {A} (a : ndarray A) (i j k c : nat) : option A :=
  x ← rows a !! i; y ← nd_get x j; z ← nd_get y k; w ← nd_get z c; nd_item w.

(** ** Example inputs *)

Module Examples.

Definition floats (l : list Z) : list Qc := of_int <$> l.

(** A jet record with one list-valued column [pt] and one flat
    column [m], three events. *)
Definition jet3 : akarray :=
  AkRecord 3
    [ ("pt", AkList (floats <$> [[1; 2; 3]; [4]; []]));
      ("m", AkNumpy (floats [7; 8; 9])) ].

(** A sample of three events with two jets. *)
Definition sample3 : akarray := AkRecord 3 [("j1", jet3); ("j2", jet3)].

(** A sample of two events with two jets. *)
Definition jet2 : akarray :=
  AkRecord 2
    [ ("pt", AkList (floats <$> [[5]; [1; 1; 1]]));
      ("m", AkNumpy (floats [3; 4])) ].
Definition sample2 : akarray := AkRecord 2 [("j1", jet2); ("j2", jet2)].

(** Another sample of three events. *)
Definition jet3' : akarray :=
  AkRecord 3
    [ ("pt", AkList (floats <$> [[9; 9; 9]; [8]; [7; 7; 7]]));
      ("m", AkNumpy (floats [1; 2; 3])) ].
Definition sample3' : akarray := AkRecord 3 [("j1", jet3'); ("j2", jet3')].

(** Three files: one per sample, and one that holds two samples of
    three events each as sub-records. *)
Definition env : environment :=
  {| disk := {[ "sig.parquet" := sample3; "bkg.parquet" := sample2;
                "all.parquet" :=
                  AkRecord 3 [("sig", sample3); ("bkg", sample3')] ]};
     np_random_shuffle := λ _ n, reverse (seq 0 n) |}.

Definition per_sample_files : filenames_arg :=
  FDict {[ "sig" := "sig.parquet"; "bkg" := "bkg.parquet" ]}.

Definition one_file : filenames_arg := FStr "all.parquet".

Definition class_labels : pydict Z (list string) :=
  [ (1, ["sig"]); (0, ["bkg"]) ].

Definition pt_only : pydict string (list string) := [("part_features", ["pt"])].

Definition label_map : pydict string Z := [("sig", 1); ("bkg", 0)].

(** The object as [__init__] leaves it before it calls [load], for
    two jets and a pad size of two. *)
Definition fresh (sample_sizes : option (gmap string Z)) (shuffle : bool)
  : PointCloudDataset :=
  init_attributes label_map pt_only class_labels sample_sizes 2 2 shuffle 2023.

(** The object after a successful [load] of the two per-sample files. *)
Definition loaded : PointCloudDataset :=
  (load env per_sample_files None (fresh None false)).1.

(** A configuration that asks for a column [eta] no jet record has. *)
Definition pt_eta : pydict string (list string) :=
  [("part_features", ["pt"; "eta"])].

Definition fresh_pt_eta : PointCloudDataset :=
  init_attributes label_map pt_eta class_labels None 2 2 false 2023.

(** The combined file with the record of [sig] in the place of the
    record of [bkg]. *)
Definition env_sig_twice : environment :=
  {| disk := {[ "all.parquet" :=
                  AkRecord 3 [("sig", sample3); ("bkg", sample3)] ]};
     np_random_shuffle := λ _ n, reverse (seq 0 n) |}.

(** A configuration with a feature group of flat columns that is
    itself named [part_masks]. *)
Definition with_group_part_masks : pydict string (list string) :=
  [("part_masks", ["m"]); ("part_features", ["pt"])].

Definition fresh_with_group_part_masks : PointCloudDataset :=
  init_attributes label_map with_group_part_masks class_labels None 2 2
                  false 2023.

(** A configuration with a sample [other] that no file holds. *)
Definition fresh_sig_other : PointCloudDataset :=
  init_attributes [("sig", 1); ("other", 0)] pt_only
                  [(1, ["sig"]); (0, ["other"])] None 2 2 false 2023.

(** A sample of two events whose jets have two list-valued columns
    with events of different lengths, and a configuration with one
    feature type for each. *)
Definition jet_two_lists : akarray :=
  AkRecord 2
    [ ("pt", AkList (floats <$> [[1; 2]; [3]]));
      ("dz", AkList (floats <$> [[5]; []])) ].

Definition sample_two_lists : akarray :=
  AkRecord 2 [("j1", jet_two_lists); ("j2", jet_two_lists)].

Definition two_padded_groups : pydict string (list string) :=
  [("part_features", ["pt"]); ("part_tracks", ["dz"])].

Definition fresh_two_padded_groups : PointCloudDataset :=
  init_attributes label_map two_padded_groups class_labels None 2 2 false 2023.

(** A base class that provides logging only. *)
Definition logging_only (name : string) : option pyvalue :=
  if bool_decide (name ∈ ["stdout"; "_stdout"; "debug_mode"; "set_verbosity"])
  then Some VOther else None.

End Examples.

(** * Properties *)

(** ** The shape of [load] *)

(** [load] clears the cache, runs the sample loop, combines, and only
    then assigns the three published attributes and clears the cache
    again. *)
Lemma load_unfold env filenames samples self :
  load env filenames samples self =
    match for_eachM (process_sample env filenames) (Locals [] [] [] [])
            (default (dict_keys (label_map self)) samples)
            (with_cache None None self) with
    | (self1, Raise e) => (self1, Raise e)
    | (self1, Ok loc) =>
        match combine env self1 loc with
        | Raise e => (self1, Raise e)
        | Ok (f, l, w) =>
            (with_cache None None (publish f l w self1).1, Ok ())
        end
    end.
Proof.
  unfold load, clear_cache, mbind, M_bind, get_self, lift; simpl.
  destruct (for_eachM _ _ _ _) as [self1 [loc|e]]; [|done].
  destruct (combine env self1 loc) as [[[f l] w]|e]; done.
Qed.

Lemma with_cache_id self :
  with_cache (cache_arrays self) (cache_sample_arrays self) self = self.
Proof. by destruct self. Qed.

(** Nothing in the sample loop touches an attribute other than the
    two cache attributes. *)
Lemma _load_sample_data_state env filenames sample self :
  ∃ a b, (_load_sample_data env filenames sample self).1 = with_cache a b self.
Proof.
  destruct filenames as [path|paths|]; simpl.
  - unfold mbind, M_bind, get_self, lift, raise, mret, M_ret; simpl.
    destruct (cache_arrays self) as [cached|] eqn:Hc.
    + case_bool_decide; simpl;
        exists (cache_arrays self), (cache_sample_arrays self);
        by rewrite with_cache_id.
    + destruct (_load_file env path) as [file|e]; simpl.
      * destruct (ak_getitem file sample) as [sub|e]; simpl; eauto.
      * exists (cache_arrays self), (cache_sample_arrays self).
        by rewrite with_cache_id.
  - destruct (paths !! sample) as [path|]; simpl.
    + unfold mbind, M_bind, lift; simpl.
      destruct (_load_file env path) as [file|e]; simpl; [eauto|].
      exists (cache_arrays self), (cache_sample_arrays self).
      by rewrite with_cache_id.
    + exists (cache_arrays self), (cache_sample_arrays self).
      by rewrite with_cache_id.
  - exists (cache_arrays self), (cache_sample_arrays self).
    by rewrite with_cache_id.
Qed.

Lemma process_sample_state env filenames loc sample self :
  ∃ a b, (process_sample env filenames loc sample self).1 = with_cache a b self.
Proof.
  unfold process_sample, mbind, M_bind, get_self, raise, lift; simpl.
  destruct (dict_get sample (label_map self)) as [class_val|]; simpl.
  - destruct (_load_sample_data_state env filenames sample self) as (a & b & Hs).
    destruct (_load_sample_data env filenames sample self) as [self1 [[]|e]];
      simpl in Hs; subst self1; simpl; [|eauto].
    destruct b; simpl; eauto.
  - exists (cache_arrays self), (cache_sample_arrays self).
    by rewrite with_cache_id.
Qed.

Lemma sample_loop_state env filenames samples loc self :
  ∃ a b,
    (for_eachM (process_sample env filenames) loc samples self).1
    = with_cache a b self.
Proof.
  revert loc self. induction samples as [|sample samples IH]; intros loc self.
  - exists (cache_arrays self), (cache_sample_arrays self).
    by rewrite with_cache_id.
  - simpl. unfold mbind, M_bind.
    destruct (process_sample_state env filenames loc sample self) as (a & b & Hs).
    destruct (process_sample env filenames loc sample self) as [self1 [loc1|e]];
      simpl in Hs; subst self1; [|eauto].
    destruct (IH loc1 (with_cache a b self)) as (a' & b' & Hs').
    rewrite Hs'. eauto.
Qed.

(** ** Failure leaves the published attributes alone *)

Lemma load_raise_published env filenames samples self self' e :
  load env filenames samples self = (self', Raise e) →
  published self' = published self.
Proof.
  rewrite load_unfold.
  destruct (sample_loop_state env filenames
              (default (dict_keys (label_map self)) samples)
              (Locals [] [] [] []) (with_cache None None self)) as (a & b & Hs).
  destruct (for_eachM _ _ _ _) as [self1 [loc|e1]]; simpl in Hs; subst self1.
  - destruct (combine _ _ _) as [[[f l] w]|e1]; [done|].
    intros [= <- _]. done.
  - intros [= <- _]. done.
Qed.

Lemma load_ok_cache env filenames samples self self' :
  load env filenames samples self = (self', Ok ()) →
  cache_arrays self' = None ∧ cache_sample_arrays self' = None.
Proof.
  rewrite load_unfold.
  destruct (for_eachM _ _ _ _) as [self1 [loc|e1]]; [|done].
  destruct (combine _ _ _) as [[[f l] w]|e1]; [|done].
  intros [= <-]. done.
Qed.

(** C6 (as amended).  Whenever [load] raises, the published
    attributes [_features], [_labels] and [_weights] are what they
    were before the call; whenever [load] returns, both cache
    attributes are [None].  (On a raise the cache is left as the last
    [_load_sample_data] set it.) *)
Theorem C6_raise_keeps_published_and_return_clears_cache
    env filenames samples self self' r :
  load env filenames samples self = (self', r) →
  match r with
  | Raise _ => published self' = published self
  | Ok _ => cache_arrays self' = None ∧ cache_sample_arrays self' = None
  end.
Proof.
  destruct r as [[]|e]; intros Hl.
  - by eapply load_ok_cache.
  - by eapply load_raise_published.
Qed.

Lemma C6_raise_keeps_published_and_return_clears_cache_witness :
  ∃ self', load Examples.env Examples.per_sample_files (Some ["sig"; "other"])
                Examples.loaded = (self', Raise (NoClassValue "other"))
           ∧ published self' = published Examples.loaded.
Proof.
  eexists. split; [vm_compute; reflexivity|].
  apply (C6_raise_keeps_published_and_return_clears_cache
           Examples.env Examples.per_sample_files (Some ["sig"; "other"])
           Examples.loaded _ (Raise (NoClassValue "other"))).
  vm_compute; reflexivity.
Defined.

(** C6 as the specification states it fails: on an object that has
    loaded, a second call that raises on an unknown sample does not
    leave the cache cleared; the file of the sample before it is still
    there. *)
Lemma C6_cache_not_cleared_on_raise :
  let out := load Examples.env Examples.per_sample_files (Some ["sig"; "other"])
                  Examples.loaded in
  out.2 = Raise (NoClassValue "other")
  ∧ cache_arrays out.1 = Some Examples.sample3
  ∧ ¬ (cache_arrays out.1 = None ∧ cache_sample_arrays out.1 = None).
Proof.
  assert ((load Examples.env Examples.per_sample_files (Some ["sig"; "other"])
                Examples.loaded).2 = Raise (NoClassValue "other")) as H1
    by (vm_compute; reflexivity).
  assert (cache_arrays (load Examples.env Examples.per_sample_files
                             (Some ["sig"; "other"]) Examples.loaded).1
          = Some Examples.sample3) as H2
    by (vm_compute; reflexivity).
  simpl. split_and!; [done|done|]. rewrite H2. by intros [? _].
Qed.

(** ** The shuffle branch *)

Lemma shuffle_events_raises env self size0 fs ls ms :
  is_ok (shuffle_events env self size0 fs ls ms) = false.
Proof.
  unfold shuffle_events.
  destruct (for_each _ _ _) as [fs'|e]; [|done]. simpl.
  destruct (gather ls _) as [ls'|e]; done.
Qed.

Lemma combine_shuffle_raises env self loc :
  shuffle self = true → is_ok (combine env self loc) = false.
Proof.
  intros Hsh. unfold combine.
  destruct (concatenate_features _) as [[fs sizes]|e]; [|done]. simpl.
  destruct (np_concatenate1 _) as [ls|e]; [|done]. simpl.
  destruct (negb _); [done|].
  destruct sizes as [|size0 sizes]; [done|].
  destruct (negb _); [done|].
  destruct (match masks loc with [] => _ | _ => _ end) as [ms|e]; [|done].
  simpl. rewrite Hsh.
  pose proof (shuffle_events_raises env self size0 fs ls ms) as Hr.
  destruct (shuffle_events _ _ _ _ _ _); done.
Qed.

(** C2 (the code departs from it).  With [shuffle] enabled, no call
    of [load] returns: every call raises, and nothing is published.
    Where the call gets as far as the shuffle, the exception is the
    read of the local [weights] at l.191, before its first assignment
    at l.196 ([load_with_shuffle_unbound_local], at the end). *)
Theorem C2_load_with_shuffle_raises env filenames samples self :
  shuffle self = true →
  ∃ e, (load env filenames samples self).2 = Raise e
       ∧ published (load env filenames samples self).1 = published self.
Proof.
  intros Hsh.
  destruct (load env filenames samples self) as [self' r] eqn:Hl.
  destruct r as [[]|e].
  - exfalso. rewrite load_unfold in Hl.
    destruct (sample_loop_state env filenames
                (default (dict_keys (label_map self)) samples)
                (Locals [] [] [] []) (with_cache None None self))
      as (a & b & Hs).
    destruct (for_eachM _ _ _ _) as [self1 [loc|e1]]; [|done].
    simpl in Hs; subst self1.
    pose proof (combine_shuffle_raises env
                  (with_cache a b (with_cache None None self)) loc Hsh) as Hr.
    destruct (combine _ _ _) as [[[f l] w]|e1]; done.
  - exists e. split; [done|]. by eapply load_raise_published.
Qed.

Lemma C2_load_with_shuffle_raises_witness :
  ∃ e, (load Examples.env Examples.per_sample_files None
             (Examples.fresh None true)).2 = Raise e
       ∧ published (load Examples.env Examples.per_sample_files None
                         (Examples.fresh None true)).1
         = published (Examples.fresh None true).
Proof.
  apply (C2_load_with_shuffle_raises Examples.env Examples.per_sample_files
           None (Examples.fresh None true)).
  reflexivity.
Defined.

(** The same configuration loads with [shuffle] off and raises
    [UnboundLocalError] for [weights] with [shuffle] on. *)
Lemma shuffle_example_off :
  __init__ Examples.env Examples.per_sample_files Examples.pt_only
           Examples.class_labels None None 2 2 false 2023
  = Ok Examples.loaded.
Proof. vm_compute. reflexivity. Qed.

Lemma shuffle_example_on :
  __init__ Examples.env Examples.per_sample_files Examples.pt_only
           Examples.class_labels None None 2 2 true 2023
  = Raise (UnboundLocalError "weights").
Proof. vm_compute. reflexivity. Qed.

(** ** The [masks] accessor *)

(** C9.  On every object [__init__] returns, reading [masks] raises
    [AttributeError] for the name [features]: the instance has
    [_features], the class has [X], and the base class (which is
    assumed to define no attribute of that name) does not help. *)
Theorem C9_masks_raises_attribute_error
    base_getattr env filenames feature_dict class_labels samples sample_sizes
    num_jets pad_size shuffle seed self :
  base_getattr "features" = None →
  __init__ env filenames feature_dict class_labels samples sample_sizes
           num_jets pad_size shuffle seed = Ok self →
  masks_property base_getattr self = Raise (AttributeError "features").
Proof.
  intros Hbase _. unfold masks_property, getattr.
  repeat (case_decide; [done|]).
  assert (bool_decide ("features" ∈ instance_attributes ++ class_attributes)
          = false) as -> by (vm_compute; reflexivity).
  by rewrite Hbase.
Qed.

Lemma C9_masks_raises_attribute_error_witness :
  masks_property Examples.logging_only Examples.loaded
  = Raise (AttributeError "features").
Proof.
  apply (C9_masks_raises_attribute_error Examples.logging_only Examples.env
           Examples.per_sample_files Examples.pt_only Examples.class_labels
           None None 2%nat 2%nat false 2023 Examples.loaded).
  - reflexivity.
  - vm_compute. reflexivity.
Defined.

(** The mask is there all the same, under [X]. *)
Lemma masks_example_in_X :
  ∃ m, (d ← X Examples.loaded; dict_get "part_masks" d) = Some (Bool m).
Proof. vm_compute. eauto. Qed.

(** ** The sample loop, one record at a time *)

Lemma for_each_cons {A B} (f : A → B → result A) a b l :
  for_each f a (b :: l)
  = match f a b with Ok a' => for_each f a' l | Raise e => Raise e end.
Proof. done. Qed.

Lemma for_eachM_cons {A B} (f : A → B → M A) a b l self :
  for_eachM f a (b :: l) self
  = match f a b self with
    | (self', Ok a') => for_eachM f a' l self'
    | (self', Raise e) => (self', Raise e)
    end.
Proof. done. Qed.

Lemma process_sample_unfold env filenames loc sample self :
  process_sample env filenames loc sample self
  = match dict_get sample (label_map self) with
    | None => (self, Raise (NoClassValue sample))
    | Some class_val =>
        match _load_sample_data env filenames sample self with
        | (self', Ok _) =>
            match cache_sample_arrays self' with
            | None => (self', Raise TypeError)
            | Some sample_arrays =>
                (self', prepare_sample self' sample class_val sample_arrays loc)
            end
        | (self', Raise e) => (self', Raise e)
        end
    end.
Proof.
  unfold process_sample, mbind, M_bind, get_self, raise, lift; simpl.
  destruct (dict_get sample (label_map self)); [|done].
  destruct (_load_sample_data _ _ _ _) as [self' [[]|e]]; [|done].
  by destruct (cache_sample_arrays self').
Qed.

Lemma prepare_sample_with_cache a b self :
  prepare_sample (with_cache a b self) = prepare_sample self.
Proof. done. Qed.

Lemma with_cache_with_cache a b c d self :
  with_cache a b (with_cache c d self) = with_cache a b self.
Proof. done. Qed.

Lemma ak_getitem_fields file key sub :
  ak_getitem file key = Ok sub → key ∈ ak_fields file.
Proof.
  destruct file as [xs|xss|n fs]; simpl; [done|done|].
  destruct (dict_get key fs) as [x|] eqn:Hg; [|done]. intros _.
  induction fs as [|[k v] fs IH]; simpl in *; [done|].
  case_decide; [subst; left|right; auto].
Qed.

(** With a dictionary of paths every round loads its own file,
    whatever the cache holds. *)
Lemma sample_loop_dict env paths all self samples loc a b :
  (for_eachM (process_sample env (FDict paths)) loc samples
             (with_cache a b self)).2
  = for_each (process_record env (FDict paths) all self) loc samples.
Proof.
  revert loc a b. induction samples as [|sample samples IH]; intros loc a b;
    [done|].
  rewrite for_eachM_cons, for_each_cons, process_sample_unfold.
  unfold process_record. simpl.
  destruct (dict_get sample (label_map self)) as [class_val|]; [|done].
  destruct (paths !! sample) as [path|]; [|done]. simpl.
  unfold mbind, M_bind, lift; simpl.
  destruct (_load_file env path) as [file|e]; [|done]. simpl.
  rewrite !prepare_sample_with_cache, !with_cache_with_cache.
  destruct (prepare_sample self sample class_val file loc) as [loc1|e];
    [|done].
  apply (IH loc1 (Some file) (Some file)).
Qed.

(** With one combined file and a warm cache no round loads
    anything. *)
Lemma sample_loop_warm env path self file first samples loc :
  cache_arrays self = Some file →
  cache_sample_arrays self = Some first →
  for_eachM (process_sample env (FStr path)) loc samples self
  = (self,
     for_each (λ loc sample,
                 match dict_get sample (label_map self) with
                 | None => Raise (NoClassValue sample)
                 | Some class_val =>
                     if bool_decide (sample ∈ ak_fields file)
                     then prepare_sample self sample class_val first loc
                     else Raise (SampleNotInDataset sample)
                 end) loc samples).
Proof.
  intros Hc Hs. revert loc.
  induction samples as [|sample samples IH]; intros loc; [done|].
  rewrite for_eachM_cons, for_each_cons, process_sample_unfold.
  destruct (dict_get sample (label_map self)) as [class_val|]; [|done].
  simpl. unfold mbind, M_bind, get_self, raise, mret, M_ret; simpl.
  rewrite Hc. case_bool_decide; simpl; [|done].
  rewrite Hs.
  destruct (prepare_sample self sample class_val first loc) as [loc1|e];
    [apply IH|done].
Qed.

Lemma sample_loop_str env path self samples loc :
  cache_arrays self = None →
  (for_eachM (process_sample env (FStr path)) loc samples self).2
  = for_each (process_record env (FStr path) samples self) loc samples.
Proof.
  intros Hc. destruct samples as [|s0 rest]; [done|].
  rewrite for_eachM_cons, for_each_cons, process_sample_unfold.
  unfold process_record at 1.
  destruct (dict_get s0 (label_map self)) as [class_val|]; [|done].
  simpl. unfold mbind, M_bind, get_self, raise, lift, mret, M_ret; simpl.
  rewrite Hc.
  destruct (_load_file env path) as [file|e] eqn:Hf; [|done]. simpl.
  destruct (ak_getitem file s0) as [first|e] eqn:Hg; [|done]. simpl.
  rewrite (bool_decide_eq_true_2 _ (ak_getitem_fields _ _ _ Hg)).
  unfold result_bind. rewrite !prepare_sample_with_cache.
  destruct (prepare_sample self s0 class_val first loc) as [loc1|e]; [|done].
  rewrite !with_cache_with_cache.
  rewrite (sample_loop_warm env path (with_cache (Some file) (Some first) self)
             file first rest loc1 eq_refl eq_refl).
  simpl. revert loc1.
  induction rest as [|s rest IH]; intros loc1; [done|].
  rewrite !for_each_cons. unfold process_record at 1. simpl.
  destruct (dict_get s (label_map self)) as [cv|]; [|done].
  unfold mbind, result_bind. rewrite Hf, Hg.
  case_bool_decide; [|done].
  rewrite ?prepare_sample_with_cache.
  destruct (prepare_sample self s cv first loc1) as [loc2|e]; [|done].
  apply IH.
Qed.

Lemma sample_loop_records env filenames self samples loc :
  (for_eachM (process_sample env filenames) loc samples
             (with_cache None None self)).2
  = for_each (process_record env filenames samples self) loc samples.
Proof.
  destruct filenames as [path|paths|].
  - by rewrite sample_loop_str.
  - apply sample_loop_dict.
  - destruct samples as [|s0 rest]; [done|].
    rewrite for_eachM_cons, for_each_cons, process_sample_unfold.
    unfold process_record at 1. simpl.
    destruct (dict_get s0 (label_map self)); done.
Qed.

(** [load] raises what [load_result] raises, and publishes what
    [load_result] returns. *)
Lemma load_load_result env filenames samples self :
  match load_result env filenames samples self with
  | Ok (f, l, w) =>
      ∃ self', load env filenames samples self = (self', Ok ())
               ∧ published self' = (Some f, Some l, Some w)
  | Raise e => (load env filenames samples self).2 = Raise e
  end.
Proof.
  unfold load_result. rewrite load_unfold.
  pose proof (sample_loop_records env filenames self
                (default (dict_keys (label_map self)) samples)
                (Locals [] [] [] [])) as Hloop.
  destruct (sample_loop_state env filenames
              (default (dict_keys (label_map self)) samples)
              (Locals [] [] [] []) (with_cache None None self)) as (a & b & Hs).
  destruct (for_eachM _ _ _ _) as [self1 [loc|e1]]; simpl in Hs, Hloop;
    subst self1; rewrite <- Hloop; simpl; [|done].
  change (combine env (with_cache a b (with_cache None None self)) loc)
    with (combine env self loc).
  destruct (combine env self loc) as [[[f l] w]|e1]; [|done].
  eexists. split; done.
Qed.

Lemma for_each_app {A B} (f : A → B → result A) a l1 l2 :
  for_each f a (l1 ++ l2) = (a' ← for_each f a l1; for_each f a' l2).
Proof.
  revert a. induction l1 as [|b l1 IH]; intros a; [done|].
  simpl. destruct (f a b) as [a'|e]; simpl; [apply IH|done].
Qed.

Lemma for_each_ext {A B} (f g : A → B → result A) a l :
  (∀ a b, b ∈ l → f a b = g a b) → for_each f a l = for_each g a l.
Proof.
  revert a. induction l as [|b l IH]; intros a Hfg; [done|].
  simpl. rewrite Hfg by left.
  destruct (g a b) as [a'|e]; simpl; [|done].
  apply IH. intros a0 b0 Hb. apply Hfg. by right.
Qed.

(** ** One combined file *)

(** C8.  With [filenames] a single path, every round of the sample
    loop, the first and all later ones, prepares the sub-record of the
    first sample of the list: [load] raises and publishes exactly what
    the loop over [process_from_first] followed by [combine] raises
    and returns.  The sub-records of the later samples are never
    read. *)
Theorem C8_single_file_builds_every_sample_from_first
    env path samples self s0 rest file first :
  default (dict_keys (label_map self)) samples = s0 :: rest →
  disk env !! path = Some file →
  ak_getitem file s0 = Ok first →
  match (loc ← for_each (process_from_first self (ak_fields file) first)
                        (Locals [] [] [] []) (s0 :: rest);
         combine env self loc) with
  | Ok (f, l, w) =>
      ∃ self', load env (FStr path) samples self = (self', Ok ())
               ∧ published self' = (Some f, Some l, Some w)
  | Raise e => (load env (FStr path) samples self).2 = Raise e
  end.
Proof.
  intros Hs Hf Hg.
  pose proof (load_load_result env (FStr path) samples self) as Hl.
  unfold load_result in Hl. rewrite Hs in Hl.
  rewrite (for_each_ext (process_record env (FStr path) (s0 :: rest) self)
             (process_from_first self (ak_fields file) first)) in Hl; [done|].
  intros loc s _. unfold process_record, process_from_first, record_used.
  destruct (dict_get s (label_map self)); [|done].
  unfold _load_file. rewrite Hf. simpl. rewrite Hg. simpl.
  by case_bool_decide.
Qed.

Lemma C8_single_file_builds_every_sample_from_first_witness :
  match (loc ← for_each
                 (process_from_first (Examples.fresh None false)
                    ["sig"; "bkg"] Examples.sample3)
                 (Locals [] [] [] []) ["sig"; "bkg"];
         combine Examples.env (Examples.fresh None false) loc) with
  | Ok (f, l, w) =>
      ∃ self', load Examples.env Examples.one_file None
                    (Examples.fresh None false) = (self', Ok ())
               ∧ published self' = (Some f, Some l, Some w)
  | Raise e =>
      (load Examples.env Examples.one_file None (Examples.fresh None false)).2
      = Raise e
  end.
Proof.
  apply (C8_single_file_builds_every_sample_from_first
           Examples.env "all.parquet" None (Examples.fresh None false)
           "sig" ["bkg"]
           (AkRecord 3 [("sig", Examples.sample3); ("bkg", Examples.sample3')])
           Examples.sample3);
    reflexivity.
Defined.

(** The two samples of the combined file differ, yet the events
    published for [bkg] are those of [sig]. *)
Lemma single_file_example :
  Examples.sample3 ≠ Examples.sample3'
  ∧ published (load Examples.env Examples.one_file None
                    (Examples.fresh None false)).1
    = published (load Examples.env_sig_twice Examples.one_file None
                      (Examples.fresh None false)).1.
Proof. split; [discriminate|]. vm_compute. reflexivity. Qed.

(** ** The size override *)

(** C3 (the code departs from it).  The comparison at l.122 is the
    wrong way round.  Let a sample have a size override smaller than
    the number of events of the record [load] prepares for it, the
    case in which the leading events should be taken, and let the
    samples before it load.  Then [load] raises the "can not request
    more events than is available" error. *)
Theorem C3_override_below_available_raises
    env filenames samples self done_s s rest_s loc class_val arrays requested :
  default (dict_keys (label_map self)) samples = done_s ++ s :: rest_s →
  for_each (process_record env filenames (done_s ++ s :: rest_s) self)
           (Locals [] [] [] []) done_s = Ok loc →
  dict_get s (label_map self) = Some class_val →
  record_used env filenames (done_s ++ s :: rest_s) s = Ok arrays →
  sample_sizes self !! s = Some requested →
  requested < ak_len arrays →
  (load env filenames samples self).2
  = Raise (TooManyRequested s requested (ak_len arrays)).
Proof.
  intros Hs Hdone Hcv Hrec Hsz Hlt.
  pose proof (load_load_result env filenames samples self) as Hl.
  unfold load_result in Hl. rewrite Hs in Hl.
  rewrite for_each_app, Hdone in Hl. simpl in Hl.
  assert (process_record env filenames (done_s ++ s :: rest_s) self loc s
          = Raise (TooManyRequested s requested (ak_len arrays))) as Hp.
  { unfold process_record. rewrite Hcv, Hrec. simpl.
    unfold prepare_sample, resolve_sample_size. rewrite Hsz.
    destruct (decide (ak_len arrays > requested)); [done|lia]. }
  by rewrite Hp in Hl.
Qed.

Lemma C3_override_below_available_raises_witness :
  (load Examples.env Examples.per_sample_files None
        (Examples.fresh (Some {[ "sig" := 2 ]}) false)).2
  = Raise (TooManyRequested "sig" 2 3).
Proof.
  apply (C3_override_below_available_raises Examples.env
           Examples.per_sample_files None
           (Examples.fresh (Some {[ "sig" := 2 ]}) false)
           [] "sig" ["bkg"] (Locals [] [] [] []) 1 Examples.sample3 2);
    reflexivity.
Defined.

(** An override above the available count passes the check at l.122;
    the labels then outnumber the events and the call ends in the
    consistency check at l.177. *)
Lemma override_above_available_example :
  (load Examples.env Examples.per_sample_files None
        (Examples.fresh (Some {[ "sig" := 5 ]}) false)).2
  = Raise InconsistentFeatureLabelSizes.
Proof. vm_compute. reflexivity. Qed.

(** An override equal to the available count is accepted. *)
Lemma override_equal_available_example :
  (load Examples.env Examples.per_sample_files None
        (Examples.fresh (Some {[ "sig" := 3 ]}) false)).2
  = Ok ().
Proof. vm_compute. reflexivity. Qed.

(** ** A column that is not there *)

Lemma load_columns_present self arrays jet_key n jet columns st :
  ak_getitem arrays jet_key = Ok jet →
  forallb (column_loads jet) columns = true →
  ∃ st', for_each (load_column self arrays jet_key n) st columns = Ok st'.
Proof.
  intros Hj. revert st.
  induction columns as [|c columns IH]; intros [fa ma] Hall; [by eexists|].
  simpl in Hall. apply andb_true_iff in Hall as [Hc Hall].
  rewrite for_each_cons. unfold load_column at 1. rewrite Hj. simpl.
  unfold column_loads in Hc.
  destruct (ak_getitem jet c) as [[xs|xss|k fs]|e]; try done; simpl;
    apply IH, Hall.
Qed.

Lemma load_columns_missing self arrays jet_key n jet done_c c rest_c st :
  ak_getitem arrays jet_key = Ok jet →
  forallb (column_loads jet) done_c = true →
  ak_getitem jet c = Raise (FieldNotFound c) →
  for_each (load_column self arrays jet_key n) st (done_c ++ c :: rest_c)
  = Raise (FieldNotFound c).
Proof.
  intros Hj Hdone Hc. rewrite for_each_app.
  destruct (load_columns_present self arrays jet_key n jet done_c st Hj Hdone)
    as [[fa ma] ->].
  simpl. unfold load_column. rewrite Hj. simpl. by rewrite Hc.
Qed.

Lemma seq_split_at (i n : nat) :
  (1 ≤ i ≤ n)%nat → seq 1 n = seq 1 (i - 1) ++ i :: seq (S i) (n - i).
Proof.
  intros Hi. replace n with ((i - 1) + S (n - i))%nat at 1 by lia.
  rewrite seq_app. f_equal. simpl. by replace (S (i - 1)) with i by lia.
Qed.

Lemma load_jet_missing self arrays n done_c c rest_c st i jet :
  ak_getitem arrays ("j" +:+ pretty i) = Ok jet →
  forallb (column_loads jet) done_c = true →
  ak_getitem jet c = Raise (FieldNotFound c) →
  load_jet self arrays (done_c ++ c :: rest_c) n st i
  = Raise (FieldNotFound c).
Proof.
  intros Hjet Hdone_c Hc. destruct st as [jf jm]. unfold load_jet.
  by rewrite (load_columns_missing self arrays _ n jet done_c c rest_c _
                Hjet Hdone_c Hc).
Qed.

Lemma load_feature_type_missing self arrays n g done_c c rest_c st i st_j jet :
  (1 ≤ i ≤ num_jets self)%nat →
  for_each (load_jet self arrays (done_c ++ c :: rest_c) n) ([], [])
           (seq 1 (i - 1)) = Ok st_j →
  ak_getitem arrays ("j" +:+ pretty i) = Ok jet →
  forallb (column_loads jet) done_c = true →
  ak_getitem jet c = Raise (FieldNotFound c) →
  load_feature_type self arrays n st (g, done_c ++ c :: rest_c)
  = Raise (FieldNotFound c).
Proof.
  intros Hi Hdone_j Hjet Hdone_c Hc. destruct st as [fs ma].
  unfold load_feature_type.
  rewrite (seq_split_at i (num_jets self) Hi), for_each_app, Hdone_j.
  simpl.
  by rewrite (load_jet_missing self arrays n done_c c rest_c st_j i jet
                Hjet Hdone_c Hc).
Qed.

Lemma prepare_sample_missing_column
    self s class_val arrays loc n done_g g done_c c rest_c rest_g st_g
    i st_j jet :
  resolve_sample_size self s arrays = Ok n →
  0 ≤ n →
  feature_dict self = done_g ++ (g, done_c ++ c :: rest_c) :: rest_g →
  for_each (load_feature_type self arrays n) (features loc, None) done_g
  = Ok st_g →
  (1 ≤ i ≤ num_jets self)%nat →
  for_each (load_jet self arrays (done_c ++ c :: rest_c) n) ([], [])
           (seq 1 (i - 1)) = Ok st_j →
  ak_getitem arrays ("j" +:+ pretty i) = Ok jet →
  forallb (column_loads jet) done_c = true →
  ak_getitem jet c = Raise (FieldNotFound c) →
  prepare_sample self s class_val arrays loc = Raise (FieldNotFound c).
Proof.
  intros Hsize Hn Hfd Hdone_g Hi Hdone_j Hjet Hdone_c Hc.
  unfold prepare_sample. rewrite Hsize. simpl.
  unfold np_full. destruct (decide (n < 0)) as [?|_]; [lia|]. simpl.
  rewrite Hfd, for_each_app, Hdone_g. simpl.
  by rewrite (load_feature_type_missing self arrays n g done_c c rest_c st_g
                i st_j jet Hi Hdone_j Hjet Hdone_c Hc).
Qed.

(** C7 (as amended).  Let a column [c] of a configured feature group
    be absent from the record of jet [i] of the record [load] prepares
    for a sample, and let everything [load] does before it looks [c]
    up succeed: the earlier samples, the size check of this sample,
    the earlier feature groups, the earlier jets of this group, and
    the earlier columns of this jet.  Then [load] raises the field
    lookup error of the record library, whose message is built from
    the column name alone. *)
Theorem C7_missing_column_raises_field_lookup_error
    env filenames samples self done_s s rest_s loc class_val arrays n
    done_g g done_c c rest_c rest_g st_g i st_j jet :
  default (dict_keys (label_map self)) samples = done_s ++ s :: rest_s →
  for_each (process_record env filenames (done_s ++ s :: rest_s) self)
           (Locals [] [] [] []) done_s = Ok loc →
  dict_get s (label_map self) = Some class_val →
  record_used env filenames (done_s ++ s :: rest_s) s = Ok arrays →
  resolve_sample_size self s arrays = Ok n →
  0 ≤ n →
  feature_dict self = done_g ++ (g, done_c ++ c :: rest_c) :: rest_g →
  for_each (load_feature_type self arrays n) (features loc, None) done_g
  = Ok st_g →
  (1 ≤ i ≤ num_jets self)%nat →
  for_each (load_jet self arrays (done_c ++ c :: rest_c) n) ([], [])
           (seq 1 (i - 1)) = Ok st_j →
  ak_getitem arrays ("j" +:+ pretty i) = Ok jet →
  forallb (column_loads jet) done_c = true →
  ak_getitem jet c = Raise (FieldNotFound c) →
  (load env filenames samples self).2 = Raise (FieldNotFound c)
  ∧ exn_mentions (FieldNotFound c) = [c].
Proof.
  intros Hs Hdone_s Hcv Hrec Hsize Hn Hfd Hdone_g Hi Hdone_j Hjet Hdone_c Hc.
  split; [|done].
  pose proof (load_load_result env filenames samples self) as Hl.
  unfold load_result in Hl. rewrite Hs in Hl.
  rewrite for_each_app, Hdone_s in Hl. simpl in Hl.
  assert (process_record env filenames (done_s ++ s :: rest_s) self loc s
          = Raise (FieldNotFound c)) as Hp.
  { unfold process_record. rewrite Hcv, Hrec. simpl.
    by eapply prepare_sample_missing_column. }
  by rewrite Hp in Hl.
Qed.

Lemma C7_missing_column_raises_field_lookup_error_witness :
  (load Examples.env Examples.per_sample_files None Examples.fresh_pt_eta).2
  = Raise (FieldNotFound "eta")
  ∧ exn_mentions (FieldNotFound "eta") = ["eta"].
Proof.
  apply (C7_missing_column_raises_field_lookup_error
           Examples.env Examples.per_sample_files None Examples.fresh_pt_eta
           [] "sig" ["bkg"] (Locals [] [] [] []) 1 Examples.sample3 3
           [] "part_features" ["pt"] "eta" [] [] ([], None)
           1%nat ([], []) Examples.jet3);
    try reflexivity; try (simpl; lia).
Defined.

(** C7 as the specification states it fails: the configuration asks
    for the column [eta], which the record of jet [j1] of the sample
    [sig] does not have; the exception [load] raises does not name the
    sample and does not name the jet. *)
Lemma C7_error_names_neither_sample_nor_jet :
  ¬ ∃ e, (load Examples.env Examples.per_sample_files None
               Examples.fresh_pt_eta).2 = Raise e
         ∧ "sig" ∈ exn_mentions e
         ∧ "j1" ∈ exn_mentions e
         ∧ "eta" ∈ exn_mentions e.
Proof.
  intros (e & He & Hsig & _).
  assert ((load Examples.env Examples.per_sample_files None
                Examples.fresh_pt_eta).2 = Raise (FieldNotFound "eta")) as He'
    by (vm_compute; reflexivity).
  rewrite He' in He. injection He as <-.
  simpl in Hsig. apply list_elem_of_singleton in Hsig. discriminate.
Qed.

(** ** Dictionaries *)

Section pydict_facts.
Context {K V : Type} `{EqDecision K}.
Implicit Types (d : pydict K V) (k : K) (v : V).

Lemma dict_get_set_eq k v d : dict_get k (dict_set k v d) = Some v.
Proof.
  induction d as [|[k' v'] d IH]; simpl.
  - by rewrite decide_True.
  - destruct (decide (k = k')) as [->|Hne]; simpl.
    + by rewrite decide_True.
    + by rewrite decide_False.
Qed.

Lemma dict_get_set_ne k k' v d :
  k ≠ k' → dict_get k' (dict_set k v d) = dict_get k' d.
Proof.
  intros Hne. induction d as [|[k0 v0] d IH]; simpl.
  - by rewrite decide_False.
  - destruct (decide (k = k0)) as [->|Hne0]; simpl.
    + by rewrite !decide_False.
    + destruct (decide (k' = k0)); done.
Qed.

Lemma dict_get_None k d : dict_get k d = None ↔ k ∉ d.*1.
Proof.
  induction d as [|[k' v'] d IH]; simpl.
  - split; [intros _|done]. apply not_elem_of_nil.
  - rewrite not_elem_of_cons. destruct (decide (k = k')) as [Heq|Hne].
    + split; [done|]. by intros [? _].
    + rewrite IH. split; [done|]. by intros [_ ?].
Qed.

Lemma dict_get_Some_elem k v d : dict_get k d = Some v → (k, v) ∈ d.
Proof.
  induction d as [|[k' v'] d IH]; simpl; [done|].
  destruct (decide (k = k')) as [->|Hne].
  - intros [= ->]. left.
  - intros Hg. right. auto.
Qed.

Lemma dict_set_keys k v d :
  (dict_set k v d).*1 = if dict_in k d then d.*1 else d.*1 ++ [k].
Proof.
  induction d as [|[k' v'] d IH]; [done|].
  unfold dict_in in *. simpl. destruct (decide (k = k')) as [Heq|Hne]; simpl.
  - by rewrite Heq.
  - unfold fmap in *. rewrite IH.
    by destruct (bool_decide (is_Some (dict_get k d))).
Qed.


End pydict_facts.

(** ** Weights *)

Lemma for_each_invariant {A B} (f : A → B → result A) (P : A → Prop) l a a' :
  (∀ a b a', b ∈ l → P a → f a b = Ok a' → P a') →
  P a → for_each f a l = Ok a' → P a'.
Proof.
  revert a. induction l as [|b l IH]; intros a Hstep Ha; simpl.
  - by intros [= <-].
  - destruct (f a b) as [a1|e] eqn:Hf; simpl; [|done].
    apply IH.
    + intros a0 b0 a0' Hb. apply Hstep. by right.
    + eapply Hstep; [left|done..].
Qed.

(** What a successful [prepare_sample] did. *)
Lemma prepare_sample_ok self sample class_val arrays loc loc' :
  prepare_sample self sample class_val arrays loc = Ok loc' →
  ∃ n fs ma,
    resolve_sample_size self sample arrays = Ok n
    ∧ 0 ≤ n
    ∧ for_each (load_feature_type self arrays n) (features loc, None)
               (feature_dict self) = Ok (fs, ma)
    ∧ loc' = Locals fs
               (labels loc ++ [replicate (Z.to_nat n) class_val])
               (match ma with Some m => masks loc ++ [m] | None => masks loc end)
               (dict_set class_val
                  (default 0 (dict_get class_val (class_sizes loc)) + n)
                  (class_sizes loc)).
Proof.
  unfold prepare_sample.
  destruct (resolve_sample_size self sample arrays) as [n|e]; [|done]. simpl.
  unfold np_full. destruct (decide (n < 0)) as [?|Hn]; [done|]. simpl.
  destruct (for_each _ _ _) as [[fs ma]|e] eqn:Hfe; [|done]. simpl.
  intros [= <-]. exists n, fs, ma. split_and!; [done|lia|done|done].
Qed.






Lemma load_ok_inv env filenames samples self self' :
  load env filenames samples self = (self', Ok ()) →
  ∃ f l w, load_result env filenames samples self = Ok (f, l, w)
           ∧ published self' = (Some f, Some l, Some w).
Proof.
  intros Hl. pose proof (load_load_result env filenames samples self) as Hr.
  destruct (load_result env filenames samples self) as [[[f l] w]|e].
  - destruct Hr as (self'' & Hl' & Hp). rewrite Hl in Hl'.
    injection Hl' as <-. by exists f, l, w.
  - by rewrite Hl in Hr.
Qed.

Lemma sizes_all_equal (sizes : list nat) (size0 : nat) (rest : list nat) :
  size (list_to_set sizes : gset nat) = 1%nat →
  sizes = size0 :: rest →
  ∀ n, n ∈ sizes → n = size0.
Proof.
  intros Hsz -> n Hn.
  apply size_1_elem_of in Hsz as [x Hx].
  assert (n ∈ (list_to_set (size0 :: rest) : gset nat)) as Hn'
    by by apply elem_of_list_to_set.
  assert (size0 ∈ (list_to_set (size0 :: rest) : gset nat)) as H0
    by (apply elem_of_list_to_set; left).
  rewrite Hx in Hn', H0. apply elem_of_singleton in Hn', H0. congruence.
Qed.

(** What a successful [combine] did: the shuffle was off, all feature
    types and the labels had [size0] events, and so did the mask when
    there was one. *)
Lemma combine_ok env self loc f l w :
  combine env self loc = Ok (f, l, w) →
  ∃ fs size0 rest ms,
    concatenate_features (features loc) = Ok (fs, size0 :: rest)
    ∧ (∀ n, n ∈ size0 :: rest → n = size0)
    ∧ labels loc ≠ []
    ∧ size0 = length (concat (labels loc))
    ∧ match masks loc with
      | [] => ms = None
      | _ => ∃ m, np_concatenate (masks loc) = Ok m ∧ axis0 m = size0
                  ∧ ms = Some m
      end
    ∧ shuffle self = false
    ∧ f = match ms with
          | Some m => dict_set "part_masks" (Bool m) (prod_map id Float <$> fs)
          | None => prod_map id Float <$> fs
          end
    ∧ l = np_expand_dims_last (concat (labels loc))
    ∧ w = np_expand_dims_last
            (class_weights (concat (labels loc)) (class_sizes loc)).
Proof.
  unfold combine.
  destruct (concatenate_features _) as [[fs sizes]|e]; [|done]. simpl.
  destruct (labels loc) as [|lab labs] eqn:Hlab; [done|]. simpl.
  case_bool_decide as Hsz; [|done]. simpl.
  destruct sizes as [|size0 rest]; [done|].
  case_bool_decide as Hl0; [|done]. simpl.
  destruct (shuffle self) eqn:Hsh.
  { destruct (match masks loc with [] => _ | _ => _ end) as [ms|e]; [|done].
    simpl.
    pose proof (shuffle_events_raises env self size0 fs (lab ++ concat labs) ms)
      as Hr.
    destruct (shuffle_events _ _ _ _ _ _); done. }
  destruct (masks loc) as [|m0 ms0] eqn:Hm.
  - simpl. intros [= <- <- <-]. exists fs, size0, rest, None.
    split_and!; try done. by eapply sizes_all_equal.
  - destruct (np_concatenate (m0 :: ms0)) as [m|e]; [|done]. simpl.
    case_bool_decide as Hma; [|done]. simpl.
    intros [= <- <- <-]. exists fs, size0, rest, (Some m).
    split_and!; try done; [by eapply sizes_all_equal|by exists m].
Qed.









(** What a successful [load] went through. *)
Lemma load_ok_phases env filenames samples self self' :
  load env filenames samples self = (self', Ok ()) →
  ∃ loc f l w,
    for_each (process_record env filenames
                (default (dict_keys (label_map self)) samples) self)
             (Locals [] [] [] [])
             (default (dict_keys (label_map self)) samples) = Ok loc
    ∧ combine env self loc = Ok (f, l, w)
    ∧ published self' = (Some f, Some l, Some w).
Proof.
  intros Hl. apply load_ok_inv in Hl as (f & l & w & Hr & Hp).
  unfold load_result in Hr.
  destruct (for_each _ _ _) as [loc|e] eqn:Hloop; [|done].
  by exists loc, f, l, w.
Qed.



(** Three events of class 1 weigh a third each, two events of class 0
    a half each. *)
Lemma weights_example :
  weight Examples.loaded
  = Some (np_expand_dims_last
            (replicate 3 (1 / of_int 3)%Qc ++ replicate 2 (1 / of_int 2)%Qc)).
Proof. vm_compute. reflexivity. Qed.

(** ** The mask entry of the feature dictionary *)

Lemma for_each_establish {A B} (f : A → B → result A) (P : A → Prop) b0 l a a' :
  (∀ a b a', P a → f a b = Ok a' → P a') →
  (∀ a a', f a b0 = Ok a' → P a') →
  b0 ∈ l → for_each f a l = Ok a' → P a'.
Proof.
  intros Hmono Hest. revert a. induction l as [|b l IH]; intros a Hin.
  - by apply elem_of_nil in Hin.
  - simpl. destruct (f a b) as [a1|e] eqn:Hf; simpl; [|done].
    apply elem_of_cons in Hin as [<-|Hin]; [|by apply IH].
    apply (for_each_invariant f P); [|by eapply Hest].
    intros a2 b2 a2' _. apply Hmono.
Qed.

Lemma existsb_elem {A} (p : A → bool) (l : list A) :
  existsb p l = true → ∃ x, x ∈ l ∧ p x = true.
Proof.
  intros H. apply existsb_exists in H as (x & Hx & Hp).
  exists x. split; [by apply list_elem_of_In|done].
Qed.

(** A list-valued column leaves a mask behind for its jet. *)
Lemma load_column_mask_mono self arrays jet_key n st c st' :
  is_Some st.2 → load_column self arrays jet_key n st c = Ok st' →
  is_Some st'.2.
Proof.
  destruct st as [fa ma]. simpl. intros [m ->]. unfold load_column.
  destruct (ak_getitem arrays jet_key) as [jet|e]; [|done]. simpl.
  destruct (ak_getitem jet c) as [[xs|xss|k fs]|e]; try done; simpl;
    intros [= <-]; by eexists.
Qed.

Lemma load_column_mask_ragged self arrays i n st c st' :
  column_is_ragged arrays i c = true →
  load_column self arrays ("j" +:+ pretty i) n st c = Ok st' →
  is_Some st'.2.
Proof.
  destruct st as [fa ma]. unfold column_is_ragged, load_column.
  destruct (ak_getitem arrays _) as [jet|e]; [|done]. simpl.
  destruct (ak_getitem jet c) as [[xs|xss|k fs]|e]; try done; simpl.
  intros _ [= <-]. simpl. destruct ma; by eexists.
Qed.

Lemma load_jet_masks_mono self arrays columns n st i st' :
  st.2 ≠ [] → load_jet self arrays columns n st i = Ok st' → st'.2 ≠ [].
Proof.
  destruct st as [jf jm]. simpl. intros Hjm. unfold load_jet.
  destruct (for_each _ _ _) as [[fa ma]|e]; [|done]. simpl.
  destruct (np_stack_last fa) as [F|e]; [|done]. simpl.
  intros [= <-]. simpl. destruct ma; [|done].
  intros Happ. by apply app_eq_nil in Happ as [? _].
Qed.

Lemma load_jet_masks_ragged self arrays columns n st i st' :
  existsb (column_is_ragged arrays i) columns = true →
  load_jet self arrays columns n st i = Ok st' → st'.2 ≠ [].
Proof.
  destruct st as [jf jm]. intros Hex. unfold load_jet.
  apply existsb_elem in Hex as (c & Hc & Hr).
  destruct (for_each _ _ _) as [[fa ma]|e] eqn:Hcols; [|done]. simpl.
  assert (is_Some ma) as [m ->].
  { change (is_Some (fa, ma).2).
    apply (for_each_establish _ (λ st, is_Some st.2) c columns _ _
             (load_column_mask_mono self arrays _ n)
             (λ a a', load_column_mask_ragged self arrays i n a c a' Hr)
             Hc Hcols). }
  destruct (np_stack_last fa) as [F|e]; [|done]. simpl.
  intros [= <-]. simpl. intros Happ. by apply app_eq_nil in Happ as [_ ?].
Qed.

Lemma load_feature_type_mask_mono self arrays n st entry st' :
  is_Some st.2 → load_feature_type self arrays n st entry = Ok st' →
  is_Some st'.2.
Proof.
  destruct st as [fs ma], entry as [g columns]. simpl. intros [m ->].
  unfold load_feature_type.
  destruct (for_each _ _ _) as [[jf jm]|e]; [|done]. simpl.
  destruct (np_stack_axis1 jf) as [T|e]; [|done]. simpl.
  destruct jm as [|m0 jm].
  - intros [= <-]. by eexists.
  - destruct (np_stack_masks (m0 :: jm)) as [m'|e]; [|done]. simpl.
    intros [= <-]. by eexists.
Qed.

Lemma load_feature_type_mask_ragged self arrays n st g columns st' :
  existsb (λ i, existsb (column_is_ragged arrays i) columns)
          (seq 1 (num_jets self)) = true →
  load_feature_type self arrays n st (g, columns) = Ok st' →
  is_Some st'.2.
Proof.
  destruct st as [fs ma]. intros Hex. unfold load_feature_type.
  apply existsb_elem in Hex as (i & Hi & Hr).
  destruct (for_each _ _ _) as [[jf jm]|e] eqn:Hjets; [|done]. simpl.
  assert (jm ≠ []) as Hjm.
  { change ((jf, jm).2 ≠ []).
    apply (for_each_establish _ (λ st, st.2 ≠ []) i _ _ _
             (load_jet_masks_mono self arrays columns n)
             (λ a a', load_jet_masks_ragged self arrays columns n a i a' Hr)
             Hi Hjets). }
  destruct (np_stack_axis1 jf) as [T|e]; [|done]. simpl.
  destruct jm as [|m0 jm]; [done|].
  destruct (np_stack_masks (m0 :: jm)) as [m'|e]; [|done]. simpl.
  intros [= <-]. by eexists.
Qed.

Lemma prepare_sample_masks_mono self s class_val arrays loc loc' :
  masks loc ≠ [] → prepare_sample self s class_val arrays loc = Ok loc' →
  masks loc' ≠ [].
Proof.
  intros Hm Hp.
  apply prepare_sample_ok in Hp as (n & fs & ma & _ & _ & _ & ->). simpl.
  destruct ma; [|done]. intros Happ. by apply app_eq_nil in Happ as [? _].
Qed.

Lemma prepare_sample_masks_ragged self s class_val arrays loc loc' :
  has_ragged_column self arrays = true →
  prepare_sample self s class_val arrays loc = Ok loc' →
  masks loc' ≠ [].
Proof.
  intros Hex Hp.
  apply prepare_sample_ok in Hp as (n & fs & ma & _ & _ & Hgroups & ->).
  apply existsb_elem in Hex as ([g columns] & Hg & Hr).
  assert (is_Some ma) as [m ->].
  { change (is_Some (fs, ma).2).
    apply (for_each_establish _ (λ st, is_Some st.2) (g, columns) _ _ _
             (load_feature_type_mask_mono self arrays n)
             (λ a a', load_feature_type_mask_ragged self arrays n a g columns
                        a' Hr)
             Hg Hgroups). }
  simpl. intros Happ. by apply app_eq_nil in Happ as [_ ?].
Qed.

Lemma sample_loop_masks_ragged env filenames all self samples loc0 loc s arrays :
  for_each (process_record env filenames all self) loc0 samples = Ok loc →
  s ∈ samples →
  record_used env filenames all s = Ok arrays →
  has_ragged_column self arrays = true →
  masks loc ≠ [].
Proof.
  intros Hloop Hs Hrec Hr.
  apply (for_each_establish (process_record env filenames all self)
           (λ loc, masks loc ≠ []) s samples loc0 loc);
    [| |done|done].
  - intros a b a' Ha. unfold process_record.
    destruct (dict_get b (label_map self)) as [cv|]; [|done].
    destruct (record_used env filenames all b) as [arr|e]; [|done]. simpl.
    by apply prepare_sample_masks_mono.
  - intros a a'. unfold process_record.
    destruct (dict_get s (label_map self)) as [cv|]; [|done].
    rewrite Hrec. simpl. by apply prepare_sample_masks_ragged.
Qed.

(** C10.  Let [load] return, and let some feature group have a
    list-valued column in the record prepared for one of the samples.
    Then the concatenation of the per-sample masks is the entry
    [part_masks] of the dictionary [X] returns.  The entry is set
    after the feature groups are, so a feature group of that name is
    replaced by the mask. *)
Theorem C10_mask_published_under_part_masks
    env filenames samples self self' s arrays :
  load env filenames samples self = (self', Ok ()) →
  s ∈ default (dict_keys (label_map self)) samples →
  record_used env filenames (default (dict_keys (label_map self)) samples) s
  = Ok arrays →
  has_ragged_column self arrays = true →
  ∃ loc m,
    for_each (process_record env filenames
                (default (dict_keys (label_map self)) samples) self)
             (Locals [] [] [] [])
             (default (dict_keys (label_map self)) samples) = Ok loc
    ∧ np_concatenate (masks loc) = Ok m
    ∧ (d ← X self'; dict_get "part_masks" d) = Some (Bool m).
Proof.
  intros Hl Hs Hrec Hr.
  apply load_ok_phases in Hl as (loc & f & l & w & Hloop & Hc & Hp).
  pose proof (sample_loop_masks_ragged _ _ _ _ _ _ _ _ _ Hloop Hs Hrec Hr)
    as Hm.
  apply combine_ok in Hc
    as (fs & size0 & rest & ms & _ & _ & _ & _ & Hms & _ & -> & _ & _).
  destruct (masks loc) as [|m0 ms0] eqn:Hmasks; [done|].
  destruct Hms as (m & Hcat & _ & ->).
  exists loc, m. split_and!; [done|by rewrite Hmasks|].
  injection Hp as HX _ _. unfold X. rewrite HX. simpl.
  apply dict_get_set_eq.
Qed.

Lemma C10_mask_published_under_part_masks_witness :
  ∃ loc m,
    for_each (process_record Examples.env Examples.per_sample_files
                ["sig"; "bkg"] Examples.fresh_with_group_part_masks)
             (Locals [] [] [] []) ["sig"; "bkg"] = Ok loc
    ∧ np_concatenate (masks loc) = Ok m
    ∧ (d ← X (load Examples.env Examples.per_sample_files None
                   Examples.fresh_with_group_part_masks).1;
       dict_get "part_masks" d) = Some (Bool m).
Proof.
  apply (C10_mask_published_under_part_masks
           Examples.env Examples.per_sample_files None
           Examples.fresh_with_group_part_masks _ "sig" Examples.sample3).
  - vm_compute. reflexivity.
  - vm_compute. left.
  - vm_compute. reflexivity.
  - vm_compute. reflexivity.
Defined.

(** The default feature dictionary has no group named [part_masks]. *)
Lemma default_feature_dict_has_no_part_masks :
  dict_get "part_masks" DEFAULT_FEATURE_DICT = None.
Proof. reflexivity. Qed.

(** ** The inner loops as folds *)

Lemma for_each_collect {S B R} (f : S → B → result S) (g : B → result R)
    (h : S → R → S) :
  (∀ st b, f st b = (r ← g b; Ok (h st r))) →
  ∀ l st st',
    for_each f st l = Ok st' →
    ∃ rs, Forall2 (λ b r, g b = Ok r) l rs ∧ st' = foldl h st rs.
Proof.
  intros Hf. induction l as [|b l IH]; intros st st'; simpl.
  - intros [= <-]. exists []. split; [constructor|done].
  - rewrite Hf. destruct (g b) as [r|e] eqn:Hg; simpl; [|done].
    intros Hl. apply IH in Hl as (rs & Hrs & ->).
    exists (r :: rs). split; [by constructor|done].
Qed.

Lemma load_column_collect self arrays jet_key n st c :
  load_column self arrays jet_key n st c
  = (r ← column_arrays self arrays jet_key n c;
     Ok (st.1 ++ [r.1], first_some st.2 r.2)).
Proof.
  destruct st as [fa ma]. unfold load_column, column_arrays.
  destruct (ak_getitem arrays jet_key) as [jet|e]; [|done]. simpl.
  destruct (ak_getitem jet c) as [[xs|xss|k fs]|e]; try done; simpl;
    by destruct ma.
Qed.

Lemma load_jet_collect self arrays columns n st i :
  load_jet self arrays columns n st i
  = (r ← jet_arrays self arrays columns n i;
     Ok (st.1 ++ [r.1], st.2 ++ option_list r.2)).
Proof.
  destruct st as [jf jm]. unfold load_jet, jet_arrays.
  destruct (for_each _ _ _) as [[fa ma]|e]; [|done]. simpl.
  destruct (np_stack_last fa) as [F|e]; [|done]. simpl.
  destruct ma; simpl; [done|by rewrite app_nil_r].
Qed.

Lemma load_feature_type_collect self arrays n st g columns :
  load_feature_type self arrays n st (g, columns)
  = (r ← group_arrays self arrays n columns;
     Ok (dict_append g r.1
           (if dict_in g st.1 then st.1 else dict_set g [] st.1),
         first_some r.2 st.2)).
Proof.
  destruct st as [fs ma]. unfold load_feature_type, group_arrays.
  destruct (for_each _ _ _) as [[jf jm]|e]; [|done]. simpl.
  destruct (np_stack_axis1 jf) as [T|e]; [|done]. simpl.
  destruct jm as [|m0 jm]; [done|].
  destruct (np_stack_masks (m0 :: jm)) as [m|e]; done.
Qed.

Lemma foldl_columns (rs : list (ndarray Qc * option ma_mask_value)) fa ma :
  foldl (λ st r, (st.1 ++ [r.1], first_some st.2 r.2)) (fa, ma) rs
  = (fa ++ rs.*1, foldl first_some ma rs.*2).
Proof.
  revert fa ma. induction rs as [|r rs IH]; intros fa ma; simpl.
  - by rewrite app_nil_r.
  - rewrite IH. by rewrite <- app_assoc.
Qed.

Lemma foldl_jets (rs : list (ndarray Qc * option ma_mask_value)) jf jm :
  foldl (λ st r, (st.1 ++ [r.1], st.2 ++ option_list r.2)) (jf, jm) rs
  = (jf ++ rs.*1, jm ++ omap snd rs).
Proof.
  revert jf jm. induction rs as [|[F mo] rs IH]; intros jf jm; simpl.
  - by rewrite !app_nil_r.
  - rewrite IH. simpl. rewrite <- !app_assoc. by destruct mo.
Qed.

(** ** Shapes *)

Lemma all_shapes_eq_spec {A} (a : ndarray A) arrs :
  all_shapes_eq a arrs = true ↔ ∀ b, b ∈ arrs → shape b = shape a.
Proof.
  unfold all_shapes_eq. rewrite forallb_forall. split.
  - intros H b Hb. apply list_elem_of_In, H in Hb. by apply bool_decide_eq_true in Hb.
  - intros H b Hb. apply bool_decide_eq_true, H. by apply list_elem_of_In.
Qed.

Lemma length_transpose {X} n (xss : list (list X)) :
  length (transpose n xss) = n.
Proof. unfold transpose. by rewrite length_fmap, length_seq. Qed.

Lemma np_stack_last_ok {A} (arrs : list (ndarray A)) F :
  np_stack_last arrs = Ok F →
  ∃ a rest, arrs = a :: rest
            ∧ (∀ b, b ∈ arrs → shape b = shape a)
            ∧ axis0 F = axis0 a
            ∧ inner F = inner a ++ [length arrs].
Proof.
  unfold np_stack_last. destruct arrs as [|a rest]; [done|].
  destruct (all_shapes_eq a (a :: rest)) eqn:Hsh; [|done].
  intros [= <-]. exists a, rest. split_and!; [done| | |done].
  - by apply all_shapes_eq_spec.
  - unfold axis0 at 1. simpl. by rewrite length_fmap, length_transpose.
Qed.

Lemma np_stack_axis1_ok {A} (arrs : list (ndarray A)) T :
  np_stack_axis1 arrs = Ok T →
  ∃ a rest, arrs = a :: rest
            ∧ (∀ b, b ∈ arrs → shape b = shape a)
            ∧ axis0 T = axis0 a
            ∧ inner T = length arrs :: inner a
            ∧ rows T = Ar <$> transpose (axis0 a) (rows <$> arrs).
Proof.
  unfold np_stack_axis1. destruct arrs as [|a rest]; [done|].
  destruct (all_shapes_eq a (a :: rest)) eqn:Hsh; [|done].
  intros [= <-]. exists a, rest. split_and!; [done| | |done|done].
  - by apply all_shapes_eq_spec.
  - unfold axis0 at 1. simpl. by rewrite length_fmap, length_transpose.
Qed.

Lemma shape_eq {A} (a b : ndarray A) :
  shape a = shape b → axis0 a = axis0 b ∧ inner a = inner b.
Proof. unfold shape, axis0. by intros [= -> ->]. Qed.

(** The array of a column has no inner axis when the column is flat
    and one inner axis when it is list-valued; the mask has as many
    rows as the array. *)
Lemma to_numpy_mask_array w padded m :
  to_numpy_mask w padded = MaskArray m →
  m = NDArray ((λ ev, Ar (Sc <$> ma_mask ev)) <$> padded) [w].
Proof.
  unfold to_numpy_mask. destruct (existsb _ _); [|done]. by intros [= <-].
Qed.

Lemma column_arrays_shape self arrays jet_key n c a mo :
  column_arrays self arrays jet_key n c = Ok (a, mo) →
  match mo with
  | None => inner a = []
  | Some v => inner a = [pad_size self]
              ∧ ∀ m, v = MaskArray m →
                     axis0 m = axis0 a ∧ inner m = [pad_size self]
  end.
Proof.
  unfold column_arrays.
  destruct (ak_getitem arrays jet_key) as [jet|e]; [|done]. simpl.
  destruct (ak_getitem jet c) as [[xs|xss|k fs]|e]; try done; simpl.
  - by intros [= <- <-].
  - intros [= <- <-]. split; [done|]. intros m Hm.
    apply to_numpy_mask_array in Hm as ->.
    unfold axis0. simpl. by rewrite !length_fmap.
Qed.

Lemma foldl_first_some_Some {A} (a : A) l : foldl first_some (Some a) l = Some a.
Proof. by induction l. Qed.

Lemma foldl_first_some_None {A} (l : list (option A)) :
  foldl first_some None l = None → ∀ o, o ∈ l → o = None.
Proof.
  induction l as [|[a|] l IH]; simpl.
  - intros _ o Ho. by apply elem_of_nil in Ho.
  - by rewrite foldl_first_some_Some.
  - intros Hl o Ho. apply elem_of_cons in Ho as [->|Ho]; [done|by apply IH].
Qed.

Lemma foldl_first_some_elem {A} (l : list (option A)) a :
  foldl first_some None l = Some a → Some a ∈ l.
Proof.
  induction l as [|[b|] l IH]; simpl; [done| |].
  - rewrite foldl_first_some_Some. intros [= ->]. left.
  - intros Hl. right. by apply IH.
Qed.

Lemma jet_arrays_collect self arrays columns n i F mo :
  jet_arrays self arrays columns n i = Ok (F, mo) →
  ∃ rs, Forall2 (λ c r, column_arrays self arrays ("j" +:+ pretty i) n c = Ok r)
                columns rs
        ∧ np_stack_last rs.*1 = Ok F
        ∧ mo = foldl first_some None rs.*2.
Proof.
  unfold jet_arrays.
  destruct (for_each _ _ _) as [[fa ma]|e] eqn:Hcols; [|done]. simpl.
  destruct (np_stack_last fa) as [F'|e] eqn:HF; [|done]. simpl.
  intros [= <- <-].
  apply (for_each_collect _ _ _ (load_column_collect self arrays _ n))
    in Hcols as (rs & Hrs & Hst).
  rewrite foldl_columns in Hst. injection Hst as -> ->.
  by exists rs.
Qed.

(** The stacked columns of a jet have one inner axis when no column
    is list-valued and two when one is; in the second case the mask of
    the jet has as many rows as the stack. *)
Lemma jet_arrays_shape self arrays columns n i F mo :
  jet_arrays self arrays columns n i = Ok (F, mo) →
  match mo with
  | None => length (inner F) = 1%nat
  | Some v => length (inner F) = 2%nat
              ∧ ∀ m, v = MaskArray m →
                     axis0 m = axis0 F ∧ inner m = [pad_size self]
  end.
Proof.
  intros Hj. apply jet_arrays_collect in Hj as (rs & Hrs & HF & ->).
  apply np_stack_last_ok in HF as (a & rest & Hfa & Hsh & Hax & Hin).
  rewrite Hin, length_app. simpl.
  destruct (foldl first_some None rs.*2) as [v|] eqn:Hm.
  - apply foldl_first_some_elem, list_elem_of_fmap in Hm as ([b mo] & Hmo & Hr).
    simpl in Hmo. subst mo.
    apply list_elem_of_lookup in Hr as [k Hk].
    destruct (Forall2_lookup_r _ _ _ _ _ Hrs Hk) as (c & _ & Hc).
    apply column_arrays_shape in Hc as (Hb & Hmb).
    assert (b ∈ rs.*1) as Hbin.
    { apply list_elem_of_fmap. exists (b, Some v). split; [done|].
      by eapply list_elem_of_lookup_2. }
    apply Hsh, shape_eq in Hbin as [Hb0 Hb1].
    rewrite <- Hb1, Hb. split; [done|]. intros m Hv.
    destruct (Hmb m Hv) as [? ?]. split; [congruence|done].
  - pose proof (foldl_first_some_None _ Hm) as Hnone.
    destruct rs as [|[a' mo'] rs']; [done|].
    simpl in Hfa. injection Hfa as <- _.
    assert (mo' = None) as -> by (apply Hnone; left).
    apply Forall2_cons_inv_r in Hrs as (c & cs & Hc & _ & _).
    apply column_arrays_shape in Hc. by rewrite Hc.
Qed.

Lemma group_arrays_collect self arrays n columns T mo :
  group_arrays self arrays n columns = Ok (T, mo) →
  ∃ rs, Forall2 (λ i r, jet_arrays self arrays columns n i = Ok r)
                (seq 1 (num_jets self)) rs
        ∧ np_stack_axis1 rs.*1 = Ok T
        ∧ match omap snd rs with
          | [] => mo = None
          | jm => ∃ m, np_stack_masks jm = Ok m ∧ mo = Some m
          end.
Proof.
  unfold group_arrays.
  destruct (for_each _ _ _) as [[jf jm]|e] eqn:Hjets; [|done].
  apply (for_each_collect _ _ _ (load_jet_collect self arrays columns n))
    in Hjets as (rs & Hrs & Hst).
  rewrite foldl_jets in Hst. rewrite !app_nil_l in Hst.
  injection Hst as -> ->.
  unfold mbind at 1, result_bind at 1.
  destruct (np_stack_axis1 rs.*1) as [T'|e] eqn:HT; [|done].
  unfold mbind at 1, result_bind at 1.
  destruct (omap snd rs) as [|m0 jm] eqn:Hjm.
  - intros [= <- <-]. exists rs. by rewrite Hjm.
  - destruct (np_stack_masks (m0 :: jm)) as [m|e] eqn:Hm; [|done].
    intros [= <- <-]. exists rs. rewrite Hjm.
    split_and!; [done|done|by exists m].
Qed.

Lemma omap_snd_all_some {A B} (rs : list (A * option B)) :
  (∀ r, r ∈ rs → is_Some r.2) → rs.*2 = Some <$> omap snd rs.
Proof.
  induction rs as [|[a [b|]] rs IH]; intros Hall; simpl; [done| |].
  - f_equal. apply IH. intros r Hr. apply Hall. by right.
  - destruct (Hall (a, None)) as [? ?]; [left|done].
Qed.

Lemma omap_snd_nil {A B} (rs : list (A * option B)) :
  omap snd rs = [] → ∀ r, r ∈ rs → r.2 = None.
Proof.
  induction rs as [|[a [b|]] rs IH]; simpl; [|done|].
  - intros _ r Hr. by apply elem_of_nil in Hr.
  - intros Hnil r Hr. apply elem_of_cons in Hr as [->|Hr]; [done|by apply IH].
Qed.

Lemma elem_of_omap_snd {A B} (rs : list (A * option B)) b :
  b ∈ omap snd rs → ∃ a, (a, Some b) ∈ rs.
Proof.
  intros Hb. apply list_elem_of_omap in Hb as ([a o] & Hr & Ho).
  simpl in Ho. subst o. by exists a.
Qed.

Lemma np_stack_masks_ok masks m :
  np_stack_masks masks = Ok m →
  ∃ arrs, masks = MaskArray <$> arrs ∧ np_stack_axis1 arrs = Ok m.
Proof.
  unfold np_stack_masks.
  destruct (mapM _ masks) as [arrs|] eqn:Hmap; [|done].
  intros Hm. exists arrs. split; [|done].
  apply mapM_Some in Hmap. clear Hm.
  induction Hmap as [|v a vs arrs Hv _ IH]; [done|].
  rewrite fmap_cons, IH. by destruct v; [injection Hv as ->|].
Qed.

(** The tensor of a feature type has two inner axes (jet, column)
    when no jet has a list-valued column, and three (jet, slot,
    column) when one has; in the second case every jet has a mask
    array, and the stacked mask has as many events as the tensor. *)
Lemma group_arrays_shape self arrays n columns T mo :
  group_arrays self arrays n columns = Ok (T, mo) →
  ∃ rs, Forall2 (λ i r, jet_arrays self arrays columns n i = Ok r)
                (seq 1 (num_jets self)) rs
        ∧ np_stack_axis1 rs.*1 = Ok T
        ∧ match mo with
          | None => length (inner T) = 2%nat
          | Some m => length (inner T) = 3%nat ∧ axis0 m = axis0 T
                      ∧ ∃ jm, rs.*2 = (λ a, Some (MaskArray a)) <$> jm
                              ∧ np_stack_axis1 jm = Ok m
          end.
Proof.
  intros Hg. apply group_arrays_collect in Hg as (rs & Hrs & HT & Hmo).
  exists rs. split_and!; [done..|].
  pose proof HT as HT'.
  apply np_stack_axis1_ok in HT' as (F0 & rest & Hjf & Hsh & Hax & Hin & _).
  assert (∀ F mo', (F, mo') ∈ rs →
            match mo' with
            | None => length (inner F) = 1%nat
            | Some v => length (inner F) = 2%nat
                        ∧ ∀ m, v = MaskArray m →
                               axis0 m = axis0 F ∧ inner m = [pad_size self]
            end) as Hjet.
  { intros F mo' Hr. apply list_elem_of_lookup in Hr as [k Hk].
    destruct (Forall2_lookup_r _ _ _ _ _ Hrs Hk) as (i & _ & Hi).
    by apply jet_arrays_shape in Hi. }
  assert (∀ F mo', (F, mo') ∈ rs → axis0 F = axis0 F0 ∧ inner F = inner F0)
    as Hsame.
  { intros F mo' Hr. apply shape_eq, Hsh, list_elem_of_fmap.
    by exists (F, mo'). }
  rewrite Hin. simpl.
  destruct (omap snd rs) as [|v0 jm] eqn:Hjm.
  - subst mo. destruct rs as [|[F mo'] rs']; [done|].
    simpl in Hjf. injection Hjf as <- _.
    assert (mo' = None) as ->.
    { apply (omap_snd_nil _ Hjm (F, mo')). left. }
    specialize (Hjet F None). rewrite Hjet; [done|left].
  - destruct Hmo as (m & Hm & ->).
    destruct (elem_of_omap_snd rs v0) as [F1 HF1]; [rewrite Hjm; left|].
    destruct (Hjet _ _ HF1) as (Hlen1 & Hm0).
    destruct (Hsame _ _ HF1) as [HaxF Hin1].
    assert (∀ r, r ∈ rs → is_Some r.2) as Hall.
    { intros [F [m'|]] Hr; [by eexists|].
      specialize (Hjet _ _ Hr). destruct (Hsame _ _ Hr) as [_ HinF].
      simpl in Hjet. rewrite HinF, <- Hin1, Hlen1 in Hjet. done. }
    apply np_stack_masks_ok in Hm as (arrs & Harrs & Hstack).
    split_and!.
    + by rewrite <- Hin1, Hlen1.
    + pose proof Hstack as Hstack'.
      apply np_stack_axis1_ok in Hstack' as (a1 & ? & Heq & _ & Hax1 & _).
      subst arrs. rewrite fmap_cons in Harrs. injection Harrs as -> _.
      destruct (Hm0 a1 eq_refl) as [? _]. congruence.
    + exists arrs. split; [|done].
      rewrite (omap_snd_all_some rs Hall), Hjm, Harrs.
      by rewrite <- list_fmap_compose.
Qed.

(** ** The mask *)



Lemma omap_lookup_total {A B} (f : A → option B) (l : list A) j :
  (∀ x, x ∈ l → is_Some (f x)) → omap f l !! j = l !! j ≫= f.
Proof.
  revert j. induction l as [|x l IH]; intros j Hall; [done|].
  simpl. destruct (Hall x) as [y Hy]; [left|]. rewrite Hy.
  destruct j as [|j]; simpl; [done|].
  apply IH. intros x' Hx'. apply Hall. by right.
Qed.

(** Row [i] of a stack along axis 1 holds row [i] of every stacked
    array, in order. *)
Lemma np_stack_axis1_lookup {A} (arrs : list (ndarray A)) T a i j x :
  np_stack_axis1 arrs = Ok T →
  arrs !! j = Some a →
  rows a !! i = Some x →
  (r ← rows T !! i; nd_get r j) = Some x.
Proof.
  intros HT Ha Hx.
  apply np_stack_axis1_ok in HT as (a0 & rest & Harrs & Hsh & _ & _ & ->).
  assert (∀ b, b ∈ arrs → axis0 b = axis0 a0) as Hax.
  { intros b Hb. by apply shape_eq, Hsh. }
  assert (i < axis0 a0)%nat as Hi.
  { rewrite <- (Hax a) by by eapply list_elem_of_lookup_2.
    by eapply lookup_lt_Some. }
  unfold transpose. rewrite !list_lookup_fmap, lookup_seq_lt by done.
  simpl. unfold nd_get. simpl.
  rewrite omap_lookup_total.
  - rewrite list_lookup_fmap, Ha. simpl. done.
  - intros rs Hrs. apply list_elem_of_fmap in Hrs as (b & -> & Hb).
    apply lookup_lt_is_Some_2. fold (axis0 b). by rewrite Hax.
Qed.






(** With a pad size of two, the published mask of the events of
    [sig], whose lists have three, one and no elements. *)
Lemma mask_example :
  ∃ m, (d ← X Examples.loaded; dict_get "part_masks" d) = Some (Bool m)
       ∧ take 3 (rows m)
         = [ Ar [Ar [Sc false; Sc false]; Ar [Sc false; Sc false]];
             Ar [Ar [Sc false; Sc true]; Ar [Sc false; Sc true]];
             Ar [Ar [Sc true; Sc true]; Ar [Sc true; Sc true]] ].
Proof. eexists. split; vm_compute; reflexivity. Qed.

(** When no event of a column is shorter than the pad size, nothing is
    padded and the column has no mask array to stack. *)
Lemma mask_example_nothing_padded :
  get_mask_array [Examples.floats [1; 2]; Examples.floats [3; 4; 5]] 2 None
  = NoMask
  ∧ np_stack_masks [NoMask] = Raise NumpyValueError.
Proof. split; vm_compute; reflexivity. Qed.

(** ** Event counts *)

Lemma dict_get_app_r {V} (k : string) (d1 d2 : pydict string V) :
  k ∉ d1.*1 → dict_get k (d1 ++ d2) = dict_get k d2.
Proof.
  induction d1 as [|[k' v'] d1 IH]; [done|]. rewrite fmap_cons.
  intros Hk. apply not_elem_of_cons in Hk as [Hne Hk]. simpl in *.
  rewrite decide_False by done. by apply IH.
Qed.

Lemma dict_set_app_r {V} (k : string) (v : V) (d1 d2 : pydict string V) :
  k ∉ d1.*1 → dict_set k v (d1 ++ d2) = d1 ++ dict_set k v d2.
Proof.
  induction d1 as [|[k' v'] d1 IH]; [done|]. rewrite fmap_cons.
  intros Hk. apply not_elem_of_cons in Hk as [Hne Hk]. simpl in *.
  rewrite decide_False by done. f_equal. by apply IH.
Qed.

Lemma dict_in_false {V} (k : string) (d : pydict string V) :
  k ∉ d.*1 → dict_in k d = false.
Proof.
  intros Hk. unfold dict_in. apply bool_decide_eq_false_2.
  apply dict_get_None in Hk. rewrite Hk. by intros [? ?].
Qed.

(** The first sample creates the entries, in the order of the
    keys. *)
Lemma append_all_fresh d (gts : list (string * ndarray Qc)) :
  NoDup gts.*1 →
  (∀ g, g ∈ gts.*1 → g ∉ d.*1) →
  append_all d gts = d ++ (prod_map id (λ t, [t]) <$> gts).
Proof.
  revert d. induction gts as [|[g t] gts IH]; intros d Hnd Hfresh.
  - by rewrite app_nil_r.
  - rewrite fmap_cons in Hnd. apply NoDup_cons in Hnd as [Hg Hnd].
    simpl in Hg.
    assert (g ∉ d.*1) as Hgd by (apply Hfresh; rewrite fmap_cons; left).
    unfold append_all. simpl. fold (append_all).
    rewrite (dict_in_false _ _ Hgd).
    assert (dict_set g [] d = d ++ [(g, [])]) as ->.
    { rewrite <- (app_nil_r d) at 1. by rewrite dict_set_app_r. }
    unfold dict_append.
    rewrite dict_get_app_r by done. simpl. rewrite decide_True by done.
    simpl. rewrite dict_set_app_r by done. simpl.
    rewrite decide_True by done.
    change (foldl _ ?d0 gts) with (append_all d0 gts).
    rewrite IH; [by rewrite <- app_assoc|done|].
    intros g' Hg'. rewrite fmap_app. simpl.
    rewrite elem_of_app, list_elem_of_singleton.
    intros [Hin| ->]; [|done].
    eapply Hfresh; [|done]. rewrite fmap_cons. by right.
Qed.

(** Every later sample extends the entries in place. *)
Lemma append_all_existing (d1 d2 : pydict string (list (ndarray Qc))) ts :
  NoDup (d1 ++ d2).*1 →
  length ts = length d2 →
  append_all (d1 ++ d2) (zip d2.*1 ts)
  = d1 ++ zip_with (λ gl t, (gl.1, gl.2 ++ [t])) d2 ts.
Proof.
  revert d1 ts. induction d2 as [|[g l] d2 IH]; intros d1 ts Hnd Hlen.
  - by destruct ts.
  - destruct ts as [|t ts]; [done|]. simpl in Hlen.
    rewrite fmap_app, fmap_cons in Hnd. simpl in Hnd.
    pose proof Hnd as Hnd'.
    apply NoDup_app in Hnd' as (_ & Hdisj & _).
    assert (g ∉ d1.*1) as Hg1.
    { intros Hin. apply (Hdisj g Hin). left. }
    unfold append_all. simpl.
    assert (dict_in g (d1 ++ (g, l) :: d2) = true) as ->.
    { unfold dict_in. apply bool_decide_eq_true_2.
      rewrite dict_get_app_r by done. simpl. rewrite decide_True by done.
      by eexists. }
    unfold dict_append.
    rewrite dict_get_app_r by done. simpl. rewrite decide_True by done.
    simpl. rewrite dict_set_app_r by done. simpl.
    rewrite decide_True by done.
    change (foldl _ ?d0 (zip d2.*1 ts)) with (append_all d0 (zip d2.*1 ts)).
    rewrite (cons_middle (g, l ++ [t]) d1 d2), app_assoc.
    rewrite IH; [by rewrite <- app_assoc| |lia].
    rewrite <- app_assoc. simpl.
    rewrite fmap_app, fmap_cons. done.
Qed.

(** The feature-type loop of one sample as a fold: the tensors are
    appended to the dictionary, and the mask that survives is that of
    the last feature type that has one. *)
Lemma feature_types_collect self arrays n fd fs ma fs' ma' :
  for_each (load_feature_type self arrays n) (fs, ma) fd = Ok (fs', ma') →
  ∃ rs, Forall2 (λ entry r, group_arrays self arrays n entry.2 = Ok r) fd rs
        ∧ fs' = append_all fs (zip fd.*1 rs.*1)
        ∧ ma' = foldl (λ ma mo, first_some mo ma) ma rs.*2.
Proof.
  revert fs ma. induction fd as [|[g columns] fd IH]; intros fs ma.
  - simpl. intros [= <- <-]. exists []. split; [constructor|done].
  - rewrite for_each_cons, load_feature_type_collect.
    destruct (group_arrays self arrays n columns) as [[t mo]|e] eqn:Hg;
      [|done].
    simpl. intros Hrest. apply IH in Hrest as (rs & Hrs & -> & ->).
    exists ((t, mo) :: rs). split; [by constructor|done].
Qed.



Lemma transpose_singleton {X} (xs : list X) :
  transpose (length xs) [xs] = (λ x, [x]) <$> xs.
Proof.
  unfold transpose. apply list_eq. intros i.
  rewrite !list_lookup_fmap.
  destruct (decide (i < length xs)%nat) as [Hlt|Hge].
  - rewrite lookup_seq_lt by done. simpl.
    destruct (lookup_lt_is_Some_2 xs i Hlt) as [x ->]. done.
  - rewrite lookup_seq_ge by lia.
    by rewrite lookup_ge_None_2 by lia.
Qed.

Lemma transpose_snoc {X} n (xss : list (list X)) (xs : list X) :
  length xs = n →
  transpose n (xss ++ [xs])
  = zip_with (λ l x, l ++ [x]) (transpose n xss) xs.
Proof.
  intros Hlen. unfold transpose. apply list_eq. intros i.
  rewrite lookup_zip_with, !list_lookup_fmap.
  destruct (decide (i < n)%nat) as [Hlt|Hge].
  - rewrite lookup_seq_lt by done. simpl.
    destruct (lookup_lt_is_Some_2 xs i ltac:(lia)) as [x Hx]. rewrite Hx.
    simpl. rewrite omap_app. simpl. by rewrite Hx.
  - by rewrite lookup_seq_ge by lia.
Qed.

Lemma zip_fst_length {A B} (l : list A) (k : list B) :
  length l = length k → (zip l k).*1 = l.
Proof. intros Hlen. apply fst_zip. lia. Qed.

Lemma zip_with_zip_snoc {K X} (keys : list K) (ls : list (list X)) ts :
  zip_with (λ gl t, (gl.1, gl.2 ++ [t])) (zip keys ls) ts
  = zip keys (zip_with (λ l x, l ++ [x]) ls ts).
Proof.
  revert ls ts. induction keys as [|k keys IH]; intros [|l ls] [|t ts];
    simpl; try done.
  by rewrite IH.
Qed.

Lemma zip_fmap_singleton {K X} (keys : list K) (ts : list X) :
  prod_map id (λ t, [t]) <$> zip keys ts = zip keys ((λ t, [t]) <$> ts).
Proof.
  revert ts. induction keys as [|k keys IH]; intros [|t ts]; simpl; try done.
  by rewrite <- IH.
Qed.

(** One more sample in the view is one more tensor in every entry of
    the dictionary. *)
Lemma table_snoc keys view ts mo :
  NoDup keys →
  Forall (λ v, length v.1 = length keys) view →
  length ts = length keys →
  append_all (table keys view) (zip keys ts) = table keys (view ++ [(ts, mo)]).
Proof.
  intros Hnd Hview Hlen. unfold table.
  destruct view as [|v view].
  - simpl. rewrite append_all_fresh.
    + simpl. by rewrite <- Hlen, transpose_singleton, zip_fmap_singleton.
    + by rewrite zip_fst_length.
    + intros g _ Hg. by apply elem_of_nil in Hg.
  - destruct (_ ++ _) as [|v' view'] eqn:Hv; [by destruct view|].
    rewrite <- Hv. clear Hv.
    rewrite fmap_app. change ([(ts, mo)].*1) with [ts].
    rewrite transpose_snoc by done.
    set (ls := transpose (length keys) (v :: view).*1).
    assert (length ls = length keys) as Hls by apply length_transpose.
    pose proof (append_all_existing [] (zip keys ls) ts) as Happ.
    rewrite zip_fst_length in Happ by done. simpl in Happ.
    rewrite Happ.
    + apply zip_with_zip_snoc.
    + by rewrite zip_fst_length.
    + rewrite length_zip. lia.
Qed.



Lemma length_concat_rows {A} (arrs : list (ndarray A)) :
  length (concat (rows <$> arrs)) = sum_list (axis0 <$> arrs).
Proof.
  induction arrs as [|a arrs IH]; [done|].
  rewrite !fmap_cons. simpl. by rewrite length_app, IH.
Qed.

Lemma np_concatenate_ok {A} (arrs : list (ndarray A)) c :
  np_concatenate arrs = Ok c →
  ∃ a rest, arrs = a :: rest
            ∧ (∀ b, b ∈ arrs → inner b = inner a)
            ∧ axis0 c = sum_list (axis0 <$> arrs).
Proof.
  unfold np_concatenate. destruct arrs as [|a rest]; [done|].
  destruct (forallb _ _) eqn:Hall; [|done]. intros [= <-].
  exists a, rest. split_and!; [done| |].
  - intros b Hb. rewrite forallb_forall in Hall.
    apply list_elem_of_In, Hall in Hb. by apply bool_decide_eq_true in Hb.
  - exact (length_concat_rows (a :: rest)).
Qed.

Lemma concatenate_features_ok features fs sizes :
  concatenate_features features = Ok (fs, sizes) →
  Forall2 (λ gl ga, ga.1 = gl.1 ∧ np_concatenate gl.2 = Ok ga.2) features fs
  ∧ sizes = axis0 <$> fs.*2.
Proof.
  unfold concatenate_features.
  assert (∀ out szs,
            for_each (λ '(out, sizes) '(feature_type, arrs),
                        a ← np_concatenate arrs;
                        Ok (out ++ [(feature_type, a)], sizes ++ [axis0 a]))
                     (out, szs) features = Ok (fs, sizes) →
            ∃ fs', fs = out ++ fs' ∧ sizes = szs ++ (axis0 <$> fs'.*2)
                   ∧ Forall2 (λ gl ga, ga.1 = gl.1
                                       ∧ np_concatenate gl.2 = Ok ga.2)
                             features fs') as Hgen.
  { induction features as [|[g l] features IH]; intros out szs.
    - simpl. intros [= <- <-]. exists []. by rewrite !app_nil_r.
    - rewrite for_each_cons.
      destruct (np_concatenate l) as [a|e] eqn:Ha; [|done]. simpl.
      intros Hrest. apply IH in Hrest as (fs' & -> & -> & Hall).
      exists ((g, a) :: fs'). rewrite <- !app_assoc. split_and!; [done..|].
      by constructor. }
  intros H. apply Hgen in H as (fs' & -> & -> & Hall). done.
Qed.











(** With an override of five for the three events of [sig], the
    labels count seven events and the features five: [load] raises. *)
Lemma event_counts_example :
  (load Examples.env Examples.per_sample_files None
        (Examples.fresh (Some {[ "sig" := 5 ]}) false)).2
  = Raise InconsistentFeatureLabelSizes
  ∧ is_inconsistent_sample_size InconsistentFeatureLabelSizes = true.
Proof. split; [vm_compute; reflexivity|done]. Qed.

(** ** The shuffle branch, when it is reached *)

Lemma gather_ok {X} (l : list X) index :
  Forall (λ i, (i < length l)%nat) index → ∃ l', gather l index = Ok l'.
Proof.
  intros Hall. unfold gather.
  assert (is_Some (mapM (λ i, l !! i) index)) as [l' ->]; [|by exists l'].
  apply mapM_is_Some. eapply Forall_impl; [exact Hall|].
  intros i Hi. by apply lookup_lt_is_Some_2.
Qed.

Lemma shuffle_events_unbound_local env self size0 fs ls ms :
  shuffle_in_range env →
  (∀ p, p ∈ fs → axis0 p.2 = size0) →
  length ls = size0 →
  shuffle_events env self size0 fs ls ms = Raise (UnboundLocalError "weights").
Proof.
  intros Hrange Hfs Hls. unfold shuffle_events.
  set (index := np_random_shuffle env (seed self) size0).
  assert (∀ out, ∃ fs',
            for_each (λ out '(feature_type, a),
                        a' ← take_rows a index;
                        Ok (out ++ [(feature_type, a')])) out fs = Ok fs')
    as Hloop.
  { induction fs as [|[g a] fs IH]; intros out; [by exists out|].
    rewrite for_each_cons. unfold take_rows.
    destruct (gather_ok (rows a) index) as [r ->].
    { specialize (Hfs (g, a) ltac:(left)). simpl in Hfs.
      unfold axis0 in Hfs. rewrite Hfs. apply Hrange. }
    simpl. apply IH. intros p Hp. apply Hfs. by right. }
  destruct (Hloop []) as [fs' ->]. simpl.
  destruct (gather_ok ls index) as [ls' ->]; [|done].
  rewrite Hls. apply Hrange.
Qed.

(** When the same call goes through with [shuffle] off, so that the
    call with [shuffle] on gets as far as the shuffle, the exception
    is the read of [weights] at l.191. *)
Lemma load_with_shuffle_unbound_local env filenames samples self :
  shuffle self = true →
  shuffle_in_range env →
  is_ok (load env filenames samples (with_shuffle false self)).2 = true →
  (load env filenames samples self).2 = Raise (UnboundLocalError "weights").
Proof.
  intros Hsh Hrange Hoff.
  pose proof (load_load_result env filenames samples (with_shuffle false self))
    as Hres_off.
  pose proof (load_load_result env filenames samples self) as Hres.
  unfold load_result in Hres_off, Hres.
  change (label_map (with_shuffle false self)) with (label_map self)
    in Hres_off.
  change (process_record env filenames
            (default (dict_keys (label_map self)) samples)
            (with_shuffle false self))
    with (process_record env filenames
            (default (dict_keys (label_map self)) samples) self) in Hres_off.
  destruct (for_each _ _ _) as [loc|e]; simpl in Hres_off, Hres.
  2:{ rewrite Hres_off in Hoff. done. }
  destruct (combine env (with_shuffle false self) loc) as [[[f l] w]|e] eqn:Hc.
  2:{ rewrite Hres_off in Hoff. done. }
  apply combine_ok in Hc
    as (fs & size0 & rest & ms & Hcat & Hsizes & Hlab & Hsize0 & Hms & _).
  assert (combine env self loc = Raise (UnboundLocalError "weights")) as Hon.
  { unfold combine. rewrite Hcat. simpl.
    destruct (labels loc) as [|lab labs] eqn:Hl; [done|].
    simpl np_concatenate1. cbn [mbind result_bind].
    assert (size (list_to_set (size0 :: rest) : gset nat) = 1%nat) as Hone.
    { assert ((list_to_set (size0 :: rest) : gset nat) = {[ size0 ]}) as ->;
        [|apply size_singleton].
      apply set_eq. intros n. rewrite elem_of_list_to_set, elem_of_singleton.
      split; [apply Hsizes|intros ->; left]. }
    rewrite (bool_decide_eq_true_2 _ Hone). simpl negb. cbn iota.
    rewrite (bool_decide_eq_true_2 _ Hsize0). simpl negb. cbn iota.
    apply concatenate_features_ok in Hcat as [_ Hsz].
    assert (∀ p, p ∈ fs → axis0 p.2 = size0) as Hfs.
    { intros p Hp. apply Hsizes. rewrite Hsz.
      apply list_elem_of_fmap. exists p.2. split; [done|].
      apply list_elem_of_fmap. by exists p. }
    destruct (masks loc) as [|m0 ms0].
    - simpl. rewrite Hsh.
      by rewrite (shuffle_events_unbound_local env self size0 fs _ None).
    - destruct Hms as (m & -> & Hm & _). simpl.
      rewrite (bool_decide_eq_true_2 _ Hm). simpl. rewrite Hsh.
      by rewrite (shuffle_events_unbound_local env self size0 fs _ (Some m)). }
  rewrite Hon in Hres. exact Hres.
Qed.

Lemma shuffle_in_range_example : shuffle_in_range Examples.env.
Proof.
  intros seed n. simpl. apply Forall_forall. intros i Hi.
  apply elem_of_reverse, elem_of_seq in Hi. lia.
Qed.

Lemma shuffle_reached_example :
  (load Examples.env Examples.per_sample_files None
        (Examples.fresh None true)).2
  = Raise (UnboundLocalError "weights").
Proof.
  apply load_with_shuffle_unbound_local;
    [done|apply shuffle_in_range_example|vm_compute; reflexivity].
Qed.

(** * Further properties of the module *)

(** ** Class labels *)

Lemma add_labels_fresh class_value label_map label :
  label ∉ label_map.*1 →
  add_labels class_value label_map label
  = Ok (label_map ++ [(label, class_value)]).
Proof.
  intros Hl. unfold add_labels. rewrite (dict_in_false _ _ Hl).
  rewrite <- (app_nil_r label_map) at 1. by rewrite dict_set_app_r.
Qed.

Lemma add_labels_known class_value label_map label :
  label ∈ label_map.*1 →
  add_labels class_value label_map label = Raise (LabelInMultipleClasses label).
Proof.
  intros Hl. unfold add_labels, dict_in.
  rewrite bool_decide_eq_true_2; [done|].
  destruct (dict_get label label_map) eqn:Hg; [by eexists|].
  by apply dict_get_None in Hg.
Qed.

(** The two nested loops of [set_class_labels] are one loop over the
    pairs. *)
Lemma build_label_map_pairs class_labels m0 :
  for_each (λ label_map '(class_value, labels),
              for_each (add_labels class_value) label_map labels)
           m0 class_labels
  = for_each (λ label_map p, add_labels p.2 label_map p.1) m0
             (label_pairs class_labels).
Proof.
  revert m0. induction class_labels as [|[c ls] cl IH]; intros m0; [done|].
  rewrite for_each_cons.
  change (label_pairs ((c, ls) :: cl))
    with (((λ label, (label, c)) <$> ls) ++ label_pairs cl).
  rewrite for_each_app.
  assert (for_each (add_labels c) m0 ls
          = for_each (λ label_map p, add_labels p.2 label_map p.1) m0
                     ((λ label, (label, c)) <$> ls)) as <-.
  { clear IH. revert m0. induction ls as [|l ls IHl]; intros m0; [done|].
    rewrite fmap_cons, !for_each_cons. simpl.
    destruct (add_labels c m0 l) as [m1|e]; [apply IHl|done]. }
  destruct (for_each (add_labels c) m0 ls) as [m1|e]; [apply IH|done].
Qed.

Lemma label_pairs_keys class_labels :
  (label_pairs class_labels).*1 = concat class_labels.*2.
Proof.
  induction class_labels as [|[c ls] cl IH]; [done|].
  change (label_pairs ((c, ls) :: cl))
    with (((λ label, (label, c)) <$> ls) ++ label_pairs cl).
  rewrite fmap_app, IH, fmap_cons. simpl. f_equal.
  rewrite <- list_fmap_compose. by rewrite list_fmap_id.
Qed.

Lemma label_loop_ok pairs m0 m :
  for_each (λ label_map p, add_labels p.2 label_map p.1) m0 pairs = Ok m →
  NoDup m0.*1 →
  m = m0 ++ pairs ∧ NoDup m.*1.
Proof.
  revert m0. induction pairs as [|[l c] pairs IH]; intros m0.
  - simpl. intros [= <-] Hnd. by rewrite app_nil_r.
  - rewrite for_each_cons. simpl.
    destruct (decide (l ∈ m0.*1)) as [Hin|Hout].
    + by rewrite add_labels_known.
    + rewrite add_labels_fresh by done. intros Hrest Hnd.
      apply IH in Hrest as [-> Hnd'].
      * split; [by rewrite <- app_assoc|done].
      * rewrite fmap_app. apply NoDup_app. split_and!; [done| |].
        -- intros x Hx Hx'. apply list_elem_of_singleton in Hx'. by subst.
        -- apply NoDup_singleton.
Qed.

Lemma label_loop_raise pairs m0 pre label post :
  pairs.*1 = pre ++ label :: post →
  NoDup (m0.*1 ++ pre) →
  label ∈ m0.*1 ++ pre →
  for_each (λ label_map p, add_labels p.2 label_map p.1) m0 pairs
  = Raise (LabelInMultipleClasses label).
Proof.
  revert pairs m0. induction pre as [|x pre IH]; intros pairs m0 Hk Hnd Hin.
  - destruct pairs as [|[l c] pairs]; [done|].
    rewrite fmap_cons in Hk. simpl in Hk. injection Hk as -> _.
    rewrite app_nil_r in Hin. rewrite for_each_cons. simpl.
    by rewrite add_labels_known.
  - destruct pairs as [|[l c] pairs]; [done|].
    rewrite fmap_cons in Hk. simpl in Hk. injection Hk as -> Hk.
    rewrite for_each_cons. simpl.
    assert (x ∉ m0.*1) as Hx.
    { apply NoDup_app in Hnd as (_ & Hdisj & _). intros Hx.
      apply (Hdisj x Hx). left. }
    rewrite add_labels_fresh by done.
    apply (IH pairs (m0 ++ [(x, c)]) Hk).
    + rewrite fmap_app, <- app_assoc. done.
    + rewrite fmap_app, <- app_assoc. done.
Qed.

Lemma dict_get_elem_NoDup {V} (k : string) (v : V) (d : pydict string V) :
  NoDup d.*1 → (k, v) ∈ d → dict_get k d = Some v.
Proof.
  induction d as [|[k' v'] d IH]; intros Hnd Hin.
  - by apply elem_of_nil in Hin.
  - rewrite fmap_cons in Hnd. apply NoDup_cons in Hnd as [Hk' Hnd].
    simpl in *. apply elem_of_cons in Hin as [[= -> ->]|Hin].
    + by rewrite decide_True.
    + rewrite decide_False; [by apply IH|].
      intros ->. apply Hk'. apply list_elem_of_fmap. by exists (k', v).
Qed.

(** X1.  When [set_class_labels] goes through, the keys of the label
    map are the labels of [class_labels] in the order in which they are
    listed, no label is listed twice, and every label is mapped to the
    class value it is listed under. *)
Theorem X1_label_map_of_class_labels class_labels label_map :
  build_label_map class_labels = Ok label_map →
  dict_keys label_map = concat class_labels.*2
  ∧ NoDup (concat class_labels.*2)
  ∧ ∀ class_value labels label,
      (class_value, labels) ∈ class_labels → label ∈ labels →
      dict_get label label_map = Some class_value.
Proof.
  unfold build_label_map. rewrite build_label_map_pairs. intros Hm.
  apply label_loop_ok in Hm as [-> Hnd]; [|apply NoDup_nil_2].
  rewrite app_nil_l in *. unfold dict_keys.
  rewrite <- label_pairs_keys. split_and!; [done..|].
  intros c ls l Hc Hl. apply dict_get_elem_NoDup; [done|].
  unfold label_pairs. apply list_elem_of_bind. exists (c, ls).
  split; [|done]. apply list_elem_of_fmap. by exists l.
Qed.

Lemma X1_label_map_of_class_labels_witness :
  dict_keys Examples.label_map = concat Examples.class_labels.*2
  ∧ NoDup (concat Examples.class_labels.*2)
  ∧ ∀ class_value labels label,
      (class_value, labels) ∈ Examples.class_labels → label ∈ labels →
      dict_get label Examples.label_map = Some class_value.
Proof.
  apply (X1_label_map_of_class_labels Examples.class_labels Examples.label_map).
  reflexivity.
Defined.

(** X2.  When a label is listed a second time, in the same class or in
    another, [set_class_labels] raises the "defined in multiple
    classes" error for the first label that repeats, and so does
    [__init__], whatever the files are: nothing is loaded. *)
Theorem X2_repeated_label_raises
    env filenames feature_dict class_labels samples sample_sizes
    num_jets pad_size shuffle seed pre label post :
  concat class_labels.*2 = pre ++ label :: post →
  NoDup pre →
  label ∈ pre →
  build_label_map class_labels = Raise (LabelInMultipleClasses label)
  ∧ __init__ env filenames feature_dict class_labels samples sample_sizes
             num_jets pad_size shuffle seed
    = Raise (LabelInMultipleClasses label).
Proof.
  intros Hk Hnd Hin.
  assert (build_label_map class_labels = Raise (LabelInMultipleClasses label))
    as Hb.
  { unfold build_label_map. rewrite build_label_map_pairs.
    apply (label_loop_raise _ [] pre label post); [|done..].
    by rewrite label_pairs_keys. }
  split; [done|]. unfold __init__. by rewrite Hb.
Qed.

Lemma X2_repeated_label_raises_witness :
  build_label_map [(1, ["sig"; "sig"])] = Raise (LabelInMultipleClasses "sig")
  ∧ __init__ Examples.env Examples.per_sample_files Examples.pt_only
             [(1, ["sig"; "sig"])] None None 2 2 false 2023
    = Raise (LabelInMultipleClasses "sig").
Proof.
  apply (X2_repeated_label_raises Examples.env Examples.per_sample_files
           Examples.pt_only [(1, ["sig"; "sig"])] None None 2%nat 2%nat false
           2023 ["sig"] "sig" []).
  - reflexivity.
  - apply NoDup_singleton.
  - left.
Defined.

(** ** What [load] reads and what it leaves alone *)

(** X3.  [load] never changes the configuration of the object: the
    class labels, the label map, the feature dictionary, the size
    overrides, the number of jets, the pad size, the shuffle flag and
    the seed are after the call what they were before it, whether the
    call returns or raises. *)
Theorem X3_load_keeps_configuration env filenames samples self :
  configuration (load env filenames samples self).1 = configuration self.
Proof.
  rewrite load_unfold.
  destruct (sample_loop_state env filenames
              (default (dict_keys (label_map self)) samples)
              (Locals [] [] [] []) (with_cache None None self)) as (a & b & Hs).
  destruct (for_eachM _ _ _ _) as [self1 [loc|e]]; simpl in Hs; subst self1;
    [|done].
  by destruct (combine _ _ _) as [[[f l] w]|e].
Qed.

(** [load] clears the cache first, so what the cache held does not
    matter. *)
Lemma load_with_cache env filenames samples a b self :
  load env filenames samples (with_cache a b self)
  = load env filenames samples self.
Proof. by rewrite !load_unfold. Qed.

Lemma _load_sample_data_with_published env filenames sample p self :
  _load_sample_data env filenames sample (with_published p self)
  = (with_published p (_load_sample_data env filenames sample self).1,
     (_load_sample_data env filenames sample self).2).
Proof.
  destruct filenames as [path|paths|]; simpl; [| |done].
  - unfold mbind, M_bind, get_self, lift, raise, mret, M_ret; simpl.
    destruct (cache_arrays self) as [cached|].
    + by case_bool_decide.
    + destruct (_load_file env path) as [file|e]; simpl; [|done].
      by destruct (ak_getitem file sample) as [sub|e].
  - destruct (paths !! sample) as [path|]; [|done].
    unfold mbind, M_bind, lift; simpl.
    by destruct (_load_file env path) as [file|e].
Qed.

Lemma process_sample_with_published env filenames loc sample p self :
  process_sample env filenames loc sample (with_published p self)
  = (with_published p (process_sample env filenames loc sample self).1,
     (process_sample env filenames loc sample self).2).
Proof.
  rewrite !process_sample_unfold.
  change (label_map (with_published p self)) with (label_map self).
  destruct (dict_get sample (label_map self)) as [class_val|]; [|done].
  rewrite _load_sample_data_with_published.
  destruct (_load_sample_data env filenames sample self) as [self1 [[]|e]];
    [|done].
  simpl. by destruct (cache_sample_arrays self1).
Qed.

Lemma sample_loop_with_published env filenames samples loc p self :
  for_eachM (process_sample env filenames) loc samples (with_published p self)
  = (with_published p
       (for_eachM (process_sample env filenames) loc samples self).1,
     (for_eachM (process_sample env filenames) loc samples self).2).
Proof.
  revert loc self. induction samples as [|s samples IH]; intros loc self;
    [done|].
  rewrite !for_eachM_cons, process_sample_with_published.
  destruct (process_sample env filenames loc s self) as [self1 [loc1|e]];
    [|done].
  simpl. apply IH.
Qed.

(** What was published before matters to a call of [load] only when
    the call raises, and then only because it is left in place. *)
Lemma load_with_published env filenames samples p self :
  load env filenames samples (with_published p self)
  = match (load env filenames samples self).2 with
    | Ok _ => load env filenames samples self
    | Raise e =>
        (with_published p (load env filenames samples self).1, Raise e)
    end.
Proof.
  rewrite !load_unfold.
  change (with_cache None None (with_published p self))
    with (with_published p (with_cache None None self)).
  change (label_map (with_published p self)) with (label_map self).
  rewrite sample_loop_with_published.
  destruct (for_eachM _ _ _ (with_cache None None self)) as [self1 [loc|e]];
    [|done].
  simpl.
  change (combine env (with_published p self1) loc)
    with (combine env self1 loc).
  by destruct (combine env self1 loc) as [[[f l] w]|e].
Qed.

Lemma same_configuration self1 self2 :
  configuration self1 = configuration self2 →
  self2 = with_published (published self2)
            (with_cache (cache_arrays self2) (cache_sample_arrays self2) self1).
Proof.
  destruct self1, self2. unfold configuration. simpl.
  intros [= -> -> -> -> -> -> -> ->]. done.
Qed.

(** X4.  The outcome of [load] depends on the configuration only.  On
    two objects with the same configuration, whatever they have
    published and whatever their caches hold, [load] returns or raises
    the same, leaves the same cache, and, when it returns, publishes
    the same dataset. *)
Theorem X4_load_depends_on_configuration_only
    env filenames samples self1 self2 :
  configuration self1 = configuration self2 →
  (load env filenames samples self1).2 = (load env filenames samples self2).2
  ∧ cache_arrays (load env filenames samples self1).1
    = cache_arrays (load env filenames samples self2).1
  ∧ cache_sample_arrays (load env filenames samples self1).1
    = cache_sample_arrays (load env filenames samples self2).1
  ∧ ((load env filenames samples self1).2 = Ok () →
     load env filenames samples self1 = load env filenames samples self2).
Proof.
  intros Hc. rewrite (same_configuration self1 self2 Hc).
  rewrite load_with_published, load_with_cache.
  destruct (load env filenames samples self1) as [self' [[]|e]]; simpl; done.
Qed.

Lemma X4_load_depends_on_configuration_only_witness :
  (load Examples.env Examples.per_sample_files None (Examples.fresh None false)).2
  = (load Examples.env Examples.per_sample_files None Examples.loaded).2
  ∧ cache_arrays
      (load Examples.env Examples.per_sample_files None
            (Examples.fresh None false)).1
    = cache_arrays
        (load Examples.env Examples.per_sample_files None Examples.loaded).1
  ∧ cache_sample_arrays
      (load Examples.env Examples.per_sample_files None
            (Examples.fresh None false)).1
    = cache_sample_arrays
        (load Examples.env Examples.per_sample_files None Examples.loaded).1
  ∧ ((load Examples.env Examples.per_sample_files None
           (Examples.fresh None false)).2 = Ok () →
     load Examples.env Examples.per_sample_files None (Examples.fresh None false)
     = load Examples.env Examples.per_sample_files None Examples.loaded).
Proof.
  apply (X4_load_depends_on_configuration_only Examples.env
           Examples.per_sample_files None (Examples.fresh None false)
           Examples.loaded).
  reflexivity.
Defined.

Lemma load_ok_published_form env filenames samples self self' :
  load env filenames samples self = (self', Ok ()) →
  self' = with_published (published self') (with_cache None None self).
Proof.
  rewrite load_unfold.
  destruct (sample_loop_state env filenames
              (default (dict_keys (label_map self)) samples)
              (Locals [] [] [] []) (with_cache None None self)) as (a & b & Hs).
  destruct (for_eachM _ _ _ _) as [self1 [loc|e]]; simpl in Hs; subst self1;
    [|done].
  destruct (combine _ _ _) as [[[f l] w]|e]; [|done].
  by intros [= <-].
Qed.



(** ** Errors of the sample loop *)

(** X6.  With no sample to load, an empty [samples] list or no class
    label at all, [load] does not publish an empty dataset: whatever
    [filenames] is, it raises the error of [np.concatenate] on the
    empty list of labels (l.174), with the cache cleared and nothing
    else touched. *)
Theorem X6_load_without_samples_raises env filenames samples self :
  default (dict_keys (label_map self)) samples = [] →
  load env filenames samples self
  = (with_cache None None self, Raise NumpyValueError).
Proof. intros Hs. rewrite load_unfold, Hs. done. Qed.

Lemma X6_load_without_samples_raises_witness :
  load Examples.env FOther (Some []) Examples.loaded
  = (with_cache None None Examples.loaded, Raise NumpyValueError).
Proof.
  apply (X6_load_without_samples_raises Examples.env FOther (Some [])
           Examples.loaded).
  reflexivity.
Defined.

(** Without class labels there is no sample, so [__init__] raises. *)
Lemma init_without_class_labels env filenames feature_dict sample_sizes
    num_jets pad_size shuffle seed :
  __init__ env filenames feature_dict [] None sample_sizes num_jets pad_size
           shuffle seed
  = Raise NumpyValueError.
Proof. done. Qed.

(** The round of the sample loop that raises decides what [load]
    raises. *)
Lemma load_raises_at env filenames samples self done_s s rest_s loc e :
  default (dict_keys (label_map self)) samples = done_s ++ s :: rest_s →
  for_each (process_record env filenames (done_s ++ s :: rest_s) self)
           (Locals [] [] [] []) done_s = Ok loc →
  process_record env filenames (done_s ++ s :: rest_s) self loc s = Raise e →
  (load env filenames samples self).2 = Raise e
  ∧ published (load env filenames samples self).1 = published self.
Proof.
  intros Hs Hdone Hp.
  pose proof (load_load_result env filenames samples self) as Hl.
  unfold load_result in Hl. rewrite Hs in Hl.
  rewrite for_each_app, Hdone in Hl. simpl in Hl. rewrite Hp in Hl.
  split; [done|].
  destruct (load env filenames samples self) as [self' r] eqn:Hload.
  simpl in Hl. subst r. by eapply load_raise_published.
Qed.

(** X7.  A sample of the [samples] list that has no class value makes
    [load] raise the "no class value defined" error for that sample
    once the samples before it have been prepared, whatever [filenames]
    is and whatever the files hold; what was published stays. *)
Theorem X7_sample_without_class_value_raises
    env filenames samples self done_s s rest_s loc :
  default (dict_keys (label_map self)) samples = done_s ++ s :: rest_s →
  for_each (process_record env filenames (done_s ++ s :: rest_s) self)
           (Locals [] [] [] []) done_s = Ok loc →
  dict_get s (label_map self) = None →
  (load env filenames samples self).2 = Raise (NoClassValue s)
  ∧ published (load env filenames samples self).1 = published self.
Proof.
  intros Hs Hdone Hcv. eapply load_raises_at; [done..|].
  unfold process_record. by rewrite Hcv.
Qed.

Lemma X7_sample_without_class_value_raises_witness :
  (load Examples.env Examples.per_sample_files (Some ["sig"; "other"])
        Examples.loaded).2 = Raise (NoClassValue "other")
  ∧ published (load Examples.env Examples.per_sample_files
                    (Some ["sig"; "other"]) Examples.loaded).1
    = published Examples.loaded.
Proof.
  eapply (X7_sample_without_class_value_raises Examples.env
            Examples.per_sample_files (Some ["sig"; "other"]) Examples.loaded
            ["sig"] "other" []).
  - reflexivity.
  - vm_compute. reflexivity.
  - reflexivity.
Defined.

(** X8.  With a dictionary of paths, a sample that has a class value
    but no entry in the dictionary makes [load] raise the "no input
    file specified" error for that sample once the samples before it
    have been prepared; what was published stays. *)
Theorem X8_sample_without_input_file_raises
    env paths samples self done_s s rest_s loc :
  default (dict_keys (label_map self)) samples = done_s ++ s :: rest_s →
  for_each (process_record env (FDict paths) (done_s ++ s :: rest_s) self)
           (Locals [] [] [] []) done_s = Ok loc →
  is_Some (dict_get s (label_map self)) →
  paths !! s = None →
  (load env (FDict paths) samples self).2 = Raise (NoInputFile s)
  ∧ published (load env (FDict paths) samples self).1 = published self.
Proof.
  intros Hs Hdone [cv Hcv] Hpath. eapply load_raises_at; [done..|].
  unfold process_record. rewrite Hcv. simpl. by rewrite Hpath.
Qed.

Lemma X8_sample_without_input_file_raises_witness :
  (load Examples.env (FDict {[ "sig" := "sig.parquet" ]}) None
        (Examples.fresh None false)).2 = Raise (NoInputFile "bkg")
  ∧ published (load Examples.env (FDict {[ "sig" := "sig.parquet" ]}) None
                    (Examples.fresh None false)).1
    = published (Examples.fresh None false).
Proof.
  eapply (X8_sample_without_input_file_raises Examples.env
            {[ "sig" := "sig.parquet" ]} None (Examples.fresh None false)
            ["sig"] "bkg" []).
  - reflexivity.
  - vm_compute. reflexivity.
  - by eexists.
  - reflexivity.
Defined.

Lemma ak_getitem_not_field file key :
  key ∉ ak_fields file → ak_getitem file key = Raise (FieldNotFound key).
Proof.
  destruct file as [xs|xss|n fs]; simpl; [done|done|].
  intros Hk. apply dict_get_None in Hk. by rewrite Hk.
Qed.

(** X9.  With one combined file, a sample that has a class value but
    is not a field of the file is reported in two ways.  When it is
    the first sample of the list, the file has just been read and the
    lookup of the sample raises the field lookup error of the record
    library; when it comes later, the check on the cached file raises
    the "dataset does not contain the sample" error. *)
Theorem X9_sample_absent_from_combined_file
    env path samples self done_s s rest_s loc file :
  default (dict_keys (label_map self)) samples = done_s ++ s :: rest_s →
  for_each (process_record env (FStr path) (done_s ++ s :: rest_s) self)
           (Locals [] [] [] []) done_s = Ok loc →
  is_Some (dict_get s (label_map self)) →
  disk env !! path = Some file →
  s ∉ ak_fields file →
  (load env (FStr path) samples self).2
  = Raise (match done_s with
           | [] => FieldNotFound s
           | _ => SampleNotInDataset s
           end).
Proof.
  intros Hs Hdone [cv Hcv] Hfile Habs.
  eapply load_raises_at; [done..|].
  unfold process_record. rewrite Hcv.
  unfold record_used, _load_file. rewrite Hfile. simpl.
  destruct done_s as [|s0 done_s]; simpl.
  - by rewrite (ak_getitem_not_field _ _ Habs).
  - rewrite for_each_cons in Hdone. unfold process_record at 1 in Hdone.
    destruct (dict_get s0 (label_map self)) as [cv0|]; [|done].
    unfold record_used, _load_file in Hdone. rewrite Hfile in Hdone.
    simpl in Hdone.
    destruct (ak_getitem file s0) as [first|e]; [|done]. simpl.
    by rewrite bool_decide_eq_false_2.
Qed.

Lemma X9_sample_absent_from_combined_file_witness :
  (load Examples.env Examples.one_file None Examples.fresh_sig_other).2
  = Raise (SampleNotInDataset "other").
Proof.
  eapply (X9_sample_absent_from_combined_file Examples.env "all.parquet" None
            Examples.fresh_sig_other ["sig"] "other" [] _
            (AkRecord 3 [("sig", Examples.sample3);
                         ("bkg", Examples.sample3')])).
  - reflexivity.
  - vm_compute. reflexivity.
  - by eexists.
  - reflexivity.
  - apply (bool_decide_unpack _). vm_compute. exact I.
Defined.

(** The same sample in the first place of the list. *)
Lemma absent_sample_first_example :
  (load Examples.env Examples.one_file (Some ["other"; "sig"])
        Examples.fresh_sig_other).2
  = Raise (FieldNotFound "other").
Proof. vm_compute. reflexivity. Qed.

(** ** The sample loop, round by round *)

Lemma mapM_result_cons {A B} (f : A → result B) a l :
  mapM f (a :: l) = (y ← f a; k ← mapM f l; Ok (y :: k)).
Proof. done. Qed.

Lemma mapM_result_Ok {A B} (f : A → result B) l rs :
  mapM f l = Ok rs ↔ Forall2 (λ a r, f a = Ok r) l rs.
Proof.
  revert rs. induction l as [|a l IH]; intros rs.
  - split.
    + intros [= <-]. constructor.
    + intros H. by apply Forall2_nil_inv_l in H as ->.
  - rewrite mapM_result_cons. split.
    + destruct (f a) as [y|e] eqn:Hy; [|done]. simpl.
      destruct (mapM f l) as [k|e] eqn:Hk; [|done]. simpl.
      intros [= <-]. constructor; [done|]. by apply IH.
    + intros H. apply Forall2_cons_inv_l in H as (y & k & Hy & Hk & ->).
      rewrite Hy. simpl. apply IH in Hk. by rewrite Hk.
Qed.

(** A loop whose body works out a contribution and adds it to the
    state is a map followed by a fold. *)
Lemma for_each_mapM {S B R} (f : S → B → result S) (g : B → result R)
    (h : S → R → S) :
  (∀ st b, f st b = (r ← g b; Ok (h st r))) →
  ∀ l st, for_each f st l = (rs ← mapM g l; Ok (foldl h st rs)).
Proof.
  intros Hf. induction l as [|b l IH]; intros st; [done|].
  rewrite for_each_cons, mapM_result_cons, Hf.
  destruct (g b) as [r|e]; [|done]. simpl. rewrite IH.
  by destruct (mapM g l).
Qed.

Lemma feature_types_mapM self arrays n fs ma fd :
  for_each (load_feature_type self arrays n) (fs, ma) fd
  = (rs ← mapM (λ entry : string * list string,
                  group_arrays self arrays n entry.2) fd;
     Ok (append_all fs (zip fd.*1 rs.*1),
         foldl (λ ma mo, first_some mo ma) ma rs.*2)).
Proof.
  revert fs ma. induction fd as [|[g columns] fd IH]; intros fs ma; [done|].
  rewrite for_each_cons, mapM_result_cons, load_feature_type_collect. simpl.
  destruct (group_arrays self arrays n columns) as [[t mo]|e]; [|done].
  simpl. rewrite IH. by destruct (mapM _ fd).
Qed.

Lemma process_record_round env filenames samples self loc s :
  process_record env filenames samples self loc s
  = (r ← sample_round env filenames samples self s; Ok (add_round self loc r)).
Proof.
  unfold process_record, sample_round.
  destruct (dict_get s (label_map self)) as [cv|]; [|done].
  destruct (record_used env filenames samples s) as [arrays|e]; [|done].
  simpl. unfold prepare_sample.
  destruct (resolve_sample_size self s arrays) as [n|e]; [|done]. simpl.
  unfold np_full. destruct (decide (n < 0)) as [?|Hn]; [done|]. simpl.
  rewrite feature_types_mapM.
  destruct (mapM _ (feature_dict self)) as [rs|e]; [|done]. simpl.
  unfold add_round, round_mask, round_labels. simpl.
  rewrite length_replicate, Z2Nat.id by lia. done.
Qed.

Lemma sample_round_ok env filenames samples self s r :
  sample_round env filenames samples self s = Ok r →
  ∃ arrays n,
    dict_get s (label_map self) = Some (round_class r)
    ∧ record_used env filenames samples s = Ok arrays
    ∧ resolve_sample_size self s arrays = Ok n
    ∧ 0 ≤ n
    ∧ round_size r = Z.to_nat n
    ∧ Forall2 (λ entry g, group_arrays self arrays n entry.2 = Ok g)
              (feature_dict self) (round_groups r).
Proof.
  unfold sample_round.
  destruct (dict_get s (label_map self)) as [cv|]; [|done].
  destruct (record_used env filenames samples s) as [arrays|e]; [|done].
  simpl.
  destruct (resolve_sample_size self s arrays) as [n|e] eqn:Hres; [|done].
  simpl. unfold np_full.
  destruct (decide (n < 0)) as [?|Hn]; [done|]. simpl.
  destruct (mapM _ (feature_dict self)) as [groups|e] eqn:Hg; [|done].
  simpl. intros [= <-]. exists arrays, n. simpl.
  split_and!; [done|done|done|lia|by rewrite length_replicate|].
  by apply mapM_result_Ok.
Qed.

Lemma sample_loop_rounds env filenames samples self loc l :
  for_each (process_record env filenames samples self) loc l
  = (rounds ← mapM (sample_round env filenames samples self) l;
     Ok (foldl (add_round self) loc rounds)).
Proof.
  apply (for_each_mapM _ _ _ (process_record_round env filenames samples self)).
Qed.

Lemma rounds_labels self loc rounds :
  labels (foldl (add_round self) loc rounds)
  = labels loc ++ (round_labels <$> rounds).
Proof.
  revert loc. induction rounds as [|r rounds IH]; intros loc; simpl.
  - by rewrite app_nil_r.
  - rewrite IH. simpl. by rewrite <- app_assoc.
Qed.

Lemma rounds_masks self loc rounds :
  masks (foldl (add_round self) loc rounds)
  = masks loc ++ omap round_mask rounds.
Proof.
  revert loc. induction rounds as [|r rounds IH]; intros loc; simpl.
  - by rewrite app_nil_r.
  - rewrite IH. simpl. destruct (round_mask r); [|done].
    by rewrite <- app_assoc.
Qed.

(** What a call of [load] that returned went through. *)
Lemma load_ok_rounds env filenames samples self self' :
  load env filenames samples self = (self', Ok ()) →
  ∃ rounds f l w,
    mapM (sample_round env filenames
            (default (dict_keys (label_map self)) samples) self)
         (default (dict_keys (label_map self)) samples) = Ok rounds
    ∧ combine env self (foldl (add_round self) (Locals [] [] [] []) rounds)
      = Ok (f, l, w)
    ∧ published self' = (Some f, Some l, Some w).
Proof.
  intros Hl. apply load_ok_phases in Hl as (loc & f & l & w & Hloop & Hc & Hp).
  rewrite sample_loop_rounds in Hloop.
  destruct (mapM _ _) as [rounds|e]; [|done]. simpl in Hloop.
  injection Hloop as <-. by exists rounds, f, l, w.
Qed.

Lemma length_round_labels rounds :
  length (concat (round_labels <$> rounds)) = sum_list (round_size <$> rounds).
Proof.
  induction rounds as [|r rounds IH]; [done|].
  rewrite !fmap_cons. simpl. rewrite length_app, IH.
  unfold round_labels. by rewrite length_replicate.
Qed.



(** The two samples of the example give three labels 1 and two
    labels 0. *)
Lemma labels_example :
  y Examples.loaded = Some (np_expand_dims_last [1; 1; 1; 0; 0])
  ∧ __len__ Examples.loaded = Ok 5%nat.
Proof. split; vm_compute; reflexivity. Qed.

(** ** The published tensors, sample by sample *)

Lemma rounds_features self rounds view0 loc :
  NoDup (dict_keys (feature_dict self)) →
  features loc = table (dict_keys (feature_dict self)) view0 →
  Forall (λ v, length v.1 = length (dict_keys (feature_dict self))) view0 →
  Forall (λ r, length (round_groups r) = length (feature_dict self)) rounds →
  features (foldl (add_round self) loc rounds)
  = table (dict_keys (feature_dict self)) (view0 ++ (round_view <$> rounds)).
Proof.
  intros Hnd. revert view0 loc.
  induction rounds as [|r rounds IH]; intros view0 loc Hf Hview Hrounds.
  - simpl. by rewrite app_nil_r.
  - apply Forall_cons in Hrounds as [Hr Hrounds].
    assert (length (round_groups r).*1
            = length (dict_keys (feature_dict self))) as Hlen.
    { unfold dict_keys. by rewrite !length_fmap. }
    rewrite fmap_cons. cbn [foldl].
    rewrite (IH (view0 ++ [round_view r])); [| | |done].
    + by rewrite <- app_assoc.
    + simpl. rewrite Hf. by apply table_snoc.
    + apply Forall_app. split; [done|]. by apply Forall_singleton.
Qed.

Lemma rounds_lengths env filenames all self samples rounds :
  mapM (sample_round env filenames all self) samples = Ok rounds →
  Forall (λ r, length (round_groups r) = length (feature_dict self)) rounds.
Proof.
  intros Hr. apply mapM_result_Ok in Hr. apply Forall_forall. intros r Hin.
  apply list_elem_of_lookup in Hin as [k Hk].
  destruct (Forall2_lookup_r _ _ _ _ _ Hr Hk) as (s & _ & Hs).
  apply sample_round_ok in Hs as (arrays & n & _ & _ & _ & _ & _ & Hg).
  symmetry. by eapply Forall2_length.
Qed.

Lemma round_view_tensors p rounds :
  omap (λ ts : list (ndarray Qc), ts !! p) (round_view <$> rounds).*1
  = round_tensors p rounds.
Proof.
  unfold round_tensors. induction rounds as [|r rounds IH]; [done|].
  rewrite !fmap_cons. cbn [omap list_omap]. rewrite <- IH.
  unfold round_view at 1. simpl. by rewrite list_lookup_fmap.
Qed.

Lemma table_keys keys view :
  view ≠ [] → (table keys view).*1 = keys.
Proof.
  intros Hv. unfold table. destruct view as [|v view]; [done|].
  apply zip_fst_length. by rewrite length_transpose.
Qed.

Lemma concatenate_features_keys features fs sizes :
  concatenate_features features = Ok (fs, sizes) → fs.*1 = features.*1.
Proof.
  intros Hc. apply concatenate_features_ok in Hc as [Hall _].
  induction Hall as [|[g l] [g' a] features fs [Hg _] _ IH]; [done|].
  rewrite !fmap_cons, IH. simpl in *. by rewrite Hg.
Qed.

(** When the dictionary of a view concatenates, the entry of key [g]
    is the concatenation of its column of the view. *)
Lemma table_entry_concatenated keys view fs sizes p g :
  NoDup keys →
  view ≠ [] →
  concatenate_features (table keys view) = Ok (fs, sizes) →
  keys !! p = Some g →
  ∃ a, np_concatenate (omap (λ ts : list (ndarray Qc), ts !! p) view.*1) = Ok a
       ∧ dict_get g fs = Some a
       ∧ sizes !! p = Some (axis0 a).
Proof.
  intros Hnd Hview Hcat Hg.
  pose proof (concatenate_features_keys _ _ _ Hcat) as Hkeys.
  rewrite table_keys in Hkeys by done.
  assert (p < length keys)%nat as Hp by by eapply lookup_lt_Some.
  pose proof Hcat as Hcat'. unfold table in Hcat'.
  destruct view as [|v view]; [done|].
  apply concatenate_features_ok in Hcat' as [Hall ->].
  assert (zip keys (transpose (length keys) (v :: view).*1) !! p
          = Some (g, omap (λ ts : list (ndarray Qc), ts !! p) (v :: view).*1))
    as Hzip.
  { rewrite lookup_zip_with, Hg. simpl. unfold transpose.
    by rewrite list_lookup_fmap, lookup_seq_lt by done. }
  destruct (Forall2_lookup_l _ _ _ _ _ Hall Hzip) as ([g' a] & Hfs & Hg' & Ha).
  simpl in Hg', Ha. subst g'. exists a. split_and!; [done| |].
  - apply dict_get_elem_NoDup; [by rewrite Hkeys|].
    by eapply list_elem_of_lookup_2.
  - by rewrite !list_lookup_fmap, Hfs.
Qed.

Lemma dict_get_fmap_Float g (fs : pydict string (ndarray Qc)) :
  dict_get g (prod_map id Float <$> fs) = Float <$> dict_get g fs.
Proof.
  induction fs as [|[k a] fs IH]; [done|].
  rewrite fmap_cons. simpl. by destruct (decide (g = k)).
Qed.

(** What a call of [load] that returned has published, in terms of
    the rounds. *)
Lemma load_ok_published env filenames samples self self' :
  NoDup (dict_keys (feature_dict self)) →
  load env filenames samples self = (self', Ok ()) →
  ∃ rounds fs size0 rest ms,
    mapM (sample_round env filenames
            (default (dict_keys (label_map self)) samples) self)
         (default (dict_keys (label_map self)) samples) = Ok rounds
    ∧ rounds ≠ []
    ∧ concatenate_features
        (table (dict_keys (feature_dict self)) (round_view <$> rounds))
      = Ok (fs, size0 :: rest)
    ∧ (∀ n, n ∈ size0 :: rest → n = size0)
    ∧ size0 = sum_list (round_size <$> rounds)
    ∧ match omap round_mask rounds with
      | [] => ms = None
      | masks => ∃ m, np_concatenate masks = Ok m ∧ ms = Some m
      end
    ∧ X self' = Some match ms with
                     | Some m => dict_set "part_masks" (Bool m)
                                          (prod_map id Float <$> fs)
                     | None => prod_map id Float <$> fs
                     end.
Proof.
  intros Hnd Hl.
  apply load_ok_rounds in Hl as (rounds & f & l & w & Hr & Hc & Hp).
  apply combine_ok in Hc
    as (fs & size0 & rest & ms & Hcat & Hsizes & Hlab & Hsize0 & Hms & _ & ->
        & _ & _).
  rewrite rounds_labels in Hlab, Hsize0. simpl in Hlab, Hsize0.
  rewrite rounds_masks in Hms. simpl in Hms.
  rewrite (rounds_features self rounds [] (Locals [] [] [] [])) in Hcat;
    [|done|done|constructor|by eapply rounds_lengths].
  simpl in Hcat. rewrite length_round_labels in Hsize0.
  exists rounds, fs, size0, rest, ms.
  split_and!; [done| |done|done|done| |].
  - by intros ->.
  - destruct (omap round_mask rounds); [done|].
    destruct Hms as (m & ? & _ & ?). by exists m.
  - injection Hp as HX _ _. unfold X. by rewrite HX.
Qed.

Lemma length_round_tensors n p rounds :
  Forall (λ r, length (round_groups r) = n) rounds →
  (p < n)%nat →
  length (round_tensors p rounds) = length rounds.
Proof.
  intros Hall Hp. unfold round_tensors.
  induction Hall as [|r rounds Hr _ IH]; [done|].
  cbn [omap list_omap].
  destruct (lookup_lt_is_Some_2 (round_groups r) p ltac:(lia)) as [g ->].
  simpl. by rewrite IH.
Qed.

(** X11.  [feature_dict] being a dictionary, its keys are distinct.
    In the dataset [load] publishes, the tensor of every feature type
    (other than one named [part_masks]) is the concatenation along the
    event axis of the tensors of that type worked out for each sample,
    one for every sample, in the order of the sample list. *)
Theorem X11_features_are_concatenated_by_sample
    env filenames samples self self' :
  NoDup (dict_keys (feature_dict self)) →
  load env filenames samples self = (self', Ok ()) →
  ∃ rounds,
    mapM (sample_round env filenames
            (default (dict_keys (label_map self)) samples) self)
         (default (dict_keys (label_map self)) samples) = Ok rounds
    ∧ ∀ p g columns,
        feature_dict self !! p = Some (g, columns) →
        g ≠ "part_masks" →
        ∃ t, length (round_tensors p rounds)
             = length (default (dict_keys (label_map self)) samples)
             ∧ np_concatenate (round_tensors p rounds) = Ok t
             ∧ (d ← X self'; dict_get g d) = Some (Float t).
Proof.
  intros Hnd Hl.
  destruct (load_ok_published _ _ _ _ _ Hnd Hl)
    as (rounds & fs & size0 & rest & ms & Hr & Hne & Hcat & _ & _ & _ & HX).
  exists rounds. split; [done|]. intros p g columns Hp Hg.
  assert (dict_keys (feature_dict self) !! p = Some g) as Hkey.
  { unfold dict_keys. rewrite list_lookup_fmap.
    exact (f_equal (fmap fst) Hp). }
  assert (round_view <$> rounds ≠ []) as Hview.
  { intros Hnil. by apply fmap_nil_inv in Hnil. }
  destruct (table_entry_concatenated _ _ _ _ p g Hnd Hview Hcat Hkey)
    as (a & Ha & Hga & _).
  rewrite round_view_tensors in Ha. exists a. split_and!; [|done|].
  - rewrite (length_round_tensors (length (feature_dict self)));
      [|by eapply rounds_lengths|by eapply lookup_lt_Some].
    apply mapM_result_Ok in Hr. symmetry. by eapply Forall2_length.
  - rewrite HX. simpl. destruct ms as [m|].
    + rewrite dict_get_set_ne by done. by rewrite dict_get_fmap_Float, Hga.
    + by rewrite dict_get_fmap_Float, Hga.
Qed.

Lemma X11_features_are_concatenated_by_sample_witness :
  ∃ rounds,
    mapM (sample_round Examples.env Examples.per_sample_files ["sig"; "bkg"]
            (Examples.fresh None false)) ["sig"; "bkg"] = Ok rounds
    ∧ ∀ p g columns,
        Examples.pt_only !! p = Some (g, columns) →
        g ≠ "part_masks" →
        ∃ t, length (round_tensors p rounds) = length ["sig"; "bkg"]
             ∧ np_concatenate (round_tensors p rounds) = Ok t
             ∧ (d ← X Examples.loaded; dict_get g d) = Some (Float t).
Proof.
  apply (X11_features_are_concatenated_by_sample Examples.env
           Examples.per_sample_files None (Examples.fresh None false)
           Examples.loaded).
  - apply NoDup_singleton.
  - vm_compute. reflexivity.
Defined.

(** ** The size override, when [load] returns *)

Lemma ak_len_nonneg a : 0 ≤ ak_len a.
Proof. destruct a; simpl; lia. Qed.

Lemma ak_getitem_contents a key x :
  ak_getitem a key = Ok x → x ∈ ak_contents a.
Proof.
  destruct a as [xs|xss|n fs]; simpl; [done|done|].
  destruct (dict_get key fs) as [x'|] eqn:Hg; [|done]. intros [= ->].
  apply dict_get_Some_elem in Hg. apply list_elem_of_fmap. by exists (key, x).
Qed.

Lemma aligned_column arrays jet_key jet c column :
  columns_aligned arrays = true →
  ak_getitem arrays jet_key = Ok jet →
  ak_getitem jet c = Ok column →
  ak_len column = ak_len arrays.
Proof.
  unfold columns_aligned. rewrite forallb_forall. intros Hal Hjet Hc.
  apply ak_getitem_contents, list_elem_of_In, Hal in Hjet.
  rewrite forallb_forall in Hjet.
  apply ak_getitem_contents, list_elem_of_In, Hjet in Hc.
  by apply bool_decide_eq_true in Hc.
Qed.

Lemma length_slice_to {A} n (l : list A) :
  0 ≤ n → length (slice_to (Some n) l) = (Z.to_nat n `min` length l)%nat.
Proof.
  intros Hn. unfold slice_to. rewrite decide_True by done.
  by rewrite length_take.
Qed.

(** A sample record with aligned columns gives arrays with as many
    events as were asked for, or as the record has when that is less. *)
Lemma column_arrays_axis0 self arrays jet_key n c a mo :
  columns_aligned arrays = true →
  0 ≤ n →
  column_arrays self arrays jet_key n c = Ok (a, mo) →
  axis0 a = (Z.to_nat n `min` Z.to_nat (ak_len arrays))%nat.
Proof.
  intros Hal Hn. unfold column_arrays.
  destruct (ak_getitem arrays jet_key) as [jet|e] eqn:Hjet; [|done]. simpl.
  destruct (ak_getitem jet c) as [[xs|xss|k fs]|e] eqn:Hc; try done; simpl;
    intros [= <- <-];
    rewrite <- (aligned_column _ _ _ _ _ Hal Hjet Hc);
    unfold axis0, get_array, get_padded_array, array1; cbn [rows ak_len];
    rewrite length_fmap, length_slice_to by done; by rewrite Nat2Z.id.
Qed.

Lemma jet_arrays_axis0 self arrays columns n i F mo :
  columns_aligned arrays = true →
  0 ≤ n →
  jet_arrays self arrays columns n i = Ok (F, mo) →
  axis0 F = (Z.to_nat n `min` Z.to_nat (ak_len arrays))%nat.
Proof.
  intros Hal Hn Hj. apply jet_arrays_collect in Hj as (rs & Hrs & HF & _).
  apply np_stack_last_ok in HF as (a & rest & Ha & _ & -> & _).
  destruct rs as [|[a' mo'] rs]; [done|]. injection Ha as -> _.
  apply Forall2_cons_inv_r in Hrs as (c & cs & Hc & _ & _).
  by eapply column_arrays_axis0.
Qed.

Lemma group_arrays_axis0 self arrays n columns T mo :
  columns_aligned arrays = true →
  0 ≤ n →
  group_arrays self arrays n columns = Ok (T, mo) →
  axis0 T = (Z.to_nat n `min` Z.to_nat (ak_len arrays))%nat.
Proof.
  intros Hal Hn Hg. apply group_arrays_collect in Hg as (rs & Hrs & HT & _).
  apply np_stack_axis1_ok in HT as (F & rest & HF & _ & -> & _).
  destruct rs as [|[F' mo'] rs]; [done|]. injection HF as -> _.
  apply Forall2_cons_inv_r in Hrs as (i & js & Hi & _ & _).
  by eapply jet_arrays_axis0.
Qed.

(** l.119-125, as written: what the size resolves to is never less
    than the number of events of the record. *)
Lemma resolve_sample_size_ok self s arrays n :
  resolve_sample_size self s arrays = Ok n →
  ak_len arrays ≤ n
  ∧ ∀ requested, sample_sizes self !! s = Some requested → n = requested.
Proof.
  unfold resolve_sample_size.
  destruct (sample_sizes self !! s) as [o|].
  - destruct (decide (ak_len arrays > o)); [done|]. intros [= <-].
    split; [lia|]. by intros ? [= <-].
  - intros [= <-]. split; [lia|done].
Qed.

Lemma sum_tensors_le rounds :
  (∀ r, r ∈ rounds →
        ∃ g, round_groups r !! 0%nat = Some g
             ∧ (axis0 g.1 ≤ round_size r)%nat) →
  (sum_list (axis0 <$> round_tensors 0 rounds)
   ≤ sum_list (round_size <$> rounds))%nat.
Proof.
  unfold round_tensors.
  induction rounds as [|r rounds IH]; intros Hall; [done|].
  destruct (Hall r) as (g & Hg & Hle); [left|].
  rewrite fmap_cons. cbn [omap list_omap]. rewrite Hg. simpl.
  assert (sum_list (axis0 <$> omap (λ r, fst <$> round_groups r !! 0%nat) rounds)
          ≤ sum_list (round_size <$> rounds))%nat
    by (apply IH; intros r' Hr'; apply Hall; by right).
  by apply Nat.add_le_mono.
Qed.

Lemma sum_tensors_eq rounds :
  (∀ r, r ∈ rounds →
        ∃ g, round_groups r !! 0%nat = Some g
             ∧ (axis0 g.1 ≤ round_size r)%nat) →
  sum_list (axis0 <$> round_tensors 0 rounds)
  = sum_list (round_size <$> rounds) →
  ∀ r, r ∈ rounds →
       ∃ g, round_groups r !! 0%nat = Some g ∧ axis0 g.1 = round_size r.
Proof.
  induction rounds as [|r rounds IH]; intros Hall Hsum r0 Hr0.
  - by apply elem_of_nil in Hr0.
  - destruct (Hall r) as (g & Hg & Hle); [left|].
    assert (∀ r', r' ∈ rounds →
              ∃ g, round_groups r' !! 0%nat = Some g
                   ∧ (axis0 g.1 ≤ round_size r')%nat) as Hall'
      by (intros r' Hr'; apply Hall; by right).
    pose proof (sum_tensors_le rounds Hall') as Hle'.
    unfold round_tensors in *. rewrite fmap_cons in Hsum.
    cbn [omap list_omap] in Hsum. rewrite Hg in Hsum.
    change (fst <$> Some g) with (Some g.1) in Hsum. cbv iota in Hsum.
    rewrite fmap_cons in Hsum.
    change (sum_list (?x :: ?l)) with (x + sum_list l)%nat in Hsum.
    set (S1 := sum_list (axis0 <$> _)) in *.
    set (S2 := sum_list (round_size <$> rounds)) in *.
    apply elem_of_cons in Hr0 as [->|Hr0].
    + exists g. split; [done|lia].
    + apply IH; [done|lia|done].
Qed.

(** When [load] returns on aligned records, every round took exactly
    the events of its record: the labels made for a sample are as many
    as the events of its tensors. *)
Lemma load_ok_rounds_take_all env filenames samples self self' :
  NoDup (dict_keys (feature_dict self)) →
  (∀ s arrays,
     s ∈ default (dict_keys (label_map self)) samples →
     record_used env filenames (default (dict_keys (label_map self)) samples) s
     = Ok arrays →
     columns_aligned arrays = true) →
  load env filenames samples self = (self', Ok ()) →
  ∃ rounds,
    mapM (sample_round env filenames
            (default (dict_keys (label_map self)) samples) self)
         (default (dict_keys (label_map self)) samples) = Ok rounds
    ∧ Forall2
        (λ s r,
           ∃ arrays,
             record_used env filenames
               (default (dict_keys (label_map self)) samples) s = Ok arrays
             ∧ resolve_sample_size self s arrays = Ok (ak_len arrays)
             ∧ round_size r = Z.to_nat (ak_len arrays)
             ∧ Forall2 (λ entry g,
                          group_arrays self arrays (ak_len arrays) entry.2
                          = Ok g)
                       (feature_dict self) (round_groups r))
        (default (dict_keys (label_map self)) samples) rounds.
Proof.
  intros Hnd Hal Hl.
  destruct (load_ok_published _ _ _ _ _ Hnd Hl)
    as (rounds & fs & size0 & rest & ms & Hr & Hne & Hcat & _ & Hsize0 & _ & _).
  set (all := default (dict_keys (label_map self)) samples) in *.
  exists rounds. split; [done|].
  apply mapM_result_Ok in Hr.
  assert (round_view <$> rounds ≠ []) as Hview.
  { intros Hnil. by apply fmap_nil_inv in Hnil. }
  (* there is a first feature type *)
  destruct (feature_dict self) as [|[g0 columns0] fd] eqn:Hfd.
  { pose proof (concatenate_features_ok _ _ _ Hcat) as [_ Hsz].
    apply concatenate_features_keys in Hcat.
    rewrite table_keys in Hcat by done. by destruct fs. }
  (* no round took more events than its record has *)
  assert (∀ k s r, all !! k = Some s → rounds !! k = Some r →
            ∃ arrays n g,
              record_used env filenames all s = Ok arrays
              ∧ resolve_sample_size self s arrays = Ok n
              ∧ round_size r = Z.to_nat n
              ∧ Forall2 (λ entry g, group_arrays self arrays n entry.2 = Ok g)
                        ((g0, columns0) :: fd) (round_groups r)
              ∧ round_groups r !! 0%nat = Some g
              ∧ axis0 g.1 = Z.to_nat (ak_len arrays)
              ∧ ak_len arrays ≤ n) as Hround.
  { intros k s r Hs Hk.
    destruct (Forall2_lookup_l _ _ _ _ _ Hr Hs) as (r' & Hk' & Hsr).
    rewrite Hk in Hk'. injection Hk' as <-.
    apply sample_round_ok in Hsr
      as (arrays & n & _ & Hrec & Hres & Hn & Hsz & Hgroups).
    rewrite Hfd in Hgroups. pose proof Hgroups as Hgroups'.
    apply Forall2_cons_inv_l in Hgroups' as ([T mo] & gs & HT & _ & Hgs).
    simpl in HT.
    pose proof (Hal s arrays ltac:(by eapply list_elem_of_lookup_2) Hrec)
      as Hals.
    apply (group_arrays_axis0 _ _ _ _ _ _ Hals Hn) in HT.
    destruct (resolve_sample_size_ok _ _ _ _ Hres) as [Hge _].
    pose proof (ak_len_nonneg arrays).
    exists arrays, n, (T, mo). rewrite Hgs. simpl.
    split_and!; [done|done|done|by rewrite <- Hgs|done|lia|done]. }
  (* the totals agree, so the rounds agree one by one *)
  assert (∀ r, r ∈ rounds →
            ∃ g, round_groups r !! 0%nat = Some g ∧ axis0 g.1 = round_size r)
    as Heq.
  { apply sum_tensors_eq.
    - intros r Hin. apply list_elem_of_lookup in Hin as [k Hk].
      destruct (Forall2_lookup_r _ _ _ _ _ Hr Hk) as (s & Hs & _).
      destruct (Hround k s r Hs Hk)
        as (arrays & n & g & _ & _ & Hsz & _ & Hg & Hax & Hle).
      exists g. split; [done|]. pose proof (ak_len_nonneg arrays). lia.
    - assert (dict_keys ((g0, columns0) :: fd) !! 0%nat = Some g0) as Hkey
        by done.
      destruct (table_entry_concatenated _ _ _ _ 0%nat g0 Hnd Hview Hcat Hkey)
        as (a & Ha & _ & Hsz).
      rewrite round_view_tensors in Ha.
      apply np_concatenate_ok in Ha as (? & ? & _ & _ & Hsum).
      simpl in Hsz. injection Hsz as Hsz. by rewrite <- Hsum, <- Hsz. }
  apply Forall2_same_length_lookup. split; [by eapply Forall2_length|].
  intros k s r Hs Hk.
  destruct (Hround k s r Hs Hk)
    as (arrays & n & g & Hrec & Hres & Hsz & Hgroups & Hg & Hax & Hle).
  destruct (Heq r ltac:(by eapply list_elem_of_lookup_2)) as (g' & Hg' & Hax').
  rewrite Hg in Hg'. injection Hg' as <-.
  assert (n = ak_len arrays) as ->.
  { pose proof (ak_len_nonneg arrays). lia. }
  by exists arrays.
Qed.

(** X12.  Let [feature_dict] have distinct keys and let the columns of
    the sample records be aligned.  Then a call of [load] returns only
    if every size override equals the number of events of the record
    of its sample: an override never shortens a sample.  (A smaller
    override fails the check at l.122; a larger one passes it, but then
    the labels outnumber the events.) *)
Theorem X12_override_equals_available_when_load_returns
    env filenames samples self self' :
  NoDup (dict_keys (feature_dict self)) →
  (∀ s arrays,
     s ∈ default (dict_keys (label_map self)) samples →
     record_used env filenames (default (dict_keys (label_map self)) samples) s
     = Ok arrays →
     columns_aligned arrays = true) →
  load env filenames samples self = (self', Ok ()) →
  ∀ s arrays requested,
    s ∈ default (dict_keys (label_map self)) samples →
    record_used env filenames (default (dict_keys (label_map self)) samples) s
    = Ok arrays →
    sample_sizes self !! s = Some requested →
    requested = ak_len arrays.
Proof.
  intros Hnd Hal Hl s arrays requested Hs Hrec Hreq.
  destruct (load_ok_rounds_take_all _ _ _ _ _ Hnd Hal Hl)
    as (rounds & _ & Hrounds).
  apply list_elem_of_lookup in Hs as [k Hs].
  destruct (Forall2_lookup_l _ _ _ _ _ Hrounds Hs)
    as (r & _ & arrays' & Hrec' & Hres & _).
  rewrite Hrec in Hrec'. injection Hrec' as <-.
  destruct (resolve_sample_size_ok _ _ _ _ Hres) as [_ Hov].
  by rewrite <- (Hov requested Hreq).
Qed.

Lemma X12_override_equals_available_when_load_returns_witness :
  3 = ak_len Examples.sample3.
Proof.
  refine (X12_override_equals_available_when_load_returns
            Examples.env Examples.per_sample_files None
            (Examples.fresh (Some {[ "sig" := 3 ]}) false)
            (load Examples.env Examples.per_sample_files None
                  (Examples.fresh (Some {[ "sig" := 3 ]}) false)).1
            _ _ _ "sig" Examples.sample3 3 _ _ _).
  - apply NoDup_singleton.
  - intros s arrays Hs Hrec. change (s ∈ ["sig"; "bkg"]) in Hs.
    apply elem_of_cons in Hs as [->|Hs];
      [|apply elem_of_cons in Hs as [->|Hs]; [|by apply elem_of_nil in Hs]];
      vm_compute in Hrec; injection Hrec as <-; vm_compute; reflexivity.
  - vm_compute. reflexivity.
  - left.
  - reflexivity.
  - reflexivity.
Defined.

(** X13.  Let [feature_dict] have distinct keys and let the columns of
    the sample records be aligned.  In the dataset [load] publishes,
    features and labels are in step sample by sample, not only in
    total: the labels made for a sample are as many as the events of
    its record, and every tensor worked out for the sample, and every
    mask, has exactly that many events, so that the block of a sample
    in the label column and its block in every feature tensor are in
    the same place. *)
Theorem X13_events_and_labels_in_step_by_sample
    env filenames samples self self' :
  NoDup (dict_keys (feature_dict self)) →
  (∀ s arrays,
     s ∈ default (dict_keys (label_map self)) samples →
     record_used env filenames (default (dict_keys (label_map self)) samples) s
     = Ok arrays →
     columns_aligned arrays = true) →
  load env filenames samples self = (self', Ok ()) →
  ∃ rounds,
    mapM (sample_round env filenames
            (default (dict_keys (label_map self)) samples) self)
         (default (dict_keys (label_map self)) samples) = Ok rounds
    ∧ Forall2
        (λ s r,
           ∃ arrays,
             record_used env filenames
               (default (dict_keys (label_map self)) samples) s = Ok arrays
             ∧ Z.of_nat (length (round_labels r)) = ak_len arrays)
        (default (dict_keys (label_map self)) samples) rounds
    ∧ ∀ r T mo,
        r ∈ rounds → (T, mo) ∈ round_groups r →
        axis0 T = length (round_labels r)
        ∧ ∀ m, mo = Some m → axis0 m = length (round_labels r).
Proof.
  intros Hnd Hal Hl.
  destruct (load_ok_rounds_take_all _ _ _ _ _ Hnd Hal Hl)
    as (rounds & Hr & Hrounds).
  exists rounds. split_and!; [done| |].
  - eapply Forall2_impl; [exact Hrounds|].
    intros s r (arrays & Hrec & _ & Hsz & _). exists arrays.
    split; [done|]. unfold round_labels. rewrite length_replicate, Hsz.
    apply Z2Nat.id, ak_len_nonneg.
  - intros r T mo Hin HT.
    unfold round_labels. rewrite length_replicate.
    apply list_elem_of_lookup in Hin as [k Hk].
    destruct (Forall2_lookup_r _ _ _ _ _ Hrounds Hk)
      as (s & Hs & arrays & Hrec & _ & Hsz & Hgroups).
    apply list_elem_of_lookup in HT as [p Hp].
    destruct (Forall2_lookup_r _ _ _ _ _ Hgroups Hp) as (entry & _ & Hg).
    pose proof (Hal s arrays ltac:(by eapply list_elem_of_lookup_2) Hrec)
      as Hals.
    pose proof (group_arrays_axis0 _ _ _ _ _ _ Hals (ak_len_nonneg arrays) Hg)
      as Hax.
    assert (axis0 T = round_size r) as HT by lia.
    split; [done|]. intros m ->.
    apply group_arrays_shape in Hg as (? & _ & _ & _ & Hm & _). congruence.
Qed.

Lemma X13_events_and_labels_in_step_by_sample_witness :
  ∃ rounds,
    mapM (sample_round Examples.env Examples.per_sample_files ["sig"; "bkg"]
            (Examples.fresh None false)) ["sig"; "bkg"] = Ok rounds
    ∧ Forall2
        (λ s r,
           ∃ arrays,
             record_used Examples.env Examples.per_sample_files
                         ["sig"; "bkg"] s = Ok arrays
             ∧ Z.of_nat (length (round_labels r)) = ak_len arrays)
        ["sig"; "bkg"] rounds
    ∧ ∀ r T mo,
        r ∈ rounds → (T, mo) ∈ round_groups r →
        axis0 T = length (round_labels r)
        ∧ ∀ m, mo = Some m → axis0 m = length (round_labels r).
Proof.
  refine (X13_events_and_labels_in_step_by_sample
            Examples.env Examples.per_sample_files None
            (Examples.fresh None false) Examples.loaded _ _ _).
  - apply NoDup_singleton.
  - intros s arrays Hs Hrec. change (s ∈ ["sig"; "bkg"]) in Hs.
    apply elem_of_cons in Hs as [->|Hs];
      [|apply elem_of_cons in Hs as [->|Hs]; [|by apply elem_of_nil in Hs]];
      vm_compute in Hrec; injection Hrec as <-; vm_compute; reflexivity.
  - vm_compute. reflexivity.
Defined.

(** ** Shapes of what is published *)

Lemma column_arrays_inner self arrays i n c a mo :
  column_arrays self arrays ("j" +:+ pretty i) n c = Ok (a, mo) →
  inner a = if column_is_ragged arrays i c then [pad_size self] else [].
Proof.
  unfold column_arrays, column_is_ragged.
  destruct (ak_getitem arrays _) as [jet|e]; [|done]. simpl.
  destruct (ak_getitem jet c) as [[xs|xss|k fs]|e]; try done; simpl;
    by intros [= <- <-].
Qed.

Lemma jet_arrays_inner self arrays columns n i F mo c :
  jet_arrays self arrays columns n i = Ok (F, mo) →
  c ∈ columns →
  inner F = (if column_is_ragged arrays i c then [pad_size self] else [])
            ++ [length columns].
Proof.
  intros Hj Hc. apply jet_arrays_collect in Hj as (rs & Hrs & HF & _).
  apply np_stack_last_ok in HF as (a0 & rest & Ha0 & Hsh & _ & ->).
  apply list_elem_of_lookup in Hc as [k Hk].
  destruct (Forall2_lookup_l _ _ _ _ _ Hrs Hk) as ([a mo'] & Hrk & Ha).
  apply column_arrays_inner in Ha. rewrite <- Ha.
  assert (a ∈ rs.*1) as Hin.
  { apply list_elem_of_fmap. exists (a, mo'). split; [done|].
    by eapply list_elem_of_lookup_2. }
  apply Hsh, shape_eq in Hin as [_ ->].
  rewrite length_fmap. f_equal. f_equal. symmetry. by eapply Forall2_length.
Qed.

Lemma group_arrays_inner self arrays n columns T mo i c :
  group_arrays self arrays n columns = Ok (T, mo) →
  (1 ≤ i ≤ num_jets self)%nat →
  c ∈ columns →
  inner T = num_jets self
            :: (if column_is_ragged arrays i c then [pad_size self] else [])
            ++ [length columns].
Proof.
  intros Hg Hi Hc. apply group_arrays_collect in Hg as (rs & Hrs & HT & _).
  apply np_stack_axis1_ok in HT as (F0 & rest & HF0 & Hsh & _ & -> & _).
  assert (seq 1 (num_jets self) !! (i - 1)%nat = Some i) as Hseq.
  { rewrite lookup_seq_lt by lia. f_equal. lia. }
  destruct (Forall2_lookup_l _ _ _ _ _ Hrs Hseq) as ([F mo'] & Hrk & HF).
  pose proof (jet_arrays_inner _ _ _ _ _ _ _ c HF Hc) as Hin.
  assert (F ∈ rs.*1) as HFin.
  { apply list_elem_of_fmap. exists (F, mo'). split; [done|].
    by eapply list_elem_of_lookup_2. }
  apply Hsh, shape_eq in HFin as [_ <-]. rewrite Hin, length_fmap.
  f_equal. apply Forall2_length in Hrs. by rewrite length_seq in Hrs.
Qed.






(** The example publishes five events of two jets, two slots and one
    column, and a mask of five events of two jets and two slots. *)
Lemma shapes_example :
  ∃ t m, X Examples.loaded
         = Some [("part_features", Float t); ("part_masks", Bool m)]
         ∧ shape t = [5; 2; 2; 1]%nat ∧ shape m = [5; 2; 2]%nat.
Proof. eexists _, _. split_and!; vm_compute; reflexivity. Qed.

(** ** Padding *)

Lemma padded_lookup pad pad_val ev k :
  (k < pad)%nat →
  ak_fill_none pad_val (ak_pad_none pad ev) !! k
  = Some (default pad_val (ev !! k)).
Proof.
  intros Hk. unfold ak_fill_none, ak_pad_none. rewrite list_lookup_fmap.
  destruct (decide (k < length ev)%nat) as [Hlt|Hge].
  - rewrite lookup_app_l by (rewrite length_take, length_fmap; lia).
    rewrite lookup_take_lt by done. rewrite list_lookup_fmap.
    by destruct (lookup_lt_is_Some_2 ev k Hlt) as [x ->].
  - rewrite lookup_app_r by (rewrite length_take, length_fmap; lia).
    rewrite length_take, length_fmap.
    rewrite lookup_replicate_2 by lia. simpl.
    by rewrite lookup_ge_None_2 by lia.
Qed.

Lemma length_padded pad pad_val ev :
  length (ak_fill_none pad_val (ak_pad_none pad ev)) = pad.
Proof.
  unfold ak_fill_none, ak_pad_none.
  rewrite length_fmap, length_app, length_take, length_fmap, length_replicate.
  lia.
Qed.

Lemma get_padded_array_row array pad pad_val sample_size i ev :
  slice_to sample_size array !! i = Some ev →
  rows (get_padded_array array pad pad_val sample_size) !! i
  = Some (Ar (Sc <$> ak_fill_none pad_val (ak_pad_none pad ev))).
Proof.
  intros Hi. unfold get_padded_array. cbn [rows].
  by rewrite list_lookup_fmap, Hi.
Qed.

(** X15.  [get_padded_array] returns one row per event it is given
    (the first [sample_size] ones when a size is given), each of
    exactly [pad_size] slots: slot [k] holds element [k] of the event
    when the event has one, and the pad value otherwise, so that longer
    events are cut and shorter ones are filled. *)
Theorem X15_get_padded_array_cuts_and_fills
    array pad_size pad_val sample_size i ev k :
  slice_to sample_size array !! i = Some ev →
  (k < pad_size)%nat →
  shape (get_padded_array array pad_size pad_val sample_size)
  = [length (slice_to sample_size array); pad_size]
  ∧ at2 (get_padded_array array pad_size pad_val sample_size) i k
    = Some (default pad_val (ev !! k)).
Proof.
  intros Hi Hk. split.
  - unfold shape, get_padded_array. simpl. by rewrite length_fmap.
  - unfold at2. rewrite (get_padded_array_row _ _ _ _ _ _ Hi). simpl.
    unfold nd_get. simpl. rewrite list_lookup_fmap, padded_lookup by done.
    done.
Qed.

Lemma X15_get_padded_array_cuts_and_fills_witness :
  shape (get_padded_array (Examples.floats <$> [[1; 2; 3]; [4]; []]) 2 0%Qc
           (Some 2))
  = [length (slice_to (Some 2) (Examples.floats <$> [[1; 2; 3]; [4]; []]));
     2%nat]
  ∧ at2 (get_padded_array (Examples.floats <$> [[1; 2; 3]; [4]; []]) 2 0%Qc
           (Some 2)) 1 1
    = Some (default 0%Qc (Examples.floats [4] !! 1%nat)).
Proof.
  apply (X15_get_padded_array_cuts_and_fills
           (Examples.floats <$> [[1; 2; 3]; [4]; []]) 2 0%Qc (Some 2) 1
           (Examples.floats [4]) 1).
  - reflexivity.
  - lia.
Defined.

(** ** The layout of a feature tensor *)

Lemma transpose_lookup {X} n (xss : list (list X)) e :
  (e < n)%nat → transpose n xss !! e = Some (omap (λ xs, xs !! e) xss).
Proof.
  intros He. unfold transpose. by rewrite list_lookup_fmap, lookup_seq_lt.
Qed.

Lemma np_stack_last_rows {A} (arrs : list (ndarray A)) F :
  np_stack_last arrs = Ok F →
  ∃ a0 rest,
    arrs = a0 :: rest
    ∧ rows F = stack_last (inner a0) <$> transpose (axis0 a0) (rows <$> arrs).
Proof.
  unfold np_stack_last. destruct arrs as [|a0 rest]; [done|].
  destruct (all_shapes_eq a0 (a0 :: rest)); [|done].
  intros [= <-]. by exists a0, rest.
Qed.

(** Row [e] of a stack along a new last axis is the stack of the rows
    [e] of the stacked arrays. *)
Lemma np_stack_last_row {A} (arrs : list (ndarray A)) F a c e x :
  np_stack_last arrs = Ok F →
  arrs !! c = Some a →
  rows a !! e = Some x →
  ∃ ith, rows F !! e = Some (stack_last (inner a) ith)
         ∧ length ith = length arrs
         ∧ ∀ q b, arrs !! q = Some b → ith !! q = rows b !! e.
Proof.
  intros HF Ha Hx. pose proof HF as HF'.
  apply np_stack_last_ok in HF' as (a0 & rest & Harrs & Hsh & _ & _).
  apply np_stack_last_rows in HF as (a0' & rest' & Harrs' & HF).
  rewrite Harrs in Harrs'. injection Harrs' as <- <-. clear Harrs.
  assert (∀ b, b ∈ arrs → axis0 b = axis0 a0 ∧ inner b = inner a0) as Hsame.
  { intros b Hb. by apply shape_eq, Hsh. }
  destruct (Hsame a ltac:(by eapply list_elem_of_lookup_2)) as [Hax ->].
  assert (e < axis0 a0)%nat as He.
  { rewrite <- Hax. by eapply lookup_lt_Some. }
  assert (∀ rws, rws ∈ rows <$> arrs → is_Some (rws !! e)) as Htot.
  { intros rws Hrws. apply list_elem_of_fmap in Hrws as (b & -> & Hb).
    apply lookup_lt_is_Some_2. fold (axis0 b).
    by rewrite (proj1 (Hsame b Hb)). }
  exists (omap (λ rws : list (nd A), rws !! e) (rows <$> arrs)).
  split_and!.
  - by rewrite HF, list_lookup_fmap, transpose_lookup.
  - clear -Htot. induction arrs as [|b arrs IH]; [done|].
    rewrite fmap_cons in *. simpl.
    destruct (Htot (rows b) ltac:(left)) as [y ->]. simpl. f_equal.
    apply IH. intros rws Hrws. apply Htot. by right.
  - intros q b Hq. rewrite omap_lookup_total by done.
    by rewrite list_lookup_fmap, Hq.
Qed.

(** A list-valued column gives rows of exactly [pad_size] slots. *)
Lemma column_arrays_rows_padded self arrays jet_key n c b mo y :
  column_arrays self arrays jet_key n c = Ok (b, mo) →
  inner b = [pad_size self] →
  y ∈ rows b →
  length (children y) = pad_size self.
Proof.
  unfold column_arrays.
  destruct (ak_getitem arrays jet_key) as [jet|e]; [|done]. simpl.
  destruct (ak_getitem jet c) as [[xs|xss|k fs]|e]; try done; simpl.
  - by intros [= <- <-].
  - intros [= <- <-] _ Hy. simpl in Hy.
    apply list_elem_of_fmap in Hy as (ev & -> & _). simpl.
    by rewrite length_fmap, length_padded.
Qed.

Lemma jet_arrays_row self arrays columns n i jet F mo c col e :
  jet_arrays self arrays columns n i = Ok (F, mo) →
  ak_getitem arrays ("j" +:+ pretty i) = Ok jet →
  columns !! c = Some col →
  match ak_getitem jet col with
  | Ok (AkNumpy xs) =>
      ∀ v, slice_to (Some n) xs !! e = Some v →
           ∃ x, rows F !! e = Some x
                ∧ (w ← nd_get x c; nd_item w) = Some v
  | Ok (AkList xss) =>
      ∀ ev k, slice_to (Some n) xss !! e = Some ev →
              (k < pad_size self)%nat →
              ∃ x, rows F !! e = Some x
                   ∧ (z ← nd_get x k; w ← nd_get z c; nd_item w)
                     = Some (default 0%Qc (ev !! k))
  | _ => True
  end.
Proof.
  intros Hj Hjet Hc. apply jet_arrays_collect in Hj as (rs & Hrs & HF & _).
  destruct (Forall2_lookup_l _ _ _ _ _ Hrs Hc) as ([a moa] & Hrc & Ha).
  assert (rs.*1 !! c = Some a) as Hac by by rewrite list_lookup_fmap, Hrc.
  pose proof Ha as Ha'. unfold column_arrays in Ha'. rewrite Hjet in Ha'.
  simpl in Ha'.
  destruct (ak_getitem jet col) as [[xs|xss|? ?]|?]; try done; simpl in Ha';
    injection Ha' as <- <-.
  - intros v Hv.
    assert (rows (get_array xs (Some n)) !! e = Some (Sc v)) as Hrow.
    { unfold get_array, array1. cbn [rows].
      by rewrite list_lookup_fmap, Hv. }
    destruct (np_stack_last_row _ _ _ c e _ HF Hac Hrow)
      as (ith & HFe & _ & Hith).
    eexists. split; [exact HFe|]. simpl. unfold nd_get. simpl.
    by rewrite (Hith c _ Hac), Hrow.
  - intros ev k Hev Hk.
    pose proof (get_padded_array_row xss (pad_size self) 0%Qc (Some n) e ev
                  Hev) as Hrow.
    destruct (np_stack_last_row _ _ _ c e _ HF Hac Hrow)
      as (ith & HFe & Hlen & Hith).
    eexists. split; [exact HFe|].
    change (inner (get_padded_array xss (pad_size self) 0%Qc (Some n)))
      with [pad_size self].
    change (stack_last [pad_size self] ith)
      with (Ar ((λ l, Ar l)
                  <$> transpose (pad_size self) (children <$> ith))).
    unfold nd_get. cbn [children].
    rewrite list_lookup_fmap, transpose_lookup by done.
    cbn [fmap option_fmap option_map mbind option_bind children].
    pose proof HF as HF'.
    apply np_stack_last_ok in HF' as (a0 & rest & _ & Hsh & _ & _).
    assert (∀ ch, ch ∈ children <$> ith → is_Some (ch !! k)) as Htot.
    { intros ch Hch. apply list_elem_of_fmap in Hch as (y & -> & Hy).
      apply list_elem_of_lookup in Hy as [q Hq].
      assert (q < length rs.*1)%nat as Hqlt
        by (rewrite <- Hlen; by eapply lookup_lt_Some).
      destruct (lookup_lt_is_Some_2 _ _ Hqlt) as [b Hb].
      rewrite (Hith q b Hb) in Hq.
      rewrite list_lookup_fmap in Hb.
      destruct (rs !! q) as [[b' mob]|] eqn:Hrq; [|done].
      simpl in Hb. injection Hb as ->.
      destruct (Forall2_lookup_r _ _ _ _ _ Hrs Hrq) as (colq & _ & Hcolq).
      apply lookup_lt_is_Some_2.
      rewrite (column_arrays_rows_padded _ _ _ _ _ _ _ y Hcolq);
        [done| |by eapply list_elem_of_lookup_2].
      assert (b ∈ rs.*1) as Hbin.
      { apply list_elem_of_fmap. exists (b, mob). split; [done|].
        by eapply list_elem_of_lookup_2. }
      assert (get_padded_array xss (pad_size self) 0%Qc (Some n) ∈ rs.*1)
        as Hain by by eapply list_elem_of_lookup_2.
      apply Hsh, shape_eq in Hbin as [_ ->].
      by apply Hsh, shape_eq in Hain as [_ <-]. }
    rewrite omap_lookup_total by done.
    rewrite list_lookup_fmap, (Hith c _ Hac), Hrow. simpl.
    by rewrite list_lookup_fmap, padded_lookup.
Qed.

Lemma load_feature_type_appended self arrays n st g columns fs' ma' :
  load_feature_type self arrays n st (g, columns) = Ok (fs', ma') →
  ∃ T mo, group_arrays self arrays n columns = Ok (T, mo)
          ∧ dict_get g fs' ≫= last = Some T.
Proof.
  rewrite load_feature_type_collect.
  destruct (group_arrays self arrays n columns) as [[T mo]|e]; [|done].
  simpl. intros [= <- _]. exists T, mo. split; [done|].
  unfold dict_append. rewrite dict_get_set_eq. simpl. apply last_snoc.
Qed.

Lemma group_arrays_row self arrays n columns T mo j :
  group_arrays self arrays n columns = Ok (T, mo) →
  (j < num_jets self)%nat →
  ∃ F moj, jet_arrays self arrays columns n (S j) = Ok (F, moj)
           ∧ ∀ e x, rows F !! e = Some x →
                    (r ← rows T !! e; nd_get r j) = Some x.
Proof.
  intros Hg Hj. apply group_arrays_collect in Hg as (rs & Hrs & HT & _).
  assert (seq 1 (num_jets self) !! j = Some (S j)) as Hseq
    by by rewrite lookup_seq_lt.
  destruct (Forall2_lookup_l _ _ _ _ _ Hrs Hseq) as ([F moj] & Hrj & HF).
  exists F, moj. split; [done|]. intros e x Hx.
  eapply np_stack_axis1_lookup; [exact HT| |exact Hx].
  by rewrite list_lookup_fmap, Hrj.
Qed.

(** X16.  The tensor [load] appends for a feature type with
    list-valued columns has the axes (event, jet, slot, column), as the
    comment at l.162 says: entry [i, j, k, c] is element [k] of event
    [i] in column [c] of jet [j + 1] when the event has such an
    element, and 0 otherwise. *)
Theorem X16_entries_of_a_padded_feature_tensor
    self arrays n st g columns fs' ma' j jet c col xss i ev k :
  load_feature_type self arrays n st (g, columns) = Ok (fs', ma') →
  (j < num_jets self)%nat →
  ak_getitem arrays ("j" +:+ pretty (S j)) = Ok jet →
  columns !! c = Some col →
  ak_getitem jet col = Ok (AkList xss) →
  slice_to (Some n) xss !! i = Some ev →
  (k < pad_size self)%nat →
  ∃ T, dict_get g fs' ≫= last = Some T
       ∧ at4 T i j k c = Some (default 0%Qc (ev !! k)).
Proof.
  intros Hl Hj Hjet Hc Hcol Hev Hk.
  apply load_feature_type_appended in Hl as (T & mo & Hg & Hlast).
  exists T. split; [done|].
  destruct (group_arrays_row _ _ _ _ _ _ j Hg Hj) as (F & moj & HF & Hrow).
  pose proof (jet_arrays_row _ _ _ _ _ _ _ _ c col i HF Hjet Hc) as Hentry.
  rewrite Hcol in Hentry.
  destruct (Hentry ev k Hev Hk) as (x & Hx & Hat).
  specialize (Hrow i x Hx). unfold at4.
  destruct (rows T !! i) as [r|]; [|done]. simpl in Hrow |- *.
  by rewrite Hrow.
Qed.


Lemma X16_entries_of_a_padded_feature_tensor_witness :
  ∃ fs' ma',
    load_feature_type (Examples.fresh None false) Examples.sample3 3 ([], None)
                      ("part_features", ["pt"]) = Ok (fs', ma')
    ∧ ∃ T, dict_get "part_features" fs' ≫= last = Some T
           ∧ at4 T 1 0 0 0 = Some (default 0%Qc ([of_int 4] !! 0%nat)).
Proof.
  eexists _, _. split; [vm_compute; reflexivity|].
  eapply (X16_entries_of_a_padded_feature_tensor (Examples.fresh None false)
            Examples.sample3 3 ([], None) "part_features" ["pt"] _ _
            0%nat Examples.jet3 0%nat "pt"
            (Examples.floats <$> [[1; 2; 3]; [4]; []]) 1%nat [of_int 4] 0%nat).
  - vm_compute. reflexivity.
  - simpl. lia.
  - reflexivity.
  - reflexivity.
  - reflexivity.
  - reflexivity.
  - simpl. lia.
Defined.


(** ** Degenerate configurations, and which mask survives *)

(** The two [np.stack] calls need something to stack: a feature type
    is worked out only for at least one jet and at least one column. *)
Lemma group_arrays_nonempty self arrays n columns T mo :
  group_arrays self arrays n columns = Ok (T, mo) →
  (0 < num_jets self)%nat ∧ columns ≠ [].
Proof.
  intros Hg. apply group_arrays_collect in Hg as (rs & Hrs & HT & _).
  apply np_stack_axis1_ok in HT as (F0 & rest & HF0 & _).
  destruct rs as [|[F mo'] rs]; [done|].
  apply Forall2_cons_inv_r in Hrs as (i & js & Hi & _ & Hseq).
  split.
  - destruct (num_jets self); [done|lia].
  - apply jet_arrays_collect in Hi as (rs2 & Hrs2 & HF & _).
    apply np_stack_last_ok in HF as (a & rest2 & Ha & _).
    destruct rs2 as [|r2 rs2]; [done|].
    apply Forall2_cons_inv_r in Hrs2 as (c & cs & _ & _ & ->). done.
Qed.

(** A feature type has a mask exactly when its columns are
    list-valued. *)
Lemma group_arrays_mask_iff self arrays n columns T mo i c :
  group_arrays self arrays n columns = Ok (T, mo) →
  (1 ≤ i ≤ num_jets self)%nat →
  c ∈ columns →
  is_Some mo ↔ column_is_ragged arrays i c = true.
Proof.
  intros Hg Hi Hc.
  pose proof (group_arrays_inner _ _ _ _ _ _ i c Hg Hi Hc) as Hin.
  apply group_arrays_shape in Hg as (rs & _ & _ & Hmo).
  destruct mo as [m|]; [destruct Hmo as (Hlen & _)|];
    rewrite Hin in *; destruct (column_is_ragged arrays i c);
    simpl in *; split; try done; try (by eexists); by intros [? ?].
Qed.

Lemma rounds_features_empty self loc rounds :
  feature_dict self = [] →
  features (foldl (add_round self) loc rounds) = features loc.
Proof.
  intros Hfd. revert loc. induction rounds as [|r rounds IH]; intros loc;
    [done|].
  simpl. rewrite IH. unfold add_round. simpl. by rewrite Hfd.
Qed.

(** X18.  [load] returns only for a configuration that gives it
    something to stack and to concatenate: at least one sample, at
    least one feature type, at least one jet, and at least one column
    in every feature type.  (Otherwise one of [np.concatenate] at
    l.172-174, the size check at l.175 and [np.stack] at l.159 and
    l.163 raises.) *)
Theorem X18_load_returns_only_for_a_full_configuration
    env filenames samples self self' :
  load env filenames samples self = (self', Ok ()) →
  default (dict_keys (label_map self)) samples ≠ []
  ∧ feature_dict self ≠ []
  ∧ (0 < num_jets self)%nat
  ∧ ∀ g columns, (g, columns) ∈ feature_dict self → columns ≠ [].
Proof.
  intros Hl. apply load_ok_rounds in Hl as (rounds & f & l & w & Hr & Hc & _).
  apply combine_ok in Hc
    as (fs & size0 & rest & ms & Hcat & _ & Hlab & _).
  rewrite rounds_labels in Hlab. simpl in Hlab.
  apply mapM_result_Ok in Hr.
  destruct rounds as [|r rounds]; [done|].
  apply Forall2_cons_inv_r in Hr as (s & ss & Hs & _ & Hsamples).
  apply sample_round_ok in Hs as (arrays & n & _ & _ & _ & _ & _ & Hgroups).
  assert (feature_dict self ≠ []) as Hfd.
  { intros Hfd. rewrite rounds_features_empty in Hcat by done. done. }
  assert (∀ g columns, (g, columns) ∈ feature_dict self →
            (0 < num_jets self)%nat ∧ columns ≠ []) as Hall.
  { intros g columns Hin. apply list_elem_of_lookup in Hin as [p Hp].
    destruct (Forall2_lookup_l _ _ _ _ _ Hgroups Hp) as ([T mo] & _ & HT).
    by eapply group_arrays_nonempty. }
  split_and!; [by rewrite Hsamples|done| |].
  - destruct (feature_dict self) as [|[g columns] fd]; [done|].
    apply (Hall g columns). left.
  - intros g columns Hin. by apply (Hall g columns).
Qed.

Lemma X18_load_returns_only_for_a_full_configuration_witness :
  default (dict_keys (label_map (Examples.fresh None false))) None ≠ []
  ∧ feature_dict (Examples.fresh None false) ≠ []
  ∧ (0 < num_jets (Examples.fresh None false))%nat
  ∧ ∀ g columns,
      (g, columns) ∈ feature_dict (Examples.fresh None false) → columns ≠ [].
Proof.
  apply (X18_load_returns_only_for_a_full_configuration Examples.env
           Examples.per_sample_files None (Examples.fresh None false)
           Examples.loaded).
  vm_compute. reflexivity.
Defined.

(** A feature type without columns, or no jet at all, leaves
    [np.stack] nothing to stack. *)
Lemma no_columns_example :
  (load Examples.env Examples.per_sample_files None
        (init_attributes Examples.label_map [("part_features", [])]
           Examples.class_labels None 2 2 false 2023)).2
  = Raise NumpyValueError
  ∧ (load Examples.env Examples.per_sample_files None
          (init_attributes Examples.label_map Examples.pt_only
             Examples.class_labels None 0 2 false 2023)).2
    = Raise NumpyValueError
  ∧ (load Examples.env Examples.per_sample_files None
          (init_attributes Examples.label_map [] Examples.class_labels None
             2 2 false 2023)).2
    = Raise InconsistentFeatureSizes.
Proof. split_and!; vm_compute; reflexivity. Qed.

(** X19.  The mask a sample is left with is that of the last feature
    type, in the order of [feature_dict], whose columns are
    list-valued: [mask_arrays] is overwritten by every such type
    (l.165-166), and the masks of the types before it are dropped. *)
Theorem X19_mask_of_the_last_padded_feature_type
    self sample class_val arrays loc loc' pre g columns post i c :
  prepare_sample self sample class_val arrays loc = Ok loc' →
  feature_dict self = pre ++ (g, columns) :: post →
  (1 ≤ i ≤ num_jets self)%nat →
  c ∈ columns →
  column_is_ragged arrays i c = true →
  (∀ g' columns' c',
     (g', columns') ∈ post → c' ∈ columns' →
     column_is_ragged arrays i c' = false) →
  ∃ n T m,
    resolve_sample_size self sample arrays = Ok n
    ∧ group_arrays self arrays n columns = Ok (T, Some m)
    ∧ masks loc' = masks loc ++ [m].
Proof.
  intros Hp Hfd Hi Hc Hrag Hpost.
  apply prepare_sample_ok in Hp as (n & fs & ma & Hres & _ & Hloop & ->).
  apply feature_types_collect in Hloop as (rs & Hrs & _ & ->).
  rewrite Hfd in Hrs.
  apply Forall2_app_inv_l in Hrs as (rs1 & rs' & _ & Hrs' & ->).
  apply Forall2_cons_inv_l in Hrs' as ([T mo] & rs2 & HT & Hrs2 & ->).
  simpl in HT.
  destruct (proj2 (group_arrays_mask_iff _ _ _ _ _ _ i c HT Hi Hc) Hrag)
    as [m ->].
  exists n, T, m. split_and!; [done|done|]. simpl.
  assert (foldl (λ ma mo, first_some mo ma) None (rs1 ++ (T, Some m) :: rs2).*2
          = Some m) as ->; [|done].
  rewrite fmap_app, fmap_cons, foldl_app. simpl.
  generalize (first_some (Some m)
                (foldl (λ ma mo, first_some mo ma) None rs1.*2)).
  intros _. clear HT Hfd.
  induction Hrs2 as [|[g' columns'] [T' mo'] post rs2 HT' _ IH]; [done|].
  simpl in HT'.
  destruct (group_arrays_nonempty _ _ _ _ _ _ HT') as [_ Hne].
  destruct columns' as [|c' columns']; [done|].
  assert (mo' = None) as ->.
  { destruct mo' as [m'|]; [|done].
    assert (column_is_ragged arrays i c' = true) as Ht.
    { apply (group_arrays_mask_iff _ _ _ _ _ _ i c' HT' Hi); [left|].
      by eexists. }
    rewrite (Hpost g' (c' :: columns') c') in Ht; [done|left|left]. }
  simpl. apply IH. intros g'' columns'' c'' Hin.
  apply (Hpost g'' columns'' c''). by right.
Qed.

Lemma X19_mask_of_the_last_padded_feature_type_witness :
  ∃ loc',
    prepare_sample Examples.fresh_two_padded_groups "sig" 1
                   Examples.sample_two_lists (Locals [] [] [] []) = Ok loc'
    ∧ ∃ n T m,
        resolve_sample_size Examples.fresh_two_padded_groups "sig"
                            Examples.sample_two_lists = Ok n
        ∧ group_arrays Examples.fresh_two_padded_groups
                       Examples.sample_two_lists n ["dz"] = Ok (T, Some m)
        ∧ masks loc' = [] ++ [m].
Proof.
  eexists. split; [vm_compute; reflexivity|].
  eapply (X19_mask_of_the_last_padded_feature_type
            Examples.fresh_two_padded_groups "sig" 1 Examples.sample_two_lists
            (Locals [] [] [] []) _ [("part_features", ["pt"])] "part_tracks"
            ["dz"] [] 1%nat "dz").
  - vm_compute. reflexivity.
  - reflexivity.
  - simpl. lia.
  - left.
  - reflexivity.
  - intros g' columns' c' Hin. by apply elem_of_nil in Hin.
Defined.

(** In the example the mask is that of [dz], whose events have one and
    no element, and not that of [pt], whose events have two and one. *)
Lemma last_mask_example :
  ∃ loc' m,
    prepare_sample Examples.fresh_two_padded_groups "sig" 1
                   Examples.sample_two_lists (Locals [] [] [] []) = Ok loc'
    ∧ masks loc' = [m]
    ∧ rows m = [ Ar [Ar [Sc false; Sc true]; Ar [Sc false; Sc true]];
                 Ar [Ar [Sc true; Sc true]; Ar [Sc true; Sc true]] ].
Proof. eexists _, _. split_and!; vm_compute; reflexivity. Qed.

(** ** The constructor *)

(** X20.  An object that [__init__] returns carries the arguments as
    its configuration, with the label map worked out from the class
    labels and an absent [sample_sizes] read as the empty dictionary;
    its cache is empty and all three published attributes are set. *)
Theorem X20_init_object
    env filenames feature_dict class_labels samples sample_sizes
    num_jets pad_size shuffle seed self :
  __init__ env filenames feature_dict class_labels samples sample_sizes
           num_jets pad_size shuffle seed = Ok self →
  ∃ label_map,
    build_label_map class_labels = Ok label_map
    ∧ configuration self
      = (class_labels, label_map, feature_dict, default ∅ sample_sizes,
         num_jets, pad_size, shuffle, seed)
    ∧ cache_arrays self = None
    ∧ cache_sample_arrays self = None
    ∧ ∃ f l w, published self = (Some f, Some l, Some w).
Proof.
  unfold __init__.
  destruct (build_label_map class_labels) as [label_map|e]; [|done]. simpl.
  set (self0 := init_attributes label_map feature_dict class_labels
                  sample_sizes num_jets pad_size shuffle seed).
  destruct (load env filenames samples self0) as [self' [[]|e]] eqn:Hl; [|done].
  intros [= <-]. exists label_map.
  pose proof (load_ok_published_form _ _ _ _ _ Hl) as Hform.
  destruct (load_ok_cache _ _ _ _ _ Hl) as [Hc1 Hc2].
  apply load_ok_inv in Hl as (f & l & w & _ & Hp).
  split_and!; [done| |done|done|by exists f, l, w].
  by rewrite Hform.
Qed.

Lemma X20_init_object_witness :
  ∃ label_map,
    build_label_map Examples.class_labels = Ok label_map
    ∧ configuration Examples.loaded
      = (Examples.class_labels, label_map, Examples.pt_only, default ∅ None,
         2%nat, 2%nat, false, 2023)
    ∧ cache_arrays Examples.loaded = None
    ∧ cache_sample_arrays Examples.loaded = None
    ∧ ∃ f l w, published Examples.loaded = (Some f, Some l, Some w).
Proof.
  apply (X20_init_object Examples.env Examples.per_sample_files
           Examples.pt_only Examples.class_labels None None 2%nat 2%nat false
           2023 Examples.loaded).
  vm_compute. reflexivity.
Defined.

(** ** The keys of the published dictionary *)

Lemma fmap_Float_keys (fs : pydict string (ndarray Qc)) :
  (prod_map id Float <$> fs).*1 = fs.*1.
Proof.
  induction fs as [|[k a] fs IH]; [done|].
  rewrite !fmap_cons, IH. done.
Qed.

Lemma dict_in_keys {V} (k : string) (d : pydict string V) :
  dict_in k d = bool_decide (k ∈ d.*1).
Proof.
  unfold dict_in. apply bool_decide_ext.
  destruct (dict_get k d) as [v|] eqn:Hg.
  - split; [intros _|by eexists].
    apply dict_get_Some_elem in Hg. apply list_elem_of_fmap. by exists (k, v).
  - split; [by intros [? ?]|]. intros Hin. by apply dict_get_None in Hg.
Qed.

(** X21.  [feature_dict] being a dictionary, its keys are distinct.
    The dictionary [load] publishes has the feature types of
    [feature_dict] as its keys, in the same order, and nothing else but
    the key [part_masks], which comes last when there is a mask and no
    feature type of that name. *)
Theorem X21_keys_of_the_published_dictionary
    env filenames samples self self' :
  NoDup (dict_keys (feature_dict self)) →
  load env filenames samples self = (self', Ok ()) →
  ∃ d,
    X self' = Some d
    ∧ dict_keys d
      = match dict_get "part_masks" d with
        | Some (Bool _) =>
            if bool_decide ("part_masks" ∈ dict_keys (feature_dict self))
            then dict_keys (feature_dict self)
            else dict_keys (feature_dict self) ++ ["part_masks"]
        | _ => dict_keys (feature_dict self)
        end.
Proof.
  intros Hnd Hl.
  destruct (load_ok_published _ _ _ _ _ Hnd Hl)
    as (rounds & fs & size0 & rest & ms & _ & Hne & Hcat & _ & _ & _ & HX).
  assert (round_view <$> rounds ≠ []) as Hview.
  { intros Hnil. by apply fmap_nil_inv in Hnil. }
  apply concatenate_features_keys in Hcat.
  rewrite table_keys in Hcat by done.
  eexists. split; [exact HX|]. destruct ms as [m|].
  - rewrite dict_get_set_eq. unfold dict_keys at 1.
    by rewrite dict_set_keys, dict_in_keys, fmap_Float_keys, Hcat.
  - rewrite dict_get_fmap_Float. unfold dict_keys at 1.
    rewrite fmap_Float_keys, Hcat.
    by destruct (dict_get "part_masks" fs).
Qed.

Lemma X21_keys_of_the_published_dictionary_witness :
  ∃ d,
    X (load Examples.env Examples.per_sample_files None
            Examples.fresh_with_group_part_masks).1 = Some d
    ∧ dict_keys d
      = match dict_get "part_masks" d with
        | Some (Bool _) =>
            if bool_decide
                 ("part_masks" ∈ dict_keys Examples.with_group_part_masks)
            then dict_keys Examples.with_group_part_masks
            else dict_keys Examples.with_group_part_masks ++ ["part_masks"]
        | _ => dict_keys Examples.with_group_part_masks
        end.
Proof.
  apply (X21_keys_of_the_published_dictionary Examples.env
           Examples.per_sample_files None
           Examples.fresh_with_group_part_masks).
  - apply (bool_decide_unpack _). vm_compute. exact I.
  - vm_compute. reflexivity.
Defined.

(** In the example the keys are [part_features] and [part_masks]. *)
Lemma keys_example :
  dict_keys <$> X Examples.loaded = Some ["part_features"; "part_masks"].
Proof. vm_compute. reflexivity. Qed.
